(** * Meta-Weight-Net training script ([main.py]): a shallow embedding

    The script glues three things together: the tensor library (torch),
    the bilevel engine (betty) and the repository's own networks and data
    pipeline ([model.py], [data.py], [utils.py]).  The embedding keeps the
    script's own code as it is written: the two problem classes, the
    engine subclass with its [validation], the configurations, the
    dependency maps and the final [print].

    - Tensor entries and Python floats are real numbers (no rounding, no
      overflow); Python integers are [Z]; exceptions are a [result] type;
      the script's dicts are finite maps.
    - The calls into torch ([F.cross_entropy], [torch.reshape], [detach],
      [*], [torch.mean], [argmax], the optimizers' constructors,
      [MultiStepLR]) are given the meaning their documentation gives them.
    - [ResNet32] and [MLP] ([model.py]) and the data loaders ([data.py])
      are parameters: a forward pass is a function of the network's state
      and its input (training and evaluation mode are not told apart), a
      loader is the sequence of batches it yields.
    - betty's [Engine.run] and [Problem.step] are written out as far as the
      script depends on them: the loop over the iterations, the validation
      every [valid_step] iterations, leaves and parents read off [l2u], the
      parent stepping after every [unroll_steps] steps of its child, and
      the two further calls of the child's [training_step] by which the
      darts hypergradient is formed.  Gradients, the points of that finite
      difference and the optimizers' update rules stay abstract. *)

From Stdlib Require Import Reals Lra ZArith Lia List.
From stdpp Require Import base option list strings gmap pretty.

#[local] Open Scope R_scope.

(** ** Python: exceptions and truthiness *)

Module Py.

Inductive exn : Type :=
  | ValueError
  | IndexError
  | RuntimeError
  | AttributeError
  | TypeError
  | RecursionError
  | ZeroDivisionError
  (** A class index outside the range of the logits, as the loss kernel
      reports it: [IndexError] on the CPU; on CUDA a device-side assertion,
      which surfaces as [RuntimeError] at the call or after it.  The two
      are not told apart, and nothing is stated about this case. *)
  | TargetOutOfBounds.

Inductive result (A : Type) : Type :=
  | Ok (a : A)
  | Raise (e : exn).
Arguments Ok {A} a.
Arguments Raise {A} e.

#[global] Instance result_ret : MRet result := fun A a => Ok a.
#[global] Instance result_bind : MBind result := fun A B k m =>
  match m with
  | Ok a => k a
  | Raise e => Raise e
  end.

(** Reading an attribute that may never have been set on the object. *)
Definition getattr {A : Type} (o : option A) : result A :=
  match o with
  | Some a => Ok a
  | None => Raise AttributeError
  end.

#[global] Instance Rlt_decision (x y : R) : Decision (x < y) := Rlt_dec x y.
#[global] Instance Rle_decision (x y : R) : Decision (x <= y) := Rle_dec x y.
#[global] Instance Req_decision : EqDecision R := Req_dec_T.

(** A [for] loop over a list whose body may raise. *)
Fixpoint for_each {A S : Type} (xs : list A) (body : A → S → result S) (s : S)
    : result S :=
  match xs with
  | [] => Ok s
  | x :: rest => s' ← body x s; for_each rest body s'
  end.

(** [range(a, b)]. *)
Fixpoint count_from (a : Z) (n : nat) : list Z :=
  match n with
  | O => []
  | S n' => a :: count_from (a + 1) n'
  end.
Definition range (a b : Z) : list Z := count_from a (Z.to_nat (b - a)).

(** [a % b] and [a / b] on integers. *)
Definition mod_ (a b : Z) : result Z :=
  if bool_decide (b = 0%Z) then Raise ZeroDivisionError else Ok (a mod b)%Z.
Definition truediv (a b : Z) : result R :=
  if bool_decide (b = 0%Z) then Raise ZeroDivisionError else Ok (IZR a / IZR b).

(** The values the expression [c and 10 or 100] ranges over. *)
Inductive value : Type :=
  | Bool (b : bool)
  | Int (z : Z).

Definition truthy (v : value) : bool :=
  match v with
  | Bool b => b
  | Int z => negb (z =? 0)%Z
  end.

(** [x and y] is [y] when [x] is truthy and [x] otherwise; [x or y] is [x]
    when [x] is truthy and [y] otherwise. *)
Definition and_ (x y : value) : value := if truthy x then y else x.
Definition or_ (x y : value) : value := if truthy x then x else y.

(** [==] on two [str] objects. *)
Definition str_eq (s t : string) : value := Bool (bool_decide (s = t)).

End Py.
Export Py.

(** ** torch: the tensor operations the script calls *)

Module torch.

(** A tensor is its shape, its entries in row-major order and the autograd
    flag. *)
Record Tensor : Type := {
  shape : list nat;
  data : list R;
  requires_grad : bool
}.

Definition numel_of (s : list nat) : nat := foldr Nat.mul 1%nat s.
Definition numel (t : Tensor) : nat := length (data t).
Definition wf (t : Tensor) : Prop := length (data t) = numel_of (shape t).

Definition Rsum (xs : list R) : R := foldr Rplus 0 xs.

(** The [i]-th block of [n] consecutive entries. *)
Definition block (i n : nat) (d : list R) : list R := take n (drop (i * n) d).

Definition scalar_tensor (x : R) (g : bool) : Tensor :=
  {| shape := []; data := [x]; requires_grad := g |}.

(** [t.detach()]: same entries, cut from the autograd graph. *)
Definition detach (t : Tensor) : Tensor :=
  {| shape := shape t; data := data t; requires_grad := false |}.

(** [torch.mean(t)]: a 0-dimensional tensor, the sum of all entries over
    their number (nan on an empty tensor, which no data loader batch
    produces; the theorems below are about non-empty batches). *)
Definition mean (t : Tensor) : Tensor :=
  scalar_tensor (Rsum (data t) / INR (numel t)) (requires_grad t).

(** [torch.reshape(t, dims)], where one entry of [dims] may be [-1] and is
    then inferred from the number of entries. *)
Definition known_dims (dims : list Z) : Z :=
  foldr Z.mul 1%Z (filter (λ d, d ≠ (-1)%Z) dims).

Definition reshape (t : Tensor) (dims : list Z) : result Tensor :=
  let holes := length (filter (λ d, d = (-1)%Z) dims) in
  let k := known_dims dims in
  let n := Z.of_nat (numel t) in
  if bool_decide (Exists (λ d, (d < -1)%Z) dims) then Raise RuntimeError
  else if bool_decide (1 < holes)%nat then Raise RuntimeError
  else if bool_decide (holes = 1%nat) then
    if bool_decide (k = 0%Z) then Raise RuntimeError
    else if bool_decide ((n mod k)%Z = 0%Z) then
      Ok {| shape := map (λ d, Z.to_nat (if bool_decide (d = (-1)%Z) then (n / k)%Z else d)) dims;
            data := data t; requires_grad := requires_grad t |}
    else Raise RuntimeError
  else if bool_decide (k = n) then
    Ok {| shape := map Z.to_nat dims; data := data t;
          requires_grad := requires_grad t |}
  else Raise RuntimeError.

(** Broadcasting of two sizes of one dimension. *)
Definition bdim (a b : nat) : option nat :=
  if bool_decide (a = b) then Some a
  else if bool_decide (a = 1%nat) then Some b
  else if bool_decide (b = 1%nat) then Some a
  else None.

Definition pad_shape (n : nat) (s : list nat) : list nat :=
  replicate (n - length s) 1%nat ++ s.

(** Shapes of equal rank. *)
Fixpoint broadcast_shapes (s1 s2 : list nat) : option (list nat) :=
  match s1, s2 with
  | [], [] => Some []
  | a :: s1', b :: s2' =>
      d ← bdim a b; r ← broadcast_shapes s1' s2'; Some (d :: r)
  | _, _ => None
  end.

(** Entries of the broadcast of a binary operation: a dimension of size 1
    is read at index 0 whatever the index of the result. *)
Fixpoint broadcast_zip (f : R → R → R) (s1 s2 : list nat) (d1 d2 : list R)
    : list R :=
  match s1, s2 with
  | a :: s1', b :: s2' =>
      flat_map
        (λ i, broadcast_zip f s1' s2'
                (block (if bool_decide (a = 1%nat) then 0 else i) (numel_of s1') d1)
                (block (if bool_decide (b = 1%nat) then 0 else i) (numel_of s2') d2))
        (seq 0 (default 0%nat (bdim a b)))
  | _, _ => [f (hd 0 d1) (hd 0 d2)]
  end.

(** [x * y] on tensors. *)
Definition mul (x y : Tensor) : result Tensor :=
  let n := Nat.max (length (shape x)) (length (shape y)) in
  let s1 := pad_shape n (shape x) in
  let s2 := pad_shape n (shape y) in
  match broadcast_shapes s1 s2 with
  | Some s =>
      Ok {| shape := s; data := broadcast_zip Rmult s1 s2 (data x) (data y);
            requires_grad := requires_grad x || requires_grad y |}
  | None => Raise RuntimeError
  end.

(** Log-sum-exp form of the cross entropy of one row of logits. *)
Definition nll_row (row : list R) (y : nat) : R :=
  ln (Rsum (map exp row)) - nth y row 0.

Inductive reduction : Type := reduction_mean | reduction_none.

(** [F.cross_entropy(input, target, reduction=...)] for a batch of logits of
    shape [(N, C)] and [N] class indices. *)
Definition cross_entropy (input : Tensor) (target : list nat) (red : reduction)
    : result Tensor :=
  match shape input with
  | [n; c] =>
      if bool_decide (n ≠ length target) then Raise ValueError
      else if bool_decide (Exists (λ y, c ≤ y)%nat target)
      then Raise TargetOutOfBounds
      else
        let losses := imap (λ i y, nll_row (block i c (data input)) y) target in
        let lv := {| shape := [n]; data := losses;
                     requires_grad := requires_grad input |} in
        match red with
        | reduction_none => Ok lv
        | reduction_mean => Ok (mean lv)
        end
  | _ => Raise ValueError
  end.

(** Index of the first largest entry of a row. *)
Fixpoint argmax_row (row : list R) : nat :=
  match row with
  | [] => 0%nat
  | x :: rest =>
      match rest with
      | [] => 0%nat
      | _ => let j := argmax_row rest in
             if Rlt_dec x (nth j rest 0) then S j else 0%nat
      end
  end.

(** [t.argmax(dim=1)] on a tensor of shape [(N, C)]. *)
Definition argmax_dim1 (t : Tensor) : result (list nat) :=
  match shape t with
  | [n; c] =>
      if bool_decide (c = 0%nat) then Raise IndexError
      else Ok (map (λ i, argmax_row (block i c (data t))) (seq 0 n))
  | _ => Raise IndexError
  end.

(** [t.size(d)]. *)
Definition size (t : Tensor) (d : nat) : result nat :=
  match shape t !! d with
  | Some n => Ok n
  | None => Raise IndexError
  end.

Definition count_eq (y : nat) (xs : list nat) : nat :=
  length (filter (λ x, x = y) xs).

(** [(pred == target).sum().item()] on two 1-dimensional integer tensors:
    position by position for equal lengths, a single entry against all
    when one of them has length 1. *)
Definition eq_sum (pred target : list nat) : result Z :=
  if bool_decide (length pred = length target) then
    Ok (Z.of_nat (length (filter (λ '(p, y), p = y) (zip pred target))))
  else match pred, target with
       | [p], _ => Ok (Z.of_nat (count_eq p target))
       | _, [y] => Ok (Z.of_nat (count_eq y pred))
       | _, _ => Raise RuntimeError
       end.

End torch.

Export torch.

(** ** torch.optim: what the optimizers and the scheduler are built with *)

Module optim.

Record SGD : Type := {
  sgd_lr : R;
  sgd_momentum : R;
  sgd_dampening : R;
  sgd_weight_decay : R;
  sgd_nesterov : bool
}.

(** [optim.SGD(params, lr=, momentum=, dampening=, weight_decay=, nesterov=)]
    with the argument checks of its constructor. *)
Definition new_SGD (lr momentum dampening weight_decay : R) (nesterov : bool)
    : result SGD :=
  if bool_decide (lr < 0) then Raise ValueError
  else if bool_decide (momentum < 0) then Raise ValueError
  else if bool_decide (weight_decay < 0) then Raise ValueError
  else if nesterov && (bool_decide (momentum <= 0) || bool_decide (dampening ≠ 0))
  then Raise ValueError
  else Ok {| sgd_lr := lr; sgd_momentum := momentum; sgd_dampening := dampening;
             sgd_weight_decay := weight_decay; sgd_nesterov := nesterov |}.

Definition set_lr (o : SGD) (lr : R) : SGD :=
  {| sgd_lr := lr; sgd_momentum := sgd_momentum o;
     sgd_dampening := sgd_dampening o;
     sgd_weight_decay := sgd_weight_decay o; sgd_nesterov := sgd_nesterov o |}.

Record Adam : Type := { adam_lr : R; adam_weight_decay : R }.

(** [optim.Adam(params, lr=, weight_decay=)]. *)
Definition new_Adam (lr weight_decay : R) : result Adam :=
  if bool_decide (lr < 0) then Raise ValueError
  else if bool_decide (weight_decay < 0) then Raise ValueError
  else Ok {| adam_lr := lr; adam_weight_decay := weight_decay |}.

(** [lr_scheduler.MultiStepLR]: the milestones (with multiplicity), the
    factor and the number of steps taken. *)
Record MultiStepLR : Type := {
  milestones : list Z;
  gamma : R;
  last_epoch : Z
}.

Definition occurrences (k : Z) (ms : list Z) : nat :=
  length (filter (λ m, m = k) ms).

(** [get_lr]: at a milestone the current rate is multiplied by
    [gamma ** multiplicity], elsewhere it is kept. *)
Definition get_lr (sch : MultiStepLR) (current : R) : R :=
  if bool_decide (last_epoch sch ∈ milestones sch)
  then current * gamma sch ^ occurrences (last_epoch sch) (milestones sch)
  else current.

(** [scheduler.step()]: advance the counter, then set the optimizer's rate. *)
Definition scheduler_step (st : SGD * MultiStepLR) : SGD * MultiStepLR :=
  let '(o, sch) := st in
  let sch' := {| milestones := milestones sch; gamma := gamma sch;
                 last_epoch := (last_epoch sch + 1)%Z |} in
  (set_lr o (get_lr sch' (sgd_lr o)), sch').

(** The constructor starts at [last_epoch = -1] and takes one step. *)
Definition new_MultiStepLR (o : SGD) (ms : list Z) (g : R) : SGD * MultiStepLR :=
  scheduler_step (o, {| milestones := ms; gamma := g; last_epoch := -1 |}).

End optim.

(** ** The command line ([argparse]) *)

Record Args : Type := {
  device : string;
  precision : string;
  strategy : string;
  rollback : bool;
  baseline : bool;
  retrain : bool;
  seed : Z;
  local_rank : Z;
  meta_net_hidden_size : Z;
  meta_net_num_layers : Z;
  lr : R;
  momentum : R;
  dampening : R;
  nesterov : bool;
  weight_decay : R;
  meta_lr : R;
  meta_weight_decay : R;
  dataset : string;
  subset_indices : option (list Z);
  num_meta : Z;
  imbalanced_factor : option Z;
  corruption_type : option string;
  corruption_ratio : R;
  batch_size : Z;
  max_epoch : Z;
  meta_interval : Z;
  paint_interval : Z
}.

(** The parser's defaults. *)
Definition default_args : Args := {|
  device := "cuda";
  precision := "fp32";
  strategy := "default";
  rollback := false;
  baseline := false;
  retrain := false;
  seed := 1;
  local_rank := 0;
  meta_net_hidden_size := 100;
  meta_net_num_layers := 1;
  lr := 1 / 10;
  momentum := 9 / 10;
  dampening := 0;
  nesterov := false;
  weight_decay := 5 / 10000;
  meta_lr := 1 / 100000;
  meta_weight_decay := 0;
  dataset := "cifar10";
  subset_indices := None;
  num_meta := 1000;
  imbalanced_factor := None;
  corruption_type := None;
  corruption_ratio := 0;
  batch_size := 100;
  max_epoch := 120;
  meta_interval := 1;
  paint_interval := 20
|}.


(** A batch of a data loader: the inputs and their labels. *)
Definition Batch : Type := Tensor * list nat.

(** The two problem objects of the script,
    [outer = Outer(name="outer", ...)] and [inner = Inner(name="inner", ...)]. *)
Inductive problem : Type := outer | inner.

#[global] Instance problem_eq_dec : EqDecision problem.
Proof. solve_decision. Defined.

#[global] Instance problem_countable : Countable problem :=
  inj_countable'
    (λ p, match p with outer => true | inner => false end)
    (λ b : bool, if b then outer else inner)
    (λ p, match p with outer => eq_refl | inner => eq_refl end).

(** An object gets the attribute [q] when the engine knows a problem of
    that name. *)
Definition attr {A : Type} (problems : list problem) (q : problem) (x : A)
    : option A :=
  if bool_decide (q ∈ problems) then Some x else None.

(** ** betty: configurations *)

Module betty.

(** The fields of [Config] the script sets or relies on; the others keep
    the library's defaults ([unroll_steps=1], [log_step=-1],
    [retain_graph=False]). *)
Record Config : Type := {
  type : string;
  unroll_steps : Z;
  log_step : Z;
  retain_graph : bool
}.

Record EngineConfig : Type := {
  train_iters : Z;
  valid_step : Z;
  strategy : string;
  roll_back : bool;
  logger_type : string
}.

End betty.

(** ** class Outer(ImplicitProblem) *)

Module Outer.
Section Outer.
Context {OuterParams : Type}.
(** [MLP(hidden_size, num_layers)] of [model.py]: the forward pass of the
    network built with these two arguments, at given parameters. *)
Variable MLP : Z → Z → OuterParams → Tensor → result Tensor.
Variable args : Args.
Variable meta_dataloader : nat → Batch.

Definition configure_module : OuterParams → Tensor → result Tensor :=
  MLP (meta_net_hidden_size args) (meta_net_num_layers args).

Definition forward (params : OuterParams) (x : Tensor) : result Tensor :=
  configure_module params x.

(** The dict [{"loss": loss, "acc": acc}]. *)
Record step_output : Type := { loss : Tensor; acc : R }.

(** [(pred == labels).float().mean().item()]. *)
Definition hit_rate (pred labels : list nat) : R :=
  Rsum (zip_with (λ p y, if bool_decide (p = y) then 1 else 0) pred labels)
  / INR (length labels).

(** [inner] is the attribute [self.inner]: the inner problem's forward
    pass at the parameters it holds when the call is made. *)
Definition training_step (inner : option (Tensor → result Tensor))
    (batch : Batch) : result step_output :=
  let '(inputs, labels) := batch in
  inner_forward ← getattr inner;
  outputs ← inner_forward inputs;
  loss ← cross_entropy outputs labels reduction_mean;
  pred ← argmax_dim1 outputs;
  let acc := hit_rate pred labels * 100 in
  mret {| loss := loss; acc := acc |}.

Definition configure_train_data_loader : nat → Batch := meta_dataloader.

Definition configure_optimizer : result optim.Adam :=
  optim.new_Adam (meta_lr args) (meta_weight_decay args).
End Outer.
End Outer.

(** ** class Inner(ImplicitProblem) *)

Module Inner.
Section Inner.
Context {InnerParams : Type}.
(** [ResNet32(num_classes)] of [model.py]: the forward pass of the network
    built with this argument, at given parameters. *)
Variable ResNet32 : value → InnerParams → Tensor → result Tensor.
Variable args : Args.
Variable train_dataloader : nat → Batch.

Definition num_classes : value :=
  or_ (and_ (str_eq (dataset args) "cifar10") (Int 10)) (Int 100).

Definition configure_module : InnerParams → Tensor → result Tensor :=
  ResNet32 num_classes.

Definition forward (params : InnerParams) (x : Tensor) : result Tensor :=
  configure_module params x.

(** [outer] is the attribute [self.outer]: the outer problem's forward
    pass at the parameters it holds when the call is made. *)
Definition training_step (params : InnerParams)
    (outer : option (Tensor → result Tensor)) (batch : Batch)
    : result Tensor :=
  let '(inputs, labels) := batch in
  outputs ← forward params inputs;
  if baseline args || retrain args then
    cross_entropy outputs labels reduction_mean
  else
    loss_vector ← cross_entropy outputs labels reduction_none;
    loss_vector_reshape ← reshape loss_vector [-1; 1]%Z;
    outer_forward ← getattr outer;
    weight ← outer_forward (detach loss_vector_reshape);
    product ← mul weight loss_vector_reshape;
    mret (mean product).

Definition configure_train_data_loader : nat → Batch := train_dataloader.

Definition configure_optimizer : result optim.SGD :=
  optim.new_SGD (lr args) (momentum args) (dampening args)
    (weight_decay args) (nesterov args).

Definition configure_scheduler (optimizer : optim.SGD)
    : optim.SGD * optim.MultiStepLR :=
  optim.new_MultiStepLR optimizer [10000; 13000]%Z (1 / 10).
End Inner.
End Inner.

(** ** The state the run threads through *)

Section State.
Context {InnerParams OuterParams InnerBuf OuterBuf : Type}.

(** Calls of the two [training_step] methods, in the order made. *)
Inductive call : Type :=
  | inner_training_step (at_params : InnerParams) (batch : Batch) (loss : Tensor)
  | outer_training_step (at_inner_params : InnerParams) (batch : Batch)
      (out : Outer.step_output).

(** The two problem objects: parameters, optimizer buffers, optimizer and
    scheduler, local step count and number of batches drawn. *)
Record Problems : Type := {
  inner_params : InnerParams;
  inner_buf : InnerBuf;
  inner_optimizer : optim.SGD;
  inner_scheduler : optim.MultiStepLR;
  inner_count : Z;
  inner_drawn : nat;
  outer_params : OuterParams;
  outer_buf : OuterBuf;
  outer_optimizer : option optim.Adam;
  outer_count : Z;
  outer_drawn : nat;
  calls : list call
}.

(** What [torch.save] has written under a path. *)
Inductive saved : Type :=
  | inner_state_dict (params : InnerParams)
  | outer_state_dict (params : OuterParams).

(** One line of the validation log: step and returned dict. *)
Record validation_record : Type := {
  at_step : Z;
  rec_acc : R;
  rec_best_acc : R
}.

(** Problems, the engine's step counter, the global [best_acc], the files
    on disk and the validation log. *)
Record World : Type := {
  state : Problems;
  global_step : Z;
  best_acc : R;
  disk : gmap string saved;
  vlog : list validation_record
}.
End State.
Arguments call : clear implicits.
Arguments Problems : clear implicits.
Arguments saved : clear implicits.
Arguments World : clear implicits.

(** ** betty's Engine and Problem: how the methods above are driven *)

Module Engine.
Section Engine.
Context {InnerParams OuterParams InnerBuf OuterBuf : Type}.
Variable ResNet32 : value → InnerParams → Tensor → result Tensor.
Variable MLP : Z → Z → OuterParams → Tensor → result Tensor.
Variable args : Args.
Variable train_dataloader meta_dataloader : nat → Batch.
(** Back-propagation followed by [optimizer.step()]: the new parameters
    and buffers are a function of the optimizer, of the objective as a
    function of the parameters, and of the current parameters and
    buffers. *)
Variable sgd_update :
  optim.SGD → (InnerParams → result Tensor) → InnerParams → InnerBuf →
  InnerParams * InnerBuf.
Variable adam_update :
  optim.Adam → (OuterParams → result Tensor) → OuterParams → OuterBuf →
  OuterParams * OuterBuf.
(** The finite difference of betty's darts hypergradient: given the upper
    loss as a function of the lower parameters and the current lower
    parameters, the two parameter vectors, one to each side of the current
    one along the gradient of the upper loss, at which the lower loss is
    evaluated again. *)
Variable darts_points :
  (InnerParams → result Tensor) → InnerParams → InnerParams * InnerParams.
(** What a problem does after the upper update when roll-back is on. *)
Variable step_after_roll_back :
  Problems InnerParams OuterParams InnerBuf OuterBuf →
  result (Problems InnerParams OuterParams InnerBuf OuterBuf).

Variable outer_config inner_config : betty.Config.
Variable engine_config : betty.EngineConfig.
Variable problems : list problem.
Variable dependencies : gmap string (gmap problem (list problem)).

Abbreviation Problems := (Problems InnerParams OuterParams InnerBuf OuterBuf).
Abbreviation World := (World InnerParams OuterParams InnerBuf OuterBuf).

Definition l2u : gmap problem (list problem) :=
  default ∅ (dependencies !! "l2u").
Definition u2l : gmap problem (list problem) :=
  default ∅ (dependencies !! "u2l").

(** The problems stepped after [p]: its parents. *)
Definition parents (p : problem) : list problem := default [] (l2u !! p).

(** A problem is a leaf when it is in no value list of [l2u]. *)
Definition is_leaf (p : problem) : bool :=
  forallb (λ kv : problem * list problem, negb (bool_decide (p ∈ kv.2)))
    (map_to_list l2u).
Definition leaves : list problem := filter (λ p, is_leaf p = true) problems.

Definition config (p : problem) : betty.Config :=
  match p with outer => outer_config | inner => inner_config end.

(** One descent step of the inner problem: next training batch, loss,
    parameter update, scheduler step.  Also returned: the updated
    parameters as a function of the outer parameters. *)
Definition inner_descent (s : Problems)
    : result (Problems * (OuterParams → InnerParams)) :=
  let batch := Inner.configure_train_data_loader train_dataloader (inner_drawn s) in
  let objective := λ φ θ,
    Inner.training_step ResNet32 args θ
      (attr problems outer (Outer.forward MLP args φ)) batch in
  loss ← objective (outer_params s) (inner_params s);
  let update := λ φ,
    sgd_update (inner_optimizer s) (objective φ) (inner_params s) (inner_buf s) in
  let '(θ', buf') := update (outer_params s) in
  let '(o', sch') := optim.scheduler_step (inner_optimizer s, inner_scheduler s) in
  mret ({| inner_params := θ'; inner_buf := buf';
           inner_optimizer := o'; inner_scheduler := sch';
           inner_count := (inner_count s + 1)%Z;
           inner_drawn := S (inner_drawn s);
           outer_params := outer_params s; outer_buf := outer_buf s;
           outer_optimizer := outer_optimizer s;
           outer_count := outer_count s; outer_drawn := outer_drawn s;
           calls := calls s ++
             [inner_training_step (inner_params s) batch loss] |},
        λ φ, fst (update φ)).

(** The inner problem's [cur_batch]: the batch it drew last, [None] before
    the first (which [inputs, labels = batch] cannot unpack). *)
Definition inner_cur_batch (s : Problems) : result Batch :=
  match inner_drawn s with
  | O => Raise TypeError
  | S n => mret (Inner.configure_train_data_loader train_dataloader n)
  end.

(** The hypergradient of the outer problem's loss through the inner
    problem, by the method the script's configs name, ["darts"]; no other
    method is modelled.  When the outer problem depends on the inner one
    ([u2l]), [Inner.training_step] is run again on the inner problem's
    current batch, with the inner parameters moved to the first and then
    to the second of the [darts_points], and the parameters are put back.
    Returned: the calls made. *)
Definition darts (upper_loss : InnerParams → result Tensor) (s : Problems)
    : result (list (call InnerParams)) :=
  if bool_decide (inner ∈ default [] (u2l !! outer)) then
    batch ← inner_cur_batch s;
    let points := darts_points upper_loss (inner_params s) in
    let again := λ θ,
      Inner.training_step ResNet32 args θ
        (attr problems outer (Outer.forward MLP args (outer_params s))) batch in
    loss_p ← again points.1;
    loss_n ← again points.2;
    mret [inner_training_step points.1 batch loss_p;
          inner_training_step points.2 batch loss_n]
  else mret [].

(** One descent step of the outer problem: next meta batch, loss at the
    inner problem's current parameters, hypergradient, parameter update
    through [unrolled]. *)
Definition outer_descent (unrolled : OuterParams → InnerParams) (s : Problems)
    : result Problems :=
  let batch := Outer.configure_train_data_loader meta_dataloader (outer_drawn s) in
  let objective := λ θ,
    Outer.training_step (attr problems inner (Inner.forward ResNet32 args θ))
      batch in
  out ← objective (inner_params s);
  hyper ← darts (λ θ, out ← objective θ; mret (Outer.loss out)) s;
  optimizer ← getattr (outer_optimizer s);
  let '(φ', buf') :=
    adam_update optimizer
      (λ φ, out ← objective (unrolled φ); mret (Outer.loss out))
      (outer_params s) (outer_buf s) in
  mret {| inner_params := inner_params s; inner_buf := inner_buf s;
          inner_optimizer := inner_optimizer s;
          inner_scheduler := inner_scheduler s;
          inner_count := inner_count s; inner_drawn := inner_drawn s;
          outer_params := φ'; outer_buf := buf';
          outer_optimizer := outer_optimizer s;
          outer_count := (outer_count s + 1)%Z;
          outer_drawn := S (outer_drawn s);
          calls := calls s ++
            outer_training_step (inner_params s) batch out :: hyper |}.

(** [Problem.step_normal]: descend, then, every [unroll_steps] local
    steps, step the parents.  [depth] bounds the nesting of these calls
    (a cyclic [l2u] would nest them without end). *)
Fixpoint step_normal (depth : nat) (p : problem)
    (unrolled : OuterParams → InnerParams) (s : Problems) : result Problems :=
  match depth with
  | O => Raise RecursionError
  | S depth' =>
      '(s1, unrolled1, count) ←
        match p with
        | inner => '(s1, u) ← inner_descent s; mret (s1, u, inner_count s1)
        | outer => s1 ← outer_descent unrolled s;
                   mret (s1, unrolled, outer_count s1)
        end;
      r ← mod_ count (betty.unroll_steps (config p));
      if bool_decide (r = 0%Z)
      then for_each (parents p) (λ q, step_normal depth' q unrolled1) s1
      else mret s1
  end.

Definition recursion_limit : nat := 1000.

(** [Problem.step]. *)
Definition step (p : problem) (s : Problems) : result Problems :=
  s1 ← step_normal recursion_limit p (λ _, inner_params s) s;
  if betty.roll_back engine_config then step_after_roll_back s1 else mret s1.

(** [Engine.train_step]: every leaf steps. *)
Definition train_step (w : World) : result World :=
  s' ← for_each leaves step (state w);
  mret {| state := s'; global_step := global_step w; best_acc := best_acc w;
          disk := disk w; vlog := vlog w |}.

(** [Engine.run], with [validation] the method of the subclass (returning
    the new state and the dict [(acc, best_acc)]): each iteration advances
    the step counter, trains, and validates when the iteration number is a
    multiple of [valid_step] (the subclass defines [validation], so
    [do_validation()] holds); the returned dict goes to the log. *)
Variable validation : World → result (World * (R * R)).

Definition run_iteration (it : Z) (w : World) : result World :=
  let w1 := {| state := state w; global_step := (global_step w + 1)%Z;
               best_acc := best_acc w; disk := disk w; vlog := vlog w |} in
  w2 ← train_step w1;
  r ← mod_ it (betty.valid_step engine_config);
  if bool_decide (r = 0%Z) then
    '(w3, stats) ← validation w2;
    mret {| state := state w3; global_step := global_step w3;
            best_acc := best_acc w3; disk := disk w3;
            vlog := vlog w3 ++
              [{| at_step := global_step w3; rec_acc := stats.1;
                  rec_best_acc := stats.2 |}] |}
  else mret w2.

Definition run (w : World) : result World :=
  for_each (range 1 (betty.train_iters engine_config + 1)) run_iteration w.
End Engine.
End Engine.

(** ** class ReweightingEngine(Engine) *)

Module ReweightingEngine.
Section ReweightingEngine.
Context {InnerParams OuterParams InnerBuf OuterBuf : Type}.
Variable ResNet32 : value → InnerParams → Tensor → result Tensor.
Variable args : Args.
Variable test_dataloader : list Batch.
Variable problems : list problem.

Abbreviation World := (World InnerParams OuterParams InnerBuf OuterBuf).

(** The body of the loop over the test batches. *)
Definition test_batch (inner_forward : Tensor → result Tensor)
    (b : Batch) (counts : Z * Z) : result (Z * Z) :=
  let '(x, target) := b in
  let '(correct, total) := counts in
  out ← inner_forward x;
  pred ← argmax_dim1 out;
  hits ← eq_sum pred target;
  n ← size x 0;
  mret ((correct + hits)%Z, (total + Z.of_nat n)%Z).

Definition net_path (step : Z) : string :=
  dataset args +:+ "/net_" +:+ pretty step +:+ ".pt".
Definition meta_net_path (step : Z) : string :=
  dataset args +:+ "/meta_net_" +:+ pretty step +:+ ".pt".

(** [validation]: the new world and the returned dict [(acc, best_acc)].
    [torch.save] is an insertion into the files on disk (the directory named
    after the dataset is taken to exist). *)
Definition validation (w : World) : result (World * (R * R)) :=
  self_inner ← getattr (attr problems inner (inner_params (state w)));
  '(correct, total) ←
    for_each test_dataloader
      (test_batch (Inner.forward ResNet32 args self_inner)) (0%Z, 0%Z);
  ratio ← truediv correct total;
  let acc := ratio * 100 in
  let best := if bool_decide (best_acc w < acc) then acc else best_acc w in
  disk' ←
    (if negb (retrain args) && negb (baseline args) then
       self_outer ← getattr (attr problems outer (outer_params (state w)));
       mret (<[meta_net_path (global_step w) := outer_state_dict self_outer]>
               (<[net_path (global_step w) := inner_state_dict self_inner]>
                  (disk w)))
     else mret (disk w));
  mret ({| state := state w; global_step := global_step w; best_acc := best;
           disk := disk'; vlog := vlog w |},
        (acc, best)).
End ReweightingEngine.
End ReweightingEngine.

(** ** The script *)

Section main.
Context {InnerParams OuterParams InnerBuf OuterBuf : Type}.
(** Of [model.py]. *)
Variable ResNet32 : value → InnerParams → Tensor → result Tensor.
Variable MLP : Z → Z → OuterParams → Tensor → result Tensor.
(** The freshly initialised parameters and optimizer buffers. *)
Variable inner_init : InnerParams.
Variable outer_init : OuterParams.
Variable inner_buf_init : InnerBuf.
Variable outer_buf_init : OuterBuf.
(** Of autograd, the optimizers and the engine. *)
Variable sgd_update :
  optim.SGD → (InnerParams → result Tensor) → InnerParams → InnerBuf →
  InnerParams * InnerBuf.
Variable adam_update :
  optim.Adam → (OuterParams → result Tensor) → OuterParams → OuterBuf →
  OuterParams * OuterBuf.
Variable darts_points :
  (InnerParams → result Tensor) → InnerParams → InnerParams * InnerParams.
Variable step_after_roll_back :
  Problems InnerParams OuterParams InnerBuf OuterBuf →
  result (Problems InnerParams OuterParams InnerBuf OuterBuf).
Variable args : Args.
(** What [build_dataloader] of [data.py] returned: the batches the two
    training loaders yield, in the order drawn, and the test batches. *)
Variable train_dataloader meta_dataloader : nat → Batch.
Variable test_dataloader : list Batch.

Definition initial_best_acc : R := -1.

Definition outer_config : betty.Config :=
  {| betty.type := "darts"; betty.unroll_steps := 1;
     betty.log_step := 100; betty.retain_graph := true |}.
Definition inner_config : betty.Config :=
  {| betty.type := "darts"; betty.unroll_steps := 1;
     betty.log_step := -1; betty.retain_graph := false |}.
Definition engine_config : betty.EngineConfig :=
  {| betty.train_iters := 15000; betty.valid_step := 500;
     betty.strategy := strategy args; betty.roll_back := rollback args;
     betty.logger_type := "tensorboard" |}.

Definition problems : list problem :=
  if baseline args || retrain args then [inner] else [outer; inner].
Definition u2l : gmap problem (list problem) :=
  if baseline args || retrain args then ∅ else {[ outer := [inner] ]}.
Definition l2u : gmap problem (list problem) :=
  if baseline args || retrain args then ∅ else {[ inner := [outer] ]}.
Definition dependencies : gmap string (gmap problem (list problem)) :=
  {[ "l2u" := l2u; "u2l" := u2l ]}.

(** What the engine's constructor leaves behind: each problem it was given
    has its optimizer (and scheduler) configured. *)
Definition engine : result (World InnerParams OuterParams InnerBuf OuterBuf) :=
  adam ← (if bool_decide (outer ∈ problems)
          then a ← Outer.configure_optimizer args; mret (Some a)
          else mret None);
  sgd ← Inner.configure_optimizer args;
  let '(sgd0, scheduler) := Inner.configure_scheduler sgd in
  mret {| state := {| inner_params := inner_init; inner_buf := inner_buf_init;
                      inner_optimizer := sgd0; inner_scheduler := scheduler;
                      inner_count := 0; inner_drawn := 0;
                      outer_params := outer_init; outer_buf := outer_buf_init;
                      outer_optimizer := adam;
                      outer_count := 0; outer_drawn := 0; calls := [] |};
          global_step := 0; best_acc := initial_best_acc; disk := ∅;
          vlog := [] |}.

Definition engine_run (w : World InnerParams OuterParams InnerBuf OuterBuf)
    : result (World InnerParams OuterParams InnerBuf OuterBuf) :=
  Engine.run ResNet32 MLP args train_dataloader meta_dataloader
    sgd_update adam_update darts_points step_after_roll_back
    outer_config inner_config engine_config problems dependencies
    (ReweightingEngine.validation ResNet32 args test_dataloader problems) w.

(** One pass of the loop of [Engine.run] for this engine. *)
Definition engine_iteration (it : Z)
    (w : World InnerParams OuterParams InnerBuf OuterBuf)
    : result (World InnerParams OuterParams InnerBuf OuterBuf) :=
  Engine.run_iteration ResNet32 MLP args train_dataloader meta_dataloader
    sgd_update adam_update darts_points step_after_roll_back
    outer_config inner_config engine_config problems dependencies
    (ReweightingEngine.validation ResNet32 args test_dataloader problems) it w.

(** [Problem.step_normal] of this engine. *)
Definition engine_step_normal (p : problem) (u : OuterParams → InnerParams)
    (s : Problems InnerParams OuterParams InnerBuf OuterBuf)
    : result (Problems InnerParams OuterParams InnerBuf OuterBuf) :=
  Engine.step_normal ResNet32 MLP args train_dataloader meta_dataloader
    sgd_update adam_update darts_points outer_config inner_config problems dependencies
    Engine.recursion_limit p u s.

(** The inner problem's parameters after its update from state [s]. *)
Definition updated_inner_params
    (s : Problems InnerParams OuterParams InnerBuf OuterBuf) : InnerParams :=
  (sgd_update (inner_optimizer s)
     (λ θ, Inner.training_step ResNet32 args θ
             (attr problems outer (Outer.forward MLP args (outer_params s)))
             (train_dataloader (inner_drawn s)))
     (inner_params s) (inner_buf s)).1.

(** The outer problem's loss on its next batch, as a function of the
    inner problem's parameters. *)
Definition meta_loss (s : Problems InnerParams OuterParams InnerBuf OuterBuf)
    (θ : InnerParams) : result Tensor :=
  out ← Outer.training_step
           (attr problems inner (Inner.forward ResNet32 args θ))
           (meta_dataloader (outer_drawn s));
  mret (Outer.loss out).

(** The two parameter vectors at which the hypergradient of the engine
    step taken in state [s] runs [Inner.training_step] again. *)
Definition hypergradient_points
    (s : Problems InnerParams OuterParams InnerBuf OuterBuf)
    : InnerParams * InnerParams :=
  darts_points (meta_loss s) (updated_inner_params s).

(** The whole script; its value is what the last [print] shows: the
    imbalance factor and the best accuracy. *)
Definition main : result (option Z * R) :=
  w0 ← engine;
  w ← engine_run w0;
  mret (imbalanced_factor args, best_acc w).
End main.

(** ** Vocabulary of the statements *)

(** The inner optimizer's learning rate after [t] calls of
    [scheduler.step()] (one follows every inner update). *)
Definition lr_schedule (optimizer : optim.SGD) (t : nat) : R :=
  optim.sgd_lr
    (Nat.iter t optim.scheduler_step (Inner.configure_scheduler optimizer)).1.

(** How many of the milestones lie in [0, t]. *)
Definition milestones_reached (ms : list Z) (t : Z) : nat :=
  length (filter (λ m, (0 ≤ m ≤ t)%Z) ms).

(** The values of the step counter at which a loop over the iteration
    numbers [its], entered with counter [g], validates every [every]-th
    iteration. *)
Fixpoint validated_steps (every g : Z) (its : list Z) : list Z :=
  match its with
  | [] => []
  | it :: rest =>
      (if bool_decide ((it mod every)%Z = 0%Z) then [(g + 1)%Z] else [])
      ++ validated_steps every (g + 1) rest
  end.

(** The successive values of a maximum that starts at [b] and takes in the
    entries of [accs] one by one. *)
Fixpoint running_max (b : R) (accs : list R) : list R :=
  match accs with
  | [] => []
  | a :: rest => Rmax b a :: running_max (Rmax b a) rest
  end.

(** The counters of the two problems, the number of recorded calls and the
    state of the inner optimizer and scheduler after [n] iterations of an
    engine whose inner optimizer was built as [sgd]. *)
Definition stepped {InnerParams OuterParams InnerBuf OuterBuf : Type}
    (args : Args) (sgd : optim.SGD) (n : nat)
    (s : Problems InnerParams OuterParams InnerBuf OuterBuf) : Prop :=
  inner_count s = Z.of_nat n ∧
  (inner_optimizer s, inner_scheduler s) =
    Nat.iter n optim.scheduler_step (Inner.configure_scheduler sgd) ∧
  outer_count s = (if baseline args || retrain args then 0 else Z.of_nat n)%Z ∧
  length (calls s) =
    (if baseline args || retrain args then n else 4 * n)%nat.

(** ** Small concrete instances *)

Module Sample.

(** The command line with [--baseline] and [--retrain] as given and
    everything else at its default. *)
Definition with_flags (b r : bool) : Args := {|
  device := device default_args;
  precision := precision default_args;
  strategy := strategy default_args;
  rollback := rollback default_args;
  baseline := b;
  retrain := r;
  seed := seed default_args;
  local_rank := local_rank default_args;
  meta_net_hidden_size := meta_net_hidden_size default_args;
  meta_net_num_layers := meta_net_num_layers default_args;
  lr := lr default_args;
  momentum := momentum default_args;
  dampening := dampening default_args;
  nesterov := nesterov default_args;
  weight_decay := weight_decay default_args;
  meta_lr := meta_lr default_args;
  meta_weight_decay := meta_weight_decay default_args;
  dataset := dataset default_args;
  subset_indices := subset_indices default_args;
  num_meta := num_meta default_args;
  imbalanced_factor := imbalanced_factor default_args;
  corruption_type := corruption_type default_args;
  corruption_ratio := corruption_ratio default_args;
  batch_size := batch_size default_args;
  max_epoch := max_epoch default_args;
  meta_interval := meta_interval default_args;
  paint_interval := paint_interval default_args
|}.

(** A classifier without parameters whose logits are its input. *)
Definition echo_net : value → unit → Tensor → result Tensor :=
  λ _ _ x, Ok x.

(** A weight network without parameters that gives every loss the weight
    one half. *)
Definition half_net : Z → Z → unit → Tensor → result Tensor :=
  λ _ _ _ x, Ok {| shape := shape x; data := map (λ _, 1 / 2) (data x);
                   requires_grad := true |}.

(** Two samples with two logits each, labelled 0 and 1. *)
Definition two_by_two : Tensor :=
  {| shape := [2; 2]%nat; data := [1; 2; 3; 4]; requires_grad := false |}.
Definition batch2 : Batch := (two_by_two, [0; 1]%nat).

(** One sample with a single logit, labelled 0. *)
Definition one_by_one : Tensor :=
  {| shape := [1; 1]%nat; data := [0]; requires_grad := false |}.
Definition batch1 : Batch := (one_by_one, [0%nat]).

(** Optimizers that leave parameters and buffers as they are. *)
Definition sgd_keep
    : optim.SGD → (unit → result Tensor) → unit → unit → unit * unit :=
  λ _ _ θ b, (θ, b).
Definition adam_keep
    : optim.Adam → (unit → result Tensor) → unit → unit → unit * unit :=
  λ _ _ θ b, (θ, b).
(** A finite difference whose two points are the current parameters. *)
Definition darts_keep : (unit → result Tensor) → unit → unit * unit :=
  λ _ θ, (θ, θ).
(** No roll-back step. *)
Definition no_roll_back
    : Problems unit unit unit unit → result (Problems unit unit unit unit) :=
  Ok.

(** The training loaders yield [batch2] for ever; the test set is
    [batch1]. *)
Definition loader : nat → Batch := λ _, batch2.
Definition test_set : list Batch := [batch1].

Definition sgd0 : optim.SGD :=
  {| optim.sgd_lr := 1 / 10; optim.sgd_momentum := 9 / 10;
     optim.sgd_dampening := 0; optim.sgd_weight_decay := 5 / 10000;
     optim.sgd_nesterov := false |}.
Definition adam0 : optim.Adam :=
  {| optim.adam_lr := 1 / 100000; optim.adam_weight_decay := 0 |}.

(** The problems as the engine's constructor leaves them under the
    default command line. *)
Definition state0 : Problems unit unit unit unit :=
  {| inner_params := tt; inner_buf := tt;
     inner_optimizer := (Inner.configure_scheduler sgd0).1;
     inner_scheduler := (Inner.configure_scheduler sgd0).2;
     inner_count := 0; inner_drawn := 0;
     outer_params := tt; outer_buf := tt; outer_optimizer := Some adam0;
     outer_count := 0; outer_drawn := 0; calls := [] |}.

(** The world the engine's constructor leaves under the default command
    line, and the worlds in which the outer optimizer is in place. *)
Definition world0 : World unit unit unit unit :=
  {| state := state0; global_step := 0; best_acc := initial_best_acc;
     disk := ∅; vlog := [] |}.
Definition ready (w : World unit unit unit unit) : Prop :=
  outer_optimizer (state w) = Some adam0.

(** A world in which a validation has already reached 100 percent. *)
Definition world_at_best : World unit unit unit unit :=
  {| state := state0; global_step := 500; best_acc := 100; disk := ∅;
     vlog := [] |}.

(** The loss of [batch2] under [echo_net], weighted by [half_net]. *)
Definition weighted_loss2 : Tensor :=
  scalar_tensor
    (Rsum (zip_with Rmult [1 / 2; 1 / 2]
             (imap (λ i y, nll_row (block i 2 [1; 2; 3; 4]) y) [0; 1]%nat))
     / INR 2)
    true.

(** What [Outer.training_step] returns on [batch2] under [echo_net]. *)
Definition meta_output2 : Outer.step_output :=
  {| Outer.loss :=
       scalar_tensor
         (Rsum (imap (λ i y, nll_row (block i 2 [1; 2; 3; 4]) y) [0; 1]%nat)
          / INR 2)
         false;
     Outer.acc :=
       Outer.hit_rate
         (map (λ i, argmax_row (block i 2 [1; 2; 3; 4])) (seq 0 2))
         [0; 1]%nat * 100 |}.

(** A weight network that gives every loss the weight one. *)
Definition one_net : Z → Z → unit → Tensor → result Tensor :=
  λ _ _ _ x, Ok {| shape := shape x; data := map (λ _, 1) (data x);
                   requires_grad := true |}.

(** Two samples with a single logit each, both labelled 0, and a test set
    of two batches. *)
Definition two_by_one : Tensor :=
  {| shape := [2; 1]%nat; data := [0; 0]; requires_grad := false |}.
Definition batch1x2 : Batch := (two_by_one, [0; 0]%nat).
Definition test_pair : list Batch := [batch1; batch1x2].

(** The default command line with [--baseline] as given and the two
    learning rates replaced. *)
Definition with_rates (b : bool) (rate meta_rate : R) : Args := {|
  device := device default_args;
  precision := precision default_args;
  strategy := strategy default_args;
  rollback := rollback default_args;
  baseline := b;
  retrain := retrain default_args;
  seed := seed default_args;
  local_rank := local_rank default_args;
  meta_net_hidden_size := meta_net_hidden_size default_args;
  meta_net_num_layers := meta_net_num_layers default_args;
  lr := rate;
  momentum := momentum default_args;
  dampening := dampening default_args;
  nesterov := nesterov default_args;
  weight_decay := weight_decay default_args;
  meta_lr := meta_rate;
  meta_weight_decay := meta_weight_decay default_args;
  dataset := dataset default_args;
  subset_indices := subset_indices default_args;
  num_meta := num_meta default_args;
  imbalanced_factor := imbalanced_factor default_args;
  corruption_type := corruption_type default_args;
  corruption_ratio := corruption_ratio default_args;
  batch_size := batch_size default_args;
  max_epoch := max_epoch default_args;
  meta_interval := meta_interval default_args;
  paint_interval := paint_interval default_args
|}.

(** The problems and the world the engine's constructor leaves under
    [--baseline]: no outer optimizer. *)
Definition baseline_state0 : Problems unit unit unit unit :=
  {| inner_params := tt; inner_buf := tt;
     inner_optimizer := (Inner.configure_scheduler sgd0).1;
     inner_scheduler := (Inner.configure_scheduler sgd0).2;
     inner_count := 0; inner_drawn := 0;
     outer_params := tt; outer_buf := tt; outer_optimizer := None;
     outer_count := 0; outer_drawn := 0; calls := [] |}.
Definition baseline_world0 : World unit unit unit unit :=
  {| state := baseline_state0; global_step := 0;
     best_acc := initial_best_acc; disk := ∅; vlog := [] |}.

(** The plain mean cross entropy of [batch2] under [echo_net]. *)
Definition plain_loss2 : Tensor :=
  scalar_tensor
    (Rsum (imap (λ i y, nll_row (block i 2 [1; 2; 3; 4]) y) [0; 1]%nat)
     / INR 2)
    false.

End Sample.

(** * Properties *)

(** ** Tensors of one shape *)

Lemma flat_map_ext_seq {B : Type} (g h : nat → list B) (a : nat) :
  (∀ i, (i < a)%nat → g i = h i) → flat_map g (seq 0 a) = flat_map h (seq 0 a).
Proof.
  intros Hgh. rewrite !flat_map_concat_map. f_equal.
  apply map_ext_in. intros i Hi. apply in_seq in Hi. apply Hgh. lia.
Qed.

Lemma block_0 (n : nat) (d : list R) : torch.block 0 n d = take n d.
Proof. unfold torch.block. simpl. by rewrite drop_0. Qed.

Lemma block_S (i n : nat) (d : list R) :
  torch.block (S i) n d = torch.block i n (drop n d).
Proof.
  unfold torch.block. rewrite drop_drop. reflexivity.
Qed.

Lemma length_block (i a n : nat) (d : list R) :
  length d = (a * n)%nat → (i < a)%nat → length (torch.block i n d) = n.
Proof.
  intros Hd Hi. unfold torch.block. rewrite length_take, length_drop. nia.
Qed.

Lemma flat_map_blocks (f : R → R → R) (a n : nat) (d1 d2 : list R) :
  length d1 = (a * n)%nat → length d2 = (a * n)%nat →
  flat_map (λ i, zip_with f (torch.block i n d1) (torch.block i n d2)) (seq 0 a)
  = zip_with f d1 d2.
Proof.
  revert d1 d2. induction a as [|a IH]; intros d1 d2 H1 H2.
  - destruct d1; [reflexivity | simpl in H1; lia].
  - cbn [seq flat_map]. rewrite <- seq_shift, flat_map_concat_map, map_map.
    rewrite <- flat_map_concat_map.
    rewrite (flat_map_ext _ (λ i, zip_with f (torch.block i n (drop n d1))
                                     (torch.block i n (drop n d2)))).
    2:{ intros i. by rewrite !block_S. }
    rewrite IH by (rewrite length_drop; lia).
    rewrite !block_0.
    rewrite <- (take_drop n d1) at 3. rewrite <- (take_drop n d2) at 3.
    rewrite zip_with_app; [reflexivity|].
    rewrite !length_take. lia.
Qed.

Lemma bdim_same (a : nat) : torch.bdim a a = Some a.
Proof. unfold torch.bdim. by rewrite bool_decide_eq_true_2. Qed.

(** Two tensors of one shape are multiplied (or zipped by any operation)
    entry by entry. *)
Lemma broadcast_zip_same (f : R → R → R) (s : list nat) (d1 d2 : list R) :
  length d1 = torch.numel_of s → length d2 = torch.numel_of s →
  torch.broadcast_zip f s s d1 d2 = zip_with f d1 d2.
Proof.
  revert d1 d2. induction s as [|a s IH]; intros d1 d2 H1 H2.
  - destruct d1 as [|x [|]], d2 as [|y [|]]; simpl in *; try lia. reflexivity.
  - cbn [torch.broadcast_zip]. rewrite bdim_same. cbn [default from_option].
    change (torch.numel_of (a :: s)) with (a * torch.numel_of s)%nat in H1, H2.
    rewrite <- (flat_map_blocks f a (torch.numel_of s) d1 d2) by assumption.
    apply flat_map_ext_seq. intros i Hi.
    assert (Hi' : (if bool_decide (a = 1%nat) then 0%nat else i) = i).
    { case_bool_decide; lia. }
    rewrite Hi'. apply IH; eapply length_block; eauto.
Qed.

Lemma broadcast_shapes_same (s : list nat) : torch.broadcast_shapes s s = Some s.
Proof.
  induction s as [|a s IH]; [reflexivity|].
  cbn [torch.broadcast_shapes]. rewrite bdim_same, IH. reflexivity.
Qed.

Lemma mul_same_shape (x y : Tensor) :
  shape x = shape y → wf x → wf y →
  torch.mul x y =
    Ok {| shape := shape x; data := zip_with Rmult (data x) (data y);
          requires_grad := requires_grad x || requires_grad y |}.
Proof.
  intros Hs Hx Hy. unfold torch.mul, torch.pad_shape. rewrite <- Hs.
  rewrite Nat.max_id, Nat.sub_diag. cbn [replicate app].
  rewrite broadcast_shapes_same, broadcast_zip_same; auto.
  unfold wf in Hy. by rewrite Hs.
Qed.

(** ** The two training steps *)

Lemma reshape_column (t : Tensor) :
  torch.reshape t [-1; 1]%Z =
    Ok {| shape := [torch.numel t; 1%nat]; data := data t;
          requires_grad := requires_grad t |}.
Proof.
  unfold torch.reshape, torch.known_dims.
  rewrite bool_decide_eq_false_2.
  2:{ rewrite Exists_cons, Exists_cons, Exists_nil. lia. }
  assert (Hh : filter (λ d : Z, d = (-1)%Z) [-1; 1]%Z = [(-1)%Z]) by reflexivity.
  assert (Hk : filter (λ d : Z, d ≠ (-1)%Z) [-1; 1]%Z = [1%Z]) by reflexivity.
  rewrite Hh, Hk. cbn [length foldr].
  rewrite (bool_decide_eq_false_2 (1 < 1)%nat) by lia.
  rewrite (bool_decide_eq_true_2 (1 = 1)%nat) by lia.
  rewrite (bool_decide_eq_false_2 (1 * 1 = 0)%Z) by lia.
  rewrite bool_decide_eq_true_2 by (apply Z.mod_1_r).
  cbn [map]. rewrite bool_decide_eq_true_2 by reflexivity.
  rewrite bool_decide_eq_false_2 by lia.
  rewrite Z.div_1_r, Nat2Z.id. reflexivity.
Qed.

Lemma cross_entropy_ok (input : Tensor) (target : list nat) (c : nat) (red : torch.reduction) :
  shape input = [length target; c] →
  Forall (λ y, (y < c)%nat) target →
  torch.cross_entropy input target red =
    let lv := {| shape := [length target];
                 data := imap (λ i y, torch.nll_row (torch.block i c (data input)) y) target;
                 requires_grad := requires_grad input |} in
    Ok (match red with
        | torch.reduction_none => lv
        | torch.reduction_mean => torch.mean lv
        end).
Proof.
  intros Hs Hy. unfold torch.cross_entropy. rewrite Hs.
  rewrite bool_decide_eq_false_2 by (intros H; by apply H).
  rewrite bool_decide_eq_false_2.
  2:{ rewrite Exists_exists. intros (y & Hin & Hle).
      rewrite Forall_forall in Hy. specialize (Hy y Hin). lia. }
  by destruct red.
Qed.

(** The value of the reweighted branch of [Inner.training_step]. *)
Lemma training_step_weighted_value
    {InnerParams : Type}
    (ResNet32 : value → InnerParams → Tensor → result Tensor) (args : Args)
    (params : InnerParams) (outer_forward : Tensor → result Tensor)
    (inputs : Tensor) (labels : list nat) (outputs w : Tensor) (c : nat) :
  baseline args = false → retrain args = false →
  labels ≠ [] →
  Inner.forward ResNet32 args params inputs = Ok outputs →
  shape outputs = [length labels; c] →
  Forall (λ y, (y < c)%nat) labels →
  let l := imap (λ i y, torch.nll_row (torch.block i c (data outputs)) y) labels in
  outer_forward {| shape := [length labels; 1%nat]; data := l;
                   requires_grad := false |} = Ok w →
  shape w = [length labels; 1%nat] → length (data w) = length labels →
  Inner.training_step ResNet32 args params (Some outer_forward) (inputs, labels)
  = Ok (torch.scalar_tensor
          (torch.Rsum (zip_with Rmult (data w) l) / INR (length labels))
          (requires_grad w || requires_grad outputs)).
Proof.
  intros Hb Hr Hne Hfwd Hs Hy l Hw Hsw Hlw.
  unfold Inner.training_step. rewrite Hfwd. cbn [mbind result_bind].
  rewrite Hb, Hr. cbn [orb].
  rewrite (cross_entropy_ok _ _ c) by assumption. cbn [mbind result_bind].
  rewrite reshape_column. cbn [mbind result_bind getattr].
  unfold torch.numel, torch.detach. cbn [data shape requires_grad].
  rewrite length_imap. fold l. rewrite Hw. cbn [mbind result_bind].
  rewrite mul_same_shape.
  - cbn [mbind result_bind mret result_ret]. unfold torch.mean, torch.numel.
    cbn [data requires_grad]. rewrite length_zip_with, Hlw.
    unfold l at 2. rewrite length_imap, Nat.min_id. reflexivity.
  - assumption.
  - unfold wf. rewrite Hsw, Hlw. simpl. lia.
  - unfold wf. cbn [data shape]. unfold l. rewrite length_imap. simpl. lia.
Qed.


(** The sample networks on the sample batch. *)
Lemma sample_inner_step :
  Inner.training_step Sample.echo_net default_args tt
    (Some (Outer.forward Sample.half_net default_args tt)) Sample.batch2
  = Ok Sample.weighted_loss2.
Proof.
  apply (training_step_weighted_value Sample.echo_net default_args tt
           (Outer.forward Sample.half_net default_args tt)
           Sample.two_by_two [0; 1]%nat Sample.two_by_two
           {| shape := [2; 1]%nat; data := [1 / 2; 1 / 2];
              requires_grad := true |} 2);
    try reflexivity; [discriminate | repeat constructor].
Qed.

(** C1. Without [--baseline] and [--retrain], on a non-empty batch whose
    logits have shape [(N, C)] with all labels below [C], and with an outer
    network that answers a column of [N] losses by a column [w] of [N]
    weights, [Inner.training_step] returns the scalar
    [(w_1 * l_1 + ... + w_N * l_N) / N], where [l_i] is the unreduced cross
    entropy of row [i] of the inner network's output against label [i] and
    [w] is the output of the outer problem (the network built by
    [Outer.configure_module]) on the detached [(N, 1)] tensor of these
    losses. *)
Theorem Inner_training_step_reweighted
    {InnerParams OuterParams : Type}
    (ResNet32 : value → InnerParams → Tensor → result Tensor)
    (MLP : Z → Z → OuterParams → Tensor → result Tensor) (args : Args)
    (params : InnerParams) (outer_params : OuterParams)
    (inputs : Tensor) (labels : list nat) (outputs w : Tensor) (c : nat) :
  baseline args = false → retrain args = false →
  labels ≠ [] →
  Inner.forward ResNet32 args params inputs = Ok outputs →
  shape outputs = [length labels; c] →
  Forall (λ y, (y < c)%nat) labels →
  let l := imap (λ i y, nll_row (block i c (data outputs)) y) labels in
  MLP (meta_net_hidden_size args) (meta_net_num_layers args) outer_params
    {| shape := [length labels; 1%nat]; data := l; requires_grad := false |}
    = Ok w →
  shape w = [length labels; 1%nat] → length (data w) = length labels →
  Inner.training_step ResNet32 args params
    (Some (Outer.forward MLP args outer_params)) (inputs, labels)
  = Ok (scalar_tensor
          (Rsum (zip_with Rmult (data w) l) / INR (length labels))
          (requires_grad w || requires_grad outputs)).
Proof.
  intros Hb Hr Hne Hfwd Hs Hy l Hw Hsw Hlw.
  by apply training_step_weighted_value.
Qed.

Lemma Inner_training_step_reweighted_witness :
  Inner.training_step Sample.echo_net default_args tt
    (Some (Outer.forward Sample.half_net default_args tt)) Sample.batch2
  = Ok (scalar_tensor
          (Rsum (zip_with Rmult [1 / 2; 1 / 2]
                   (imap (λ i y, nll_row (block i 2 [1; 2; 3; 4]) y) [0; 1]%nat))
           / INR 2)
          true).
Proof.
  apply (Inner_training_step_reweighted Sample.echo_net Sample.half_net
           default_args tt tt
           Sample.two_by_two [0; 1]%nat Sample.two_by_two
           {| shape := [2; 1]%nat; data := [1 / 2; 1 / 2];
              requires_grad := true |} 2).
  - reflexivity.
  - reflexivity.
  - discriminate.
  - reflexivity.
  - reflexivity.
  - repeat constructor.
  - reflexivity.
  - reflexivity.
  - reflexivity.
Defined.

(** C4. Reweighting is off exactly when [--baseline] or [--retrain] is set:
    the engine is then built from the inner problem alone with empty
    [u2l] and [l2u] (and in no other case), and [Inner.training_step]
    returns the plain mean of the per-sample cross entropies whatever the
    attribute [self.outer] is, even when it is missing. *)
Theorem baseline_or_retrain_disables_reweighting
    {InnerParams : Type}
    (ResNet32 : value → InnerParams → Tensor → result Tensor) (args : Args) :
  (baseline args || retrain args = true ↔
     problems args = [inner] ∧ u2l args = ∅ ∧ l2u args = ∅) ∧
  (baseline args || retrain args = true →
     dependencies args = {[ "l2u" := ∅; "u2l" := ∅ ]}) ∧
  (baseline args || retrain args = true →
   ∀ (params : InnerParams) (outer : option (Tensor → result Tensor))
     (inputs : Tensor) (labels : list nat) (outputs : Tensor) (c : nat),
     labels ≠ [] →
     Inner.forward ResNet32 args params inputs = Ok outputs →
     shape outputs = [length labels; c] →
     Forall (λ y, (y < c)%nat) labels →
     Inner.training_step ResNet32 args params outer (inputs, labels)
     = cross_entropy outputs labels reduction_mean ∧
     cross_entropy outputs labels reduction_mean
     = Ok (scalar_tensor
             (Rsum (imap (λ i y, nll_row (block i c (data outputs)) y) labels)
              / INR (length labels))
             (requires_grad outputs))).
Proof.
  split; [|split].
  - unfold problems, u2l, l2u. destruct (baseline args || retrain args).
    + by split.
    + split; [discriminate|]. intros (H & _ & _). discriminate.
  - intros H. unfold dependencies, u2l, l2u. by rewrite H.
  - intros H params outer_attr inputs labels outputs c Hne Hfwd Hs Hy.
    unfold Inner.training_step. rewrite Hfwd. cbn [mbind result_bind].
    rewrite H. split; [reflexivity|].
    rewrite (cross_entropy_ok _ _ c) by assumption.
    cbn zeta. unfold mean, numel. cbn [data requires_grad].
    by rewrite length_imap.
Qed.

Lemma baseline_or_retrain_disables_reweighting_witness :
  problems (Sample.with_flags true false) = [inner] ∧
  Inner.training_step Sample.echo_net (Sample.with_flags true false) tt None
    Sample.batch2
  = Ok (scalar_tensor
          (Rsum (imap (λ i y, nll_row (block i 2 [1; 2; 3; 4]) y) [0; 1]%nat)
           / INR 2)
          false).
Proof.
  pose proof (baseline_or_retrain_disables_reweighting Sample.echo_net
                (Sample.with_flags true false)) as (Hiff & _ & Hstep).
  split.
  - apply Hiff. reflexivity.
  - destruct (Hstep eq_refl tt None Sample.two_by_two [0; 1]%nat
                Sample.two_by_two 2%nat) as [H1 H2].
    + discriminate.
    + reflexivity.
    + reflexivity.
    + repeat constructor.
    + exact (eq_trans H1 H2).
Defined.

(** ** The number of classes *)

(** C10. The argument [ResNet32] is built with depends on [--dataset]
    alone: [args.dataset == "cifar10" and 10 or 100] is the integer 10 when
    the dataset is "cifar10" and the integer 100 for every other string, so
    it is 10 exactly for "cifar10". *)
Theorem num_classes_by_dataset
    {InnerParams : Type}
    (ResNet32 : value → InnerParams → Tensor → result Tensor) (args : Args) :
  Inner.configure_module ResNet32 args = ResNet32 (Inner.num_classes args) ∧
  (dataset args = "cifar10" → Inner.num_classes args = Int 10) ∧
  (dataset args ≠ "cifar10" → Inner.num_classes args = Int 100) ∧
  (Inner.num_classes args = Int 10 ↔ dataset args = "cifar10").
Proof.
  unfold Inner.num_classes, str_eq.
  split; [reflexivity|].
  destruct (decide (dataset args = "cifar10")) as [Heq | Hne].
  - rewrite bool_decide_eq_true_2 by assumption. cbn.
    split; [done|]. split; [done|]. done.
  - rewrite bool_decide_eq_false_2 by assumption. cbn.
    split; [done|]. split; [done|]. split; [discriminate | done].
Qed.

Lemma num_classes_by_dataset_witness :
  Inner.num_classes default_args = Int 10 ∧
  Inner.num_classes
    {| device := "cuda"; precision := "fp32"; strategy := "default";
       rollback := false; baseline := false; retrain := false; seed := 1;
       local_rank := 0; meta_net_hidden_size := 100;
       meta_net_num_layers := 1; lr := 1 / 10; momentum := 9 / 10;
       dampening := 0; nesterov := false; weight_decay := 5 / 10000;
       meta_lr := 1 / 100000; meta_weight_decay := 0; dataset := "cifar100";
       subset_indices := None; num_meta := 1000; imbalanced_factor := None;
       corruption_type := None; corruption_ratio := 0; batch_size := 100;
       max_epoch := 120; meta_interval := 1; paint_interval := 20 |}
  = Int 100.
Proof.
  split.
  - apply (num_classes_by_dataset Sample.echo_net default_args). reflexivity.
  - apply (num_classes_by_dataset Sample.echo_net). discriminate.
Defined.

(** ** The dependency graph *)

Lemma dependencies_l2u (args : Args) :
  Engine.l2u (dependencies args) = l2u args.
Proof.
  unfold Engine.l2u, dependencies. by rewrite lookup_insert_eq.
Qed.

Lemma dependencies_u2l (args : Args) :
  Engine.u2l (dependencies args) = u2l args.
Proof.
  unfold Engine.u2l, dependencies.
  rewrite lookup_insert_ne by discriminate.
  by rewrite lookup_singleton_eq.
Qed.

Lemma meta_parents_inner (args : Args) :
  baseline args || retrain args = false →
  Engine.parents (dependencies args) inner = [outer].
Proof.
  intros H. unfold Engine.parents. rewrite dependencies_l2u.
  unfold l2u. rewrite H. by rewrite lookup_singleton_eq.
Qed.

Lemma meta_parents_outer (args : Args) :
  Engine.parents (dependencies args) outer = [].
Proof.
  unfold Engine.parents. rewrite dependencies_l2u. unfold l2u.
  destruct (baseline args || retrain args).
  - by rewrite lookup_empty.
  - by rewrite lookup_singleton_ne.
Qed.

Lemma baseline_parents (args : Args) (p : problem) :
  baseline args || retrain args = true →
  Engine.parents (dependencies args) p = [].
Proof.
  intros H. unfold Engine.parents. rewrite dependencies_l2u.
  unfold l2u. rewrite H. by rewrite lookup_empty.
Qed.

Lemma leaves_inner (args : Args) :
  Engine.leaves (problems args) (dependencies args) = [inner].
Proof.
  unfold Engine.leaves, Engine.is_leaf, problems. rewrite dependencies_l2u.
  unfold l2u. destruct (baseline args || retrain args).
  - rewrite map_to_list_empty. reflexivity.
  - rewrite map_to_list_singleton. reflexivity.
Qed.

(** C5. Without [--baseline] and [--retrain] the graph handed to the
    engine is mutual: [u2l] has the single key [outer], sent to the list
    [[inner]], and [l2u] has the single key [inner], sent to [[outer]];
    both problems are given to the engine.  For the engine this makes the
    inner problem the only leaf and the outer problem its only parent. *)
Theorem meta_mode_dependencies (args : Args) :
  baseline args = false → retrain args = false →
  problems args = [outer; inner] ∧
  u2l args = {[ outer := [inner] ]} ∧
  l2u args = {[ inner := [outer] ]} ∧
  dependencies args !! "u2l" = Some (u2l args) ∧
  dependencies args !! "l2u" = Some (l2u args) ∧
  u2l args !! outer = Some [inner] ∧ u2l args !! inner = None ∧
  l2u args !! inner = Some [outer] ∧ l2u args !! outer = None ∧
  Engine.leaves (problems args) (dependencies args) = [inner] ∧
  Engine.parents (dependencies args) inner = [outer] ∧
  Engine.parents (dependencies args) outer = [].
Proof.
  intros Hb Hr.
  assert (H : baseline args || retrain args = false) by (by rewrite Hb, Hr).
  split_and!.
  - unfold problems. by rewrite H.
  - unfold u2l. by rewrite H.
  - unfold l2u. by rewrite H.
  - unfold dependencies. rewrite lookup_insert_ne by discriminate.
    by rewrite lookup_singleton_eq.
  - unfold dependencies. by rewrite lookup_insert_eq.
  - unfold u2l. rewrite H. by rewrite lookup_singleton_eq.
  - unfold u2l. rewrite H. by rewrite lookup_singleton_ne.
  - unfold l2u. rewrite H. by rewrite lookup_singleton_eq.
  - unfold l2u. rewrite H. by rewrite lookup_singleton_ne.
  - apply leaves_inner.
  - by apply meta_parents_inner.
  - apply meta_parents_outer.
Qed.

Lemma meta_mode_dependencies_witness :
  problems default_args = [outer; inner] ∧
  u2l default_args = {[ outer := [inner] ]} ∧
  l2u default_args = {[ inner := [outer] ]}.
Proof.
  destruct (meta_mode_dependencies default_args eq_refl eq_refl)
    as (H1 & H2 & H3 & _).
  exact (conj H1 (conj H2 H3)).
Defined.

(** ** The learning-rate schedule *)

Lemma occurrences_notin (k : Z) (ms : list Z) :
  k ∉ ms → optim.occurrences k ms = 0%nat.
Proof.
  unfold optim.occurrences. induction ms as [|m ms IH]; intros Hk; [reflexivity|].
  rewrite not_elem_of_cons in Hk. destruct Hk as [Hne Hk].
  rewrite filter_cons_False by congruence. auto.
Qed.

Lemma milestones_reached_succ (ms : list Z) (t : Z) :
  (-1 ≤ t)%Z →
  milestones_reached ms (t + 1) =
    (milestones_reached ms t + optim.occurrences (t + 1) ms)%nat.
Proof.
  intros Ht. unfold milestones_reached, optim.occurrences.
  induction ms as [|m ms IH]; [reflexivity|].
  rewrite !filter_cons. repeat case_decide; cbn [length]; lia.
Qed.

Lemma milestones_reached_mono (ms : list Z) (t1 t2 : Z) :
  (t1 ≤ t2)%Z → (milestones_reached ms t1 ≤ milestones_reached ms t2)%nat.
Proof.
  intros Ht. unfold milestones_reached.
  induction ms as [|m ms IH]; [reflexivity|].
  rewrite !filter_cons. repeat case_decide; cbn [length]; lia.
Qed.

(** One scheduler step multiplies the rate by [gamma] once per milestone
    equal to the new step count. *)
Lemma scheduler_step_lr (o : optim.SGD) (sch : optim.MultiStepLR) :
  let st := optim.scheduler_step (o, sch) in
  optim.sgd_lr st.1 =
    optim.sgd_lr o *
    optim.gamma sch ^ optim.occurrences (optim.last_epoch sch + 1) (optim.milestones sch)
  ∧ optim.last_epoch st.2 = (optim.last_epoch sch + 1)%Z
  ∧ optim.milestones st.2 = optim.milestones sch
  ∧ optim.gamma st.2 = optim.gamma sch.
Proof.
  cbn. unfold optim.get_lr. cbn. split; [|done].
  case_bool_decide as Hin; [reflexivity|].
  rewrite occurrences_notin by assumption. cbn. lra.
Qed.

(** Closed form of the rate: the initial rate times [gamma] to the number
    of milestones reached. *)
Lemma multistep_closed_form (o : optim.SGD) (ms : list Z) (g : R) (t : nat) :
  let st := Nat.iter t optim.scheduler_step (optim.new_MultiStepLR o ms g) in
  optim.sgd_lr st.1 = optim.sgd_lr o * g ^ milestones_reached ms (Z.of_nat t)
  ∧ optim.last_epoch st.2 = Z.of_nat t
  ∧ optim.milestones st.2 = ms
  ∧ optim.gamma st.2 = g.
Proof.
  induction t as [|t IH].
  - cbv zeta. cbn [Nat.iter nat_rect]. unfold optim.new_MultiStepLR.
    destruct (scheduler_step_lr o
                {| optim.milestones := ms; optim.gamma := g;
                   optim.last_epoch := -1 |}) as (H1 & H2 & H3 & H4).
    cbn [optim.last_epoch optim.milestones optim.gamma] in *.
    rewrite H1, H2, H3, H4. split_and!; try done.
    f_equal. f_equal.
    change ((-1 + 1)%Z) with (0%Z).
    unfold milestones_reached, optim.occurrences. f_equal.
    apply list_filter_iff. intros m. simpl. lia.
  - cbv zeta in *. rewrite !Nat.iter_succ. destruct IH as (H1 & H2 & H3 & H4).
    destruct (Nat.iter t optim.scheduler_step (optim.new_MultiStepLR o ms g))
      as [o' sch'] eqn:Hst.
    destruct (scheduler_step_lr o' sch') as (K1 & K2 & K3 & K4).
    cbn [fst snd] in *. rewrite K1, K2, K3, K4, H1, H2, H3, H4.
    split_and!; try done; [|lia].
    rewrite Nat2Z.inj_succ, <- Z.add_1_r.
    rewrite milestones_reached_succ by lia.
    rewrite pow_add. lra.
Qed.

Lemma pow_le_anti (g : R) (k1 k2 : nat) :
  0 <= g <= 1 → (k1 ≤ k2)%nat → g ^ k2 <= g ^ k1.
Proof.
  intros Hg Hk. induction Hk as [|k2 Hk IH]; [lra|].
  cbn [pow]. assert (0 <= g ^ k2) by (apply pow_le; lra). nra.
Qed.

Lemma new_SGD_ok (lr momentum dampening weight_decay : R) (nesterov : bool) (o : optim.SGD) :
  optim.new_SGD lr momentum dampening weight_decay nesterov = Ok o →
  o = {| optim.sgd_lr := lr; optim.sgd_momentum := momentum;
         optim.sgd_dampening := dampening;
         optim.sgd_weight_decay := weight_decay;
         optim.sgd_nesterov := nesterov |}
  ∧ 0 <= lr ∧ 0 <= momentum ∧ 0 <= weight_decay.
Proof.
  unfold optim.new_SGD. repeat case_bool_decide; try discriminate;
    destruct (nesterov && _); try discriminate;
    intros [= <-]; split_and!; try reflexivity; lra.
Qed.

(** C7. The inner optimizer is SGD with [--lr], [--momentum],
    [--dampening], [--weight_decay] and [--nesterov]; once it is built
    (the constructor refuses a negative rate), the rate after [t] scheduler
    steps is [--lr] times 0.1 to the number of milestones among 10000 and
    13000 that [t] has reached: [--lr] before step 10000, a tenth of it
    from step 10000, a hundredth from step 13000; so it never increases. *)
Theorem inner_optimizer_and_schedule (args : Args) (optimizer : optim.SGD) :
  Inner.configure_optimizer args = Ok optimizer →
  optimizer = {| optim.sgd_lr := lr args; optim.sgd_momentum := momentum args;
                 optim.sgd_dampening := dampening args;
                 optim.sgd_weight_decay := weight_decay args;
                 optim.sgd_nesterov := nesterov args |} ∧
  (∀ t : nat,
     lr_schedule optimizer t =
       lr args * (1 / 10) ^ milestones_reached [10000; 13000]%Z (Z.of_nat t)) ∧
  (∀ t : nat, (Z.of_nat t < 10000)%Z → lr_schedule optimizer t = lr args) ∧
  (∀ t : nat, (10000 ≤ Z.of_nat t < 13000)%Z →
     lr_schedule optimizer t = lr args * (1 / 10)) ∧
  (∀ t : nat, (13000 ≤ Z.of_nat t)%Z →
     lr_schedule optimizer t = lr args * (1 / 10) * (1 / 10)) ∧
  (∀ t1 t2 : nat, (t1 ≤ t2)%nat →
     lr_schedule optimizer t2 <= lr_schedule optimizer t1).
Proof.
  intros Hopt. apply new_SGD_ok in Hopt as (-> & Hlr & _ & _).
  assert (Hform : ∀ t : nat,
    lr_schedule
      {| optim.sgd_lr := lr args; optim.sgd_momentum := momentum args;
         optim.sgd_dampening := dampening args;
         optim.sgd_weight_decay := weight_decay args;
         optim.sgd_nesterov := nesterov args |} t =
    lr args * (1 / 10) ^ milestones_reached [10000; 13000]%Z (Z.of_nat t)).
  { intros t. unfold lr_schedule, Inner.configure_scheduler.
    by destruct (multistep_closed_form
                   {| optim.sgd_lr := lr args; optim.sgd_momentum := momentum args;
                      optim.sgd_dampening := dampening args;
                      optim.sgd_weight_decay := weight_decay args;
                      optim.sgd_nesterov := nesterov args |}
                   [10000; 13000]%Z (1 / 10) t) as (H & _). }
  split_and!; [reflexivity | exact Hform | | | |].
  - intros t Ht. rewrite Hform. unfold milestones_reached.
    rewrite !filter_cons. repeat case_decide; try lia. cbn. lra.
  - intros t Ht. rewrite Hform. unfold milestones_reached.
    rewrite !filter_cons. repeat case_decide; try lia. cbn. lra.
  - intros t Ht. rewrite Hform. unfold milestones_reached.
    rewrite !filter_cons. repeat case_decide; try lia. cbn. lra.
  - intros t1 t2 Ht. rewrite !Hform.
    apply Rmult_le_compat_l; [assumption|].
    apply pow_le_anti; [lra|]. apply milestones_reached_mono. lia.
Qed.

Lemma inner_optimizer_and_schedule_witness :
  lr_schedule
    {| optim.sgd_lr := 1 / 10; optim.sgd_momentum := 9 / 10;
       optim.sgd_dampening := 0; optim.sgd_weight_decay := 5 / 10000;
       optim.sgd_nesterov := false |} (Z.to_nat 9999) = 1 / 10 ∧
  lr_schedule
    {| optim.sgd_lr := 1 / 10; optim.sgd_momentum := 9 / 10;
       optim.sgd_dampening := 0; optim.sgd_weight_decay := 5 / 10000;
       optim.sgd_nesterov := false |} (Z.to_nat 10000) = 1 / 10 * (1 / 10) ∧
  lr_schedule
    {| optim.sgd_lr := 1 / 10; optim.sgd_momentum := 9 / 10;
       optim.sgd_dampening := 0; optim.sgd_weight_decay := 5 / 10000;
       optim.sgd_nesterov := false |} (Z.to_nat 13000) = 1 / 10 * (1 / 10) * (1 / 10).
Proof.
  destruct (inner_optimizer_and_schedule default_args
              {| optim.sgd_lr := 1 / 10; optim.sgd_momentum := 9 / 10;
                 optim.sgd_dampening := 0; optim.sgd_weight_decay := 5 / 10000;
                 optim.sgd_nesterov := false |})
    as (_ & _ & Hlow & Hmid & Hhigh & _).
  - unfold Inner.configure_optimizer, optim.new_SGD. cbn.
    rewrite !bool_decide_eq_false_2 by lra. reflexivity.
  - split_and!.
    + apply Hlow. rewrite Z2Nat.id; lia.
    + apply Hmid. rewrite Z2Nat.id; lia.
    + apply Hhigh. rewrite Z2Nat.id; lia.
Defined.

(** ** One step of the engine *)

Lemma mod_1 (a : Z) : mod_ a 1 = Ok 0%Z.
Proof.
  unfold mod_. rewrite bool_decide_eq_false_2 by lia. by rewrite Z.mod_1_r.
Qed.

Lemma attr_in {A : Type} (ps : list problem) (q : problem) (x : A) :
  q ∈ ps → attr ps q x = Some x.
Proof. intros H. unfold attr. by rewrite bool_decide_eq_true_2. Qed.

Lemma attr_notin {A : Type} (ps : list problem) (q : problem) (x : A) :
  q ∉ ps → attr ps q x = None.
Proof. intros H. unfold attr. by rewrite bool_decide_eq_false_2. Qed.

Lemma attr_inner {A : Type} (args : Args) (x : A) :
  attr (problems args) inner x = Some x.
Proof.
  apply attr_in. unfold problems.
  destruct (baseline args || retrain args); set_solver.
Qed.

Lemma attr_outer_meta {A : Type} (args : Args) (x : A) :
  baseline args || retrain args = false →
  attr (problems args) outer x = Some x.
Proof.
  intros H. apply attr_in. unfold problems. rewrite H. set_solver.
Qed.

(** The mean cross entropy and the accuracy [Outer.training_step] returns
    on a well-shaped batch. *)
Lemma Outer_training_step_ok
    (inner_forward : Tensor → result Tensor)
    (inputs : Tensor) (labels : list nat) (outputs : Tensor) (c : nat) :
  labels ≠ [] →
  inner_forward inputs = Ok outputs →
  shape outputs = [length labels; c] →
  Forall (λ y, (y < c)%nat) labels →
  Outer.training_step (Some inner_forward) (inputs, labels) =
    Ok {| Outer.loss :=
            scalar_tensor
              (Rsum (imap (λ i y, nll_row (block i c (data outputs)) y) labels)
               / INR (length labels))
              (requires_grad outputs);
          Outer.acc :=
            Outer.hit_rate
              (map (λ i, argmax_row (block i c (data outputs)))
                 (seq 0 (length labels)))
              labels * 100 |}.
Proof.
  intros Hne Hfwd Hs Hy. unfold Outer.training_step.
  cbn [getattr mbind result_bind]. rewrite Hfwd. cbn [mbind result_bind].
  rewrite (cross_entropy_ok _ _ c) by assumption. cbn [mbind result_bind].
  unfold argmax_dim1. rewrite Hs.
  rewrite bool_decide_eq_false_2.
  2:{ intros ->. destruct labels as [|y ?]; [done|].
      apply Forall_cons in Hy as [Hy _]. lia. }
  cbn [mbind result_bind mret result_ret]. unfold mean, numel.
  cbn [data requires_grad]. by rewrite length_imap.
Qed.

Section Step.
Context {InnerParams OuterParams InnerBuf OuterBuf : Type}.
Variable ResNet32 : value → InnerParams → Tensor → result Tensor.
Variable MLP : Z → Z → OuterParams → Tensor → result Tensor.
Variable sgd_update :
  optim.SGD → (InnerParams → result Tensor) → InnerParams → InnerBuf →
  InnerParams * InnerBuf.
Variable adam_update :
  optim.Adam → (OuterParams → result Tensor) → OuterParams → OuterBuf →
  OuterParams * OuterBuf.
Variable darts_points :
  (InnerParams → result Tensor) → InnerParams → InnerParams * InnerParams.
Variable args : Args.
Variable train_dataloader meta_dataloader : nat → Batch.

Lemma inner_descent_ok
    (s : Problems InnerParams OuterParams InnerBuf OuterBuf) (loss : Tensor) :
  Inner.training_step ResNet32 args (inner_params s)
    (attr (problems args) outer (Outer.forward MLP args (outer_params s)))
    (train_dataloader (inner_drawn s)) = Ok loss →
  ∃ s1 u,
    Engine.inner_descent ResNet32 MLP args train_dataloader sgd_update
      (problems args) s = Ok (s1, u) ∧
    inner_params s1 =
      updated_inner_params ResNet32 MLP sgd_update args train_dataloader s ∧
    inner_count s1 = (inner_count s + 1)%Z ∧
    outer_params s1 = outer_params s ∧ outer_buf s1 = outer_buf s ∧
    outer_optimizer s1 = outer_optimizer s ∧
    outer_count s1 = outer_count s ∧ outer_drawn s1 = outer_drawn s ∧
    inner_optimizer s1 =
      (optim.scheduler_step (inner_optimizer s, inner_scheduler s)).1 ∧
    inner_scheduler s1 =
      (optim.scheduler_step (inner_optimizer s, inner_scheduler s)).2 ∧
    calls s1 = calls s ++
      [inner_training_step (inner_params s)
         (train_dataloader (inner_drawn s)) loss] ∧
    inner_drawn s1 = S (inner_drawn s).
Proof.
  intros Hloss. unfold Engine.inner_descent, Inner.configure_train_data_loader.
  rewrite Hloss. cbn [mbind result_bind].
  unfold updated_inner_params.
  destruct (sgd_update _ _ _ _) as [θ' buf'] eqn:Hupd.
  destruct (optim.scheduler_step _) as [o' sch'] eqn:Hsch.
  eexists _, _. split; [reflexivity|]. cbn. split_and!; reflexivity.
Qed.

Lemma meta_children :
  baseline args || retrain args = false →
  default [] (Engine.u2l (dependencies args) !! outer) = [inner].
Proof.
  intros H. rewrite dependencies_u2l. unfold u2l. rewrite H.
  by rewrite lookup_singleton_eq.
Qed.

Lemma outer_descent_ok (u : OuterParams → InnerParams)
    (s : Problems InnerParams OuterParams InnerBuf OuterBuf)
    (out : Outer.step_output) (adam : optim.Adam) (n : nat)
    (loss_p loss_n : Tensor) :
  baseline args || retrain args = false →
  Outer.training_step
    (attr (problems args) inner (Inner.forward ResNet32 args (inner_params s)))
    (meta_dataloader (outer_drawn s)) = Ok out →
  outer_optimizer s = Some adam →
  inner_drawn s = S n →
  let points :=
    darts_points (meta_loss ResNet32 args meta_dataloader s) (inner_params s) in
  Inner.training_step ResNet32 args points.1
    (Some (Outer.forward MLP args (outer_params s))) (train_dataloader n)
    = Ok loss_p →
  Inner.training_step ResNet32 args points.2
    (Some (Outer.forward MLP args (outer_params s))) (train_dataloader n)
    = Ok loss_n →
  ∃ s2,
    Engine.outer_descent ResNet32 MLP args train_dataloader meta_dataloader
      adam_update darts_points (problems args) (dependencies args) u s
      = Ok s2 ∧
    inner_params s2 = inner_params s ∧
    inner_optimizer s2 = inner_optimizer s ∧
    inner_scheduler s2 = inner_scheduler s ∧
    inner_count s2 = inner_count s ∧
    outer_count s2 = (outer_count s + 1)%Z ∧
    outer_optimizer s2 = outer_optimizer s ∧
    calls s2 = calls s ++
      [outer_training_step (inner_params s)
         (meta_dataloader (outer_drawn s)) out;
       inner_training_step points.1 (train_dataloader n) loss_p;
       inner_training_step points.2 (train_dataloader n) loss_n].
Proof.
  intros Hmode Hout Hopt Hdrawn points Hp Hn.
  unfold Engine.outer_descent, Outer.configure_train_data_loader.
  rewrite Hout. cbn [mbind result_bind].
  unfold Engine.darts, Engine.inner_cur_batch.
  rewrite meta_children by assumption.
  rewrite bool_decide_eq_true_2 by (apply list_elem_of_singleton; reflexivity).
  rewrite Hdrawn. unfold Inner.configure_train_data_loader.
  cbn [mbind result_bind mret result_ret].
  rewrite attr_outer_meta by assumption.
  fold (meta_loss ResNet32 args meta_dataloader s). fold points.
  rewrite Hp. cbn [mbind result_bind]. rewrite Hn. cbn [mbind result_bind].
  rewrite Hopt. cbn [mbind result_bind getattr].
  destruct (adam_update _ _ _ _) as [φ' buf'].
  eexists. split; [reflexivity|]. cbn. split_and!; reflexivity.
Qed.

(** In meta-learning mode one [step_normal] of the inner problem is its
    own descent followed by the outer problem's descent. *)
Lemma meta_loss_drawn
    (s s1 : Problems InnerParams OuterParams InnerBuf OuterBuf) :
  outer_drawn s1 = outer_drawn s →
  meta_loss ResNet32 args meta_dataloader s1
    = meta_loss ResNet32 args meta_dataloader s.
Proof. intros H. unfold meta_loss. by rewrite H. Qed.

Lemma step_normal_meta
    (s : Problems InnerParams OuterParams InnerBuf OuterBuf)
    (u0 : OuterParams → InnerParams)
    (loss : Tensor) (out : Outer.step_output) (adam : optim.Adam)
    (loss_p loss_n : Tensor) :
  baseline args || retrain args = false →
  Inner.training_step ResNet32 args (inner_params s)
    (Some (Outer.forward MLP args (outer_params s)))
    (train_dataloader (inner_drawn s)) = Ok loss →
  Outer.training_step
    (Some (Inner.forward ResNet32 args
             (updated_inner_params ResNet32 MLP sgd_update args train_dataloader s)))
    (meta_dataloader (outer_drawn s)) = Ok out →
  outer_optimizer s = Some adam →
  let points :=
    hypergradient_points ResNet32 MLP sgd_update darts_points args
      train_dataloader meta_dataloader s in
  Inner.training_step ResNet32 args points.1
    (Some (Outer.forward MLP args (outer_params s)))
    (train_dataloader (inner_drawn s)) = Ok loss_p →
  Inner.training_step ResNet32 args points.2
    (Some (Outer.forward MLP args (outer_params s)))
    (train_dataloader (inner_drawn s)) = Ok loss_n →
  ∃ s',
    engine_step_normal ResNet32 MLP sgd_update adam_update darts_points args
      train_dataloader meta_dataloader inner u0 s = Ok s' ∧
    inner_params s' =
      updated_inner_params ResNet32 MLP sgd_update args train_dataloader s ∧
    outer_optimizer s' = outer_optimizer s ∧
    calls s' = calls s ++
      [inner_training_step (inner_params s)
         (train_dataloader (inner_drawn s)) loss;
       outer_training_step
         (updated_inner_params ResNet32 MLP sgd_update args train_dataloader s)
         (meta_dataloader (outer_drawn s)) out;
       inner_training_step points.1 (train_dataloader (inner_drawn s)) loss_p;
       inner_training_step points.2 (train_dataloader (inner_drawn s)) loss_n].
Proof.
  intros Hmode Hloss Hout Hopt points Hp Hn.
  destruct (inner_descent_ok s loss)
    as (s1 & u & Hd & Hθ & Hc & Hφ & Hb & Ho & Hoc & Hod & _ & _ & Hcalls & Hdrawn).
  { by rewrite attr_outer_meta. }
  assert (Hpoints :
    darts_points (meta_loss ResNet32 args meta_dataloader s1) (inner_params s1)
    = points).
  { by rewrite (meta_loss_drawn s s1 Hod), Hθ. }
  destruct (outer_descent_ok u s1 out adam (inner_drawn s) loss_p loss_n)
    as (s2 & Hd2 & Hθ2 & _ & _ & _ & Hc2 & Ho2 & Hcalls2).
  { assumption. }
  { rewrite attr_inner, Hθ, Hod. exact Hout. }
  { by rewrite Ho. }
  { exact Hdrawn. }
  { rewrite Hpoints, Hφ. exact Hp. }
  { rewrite Hpoints, Hφ. exact Hn. }
  exists s2. split_and!.
  - unfold engine_step_normal.
    change Engine.recursion_limit with (S (S 998)).
    cbn [Engine.step_normal]. rewrite Hd. cbn [mbind result_bind mret result_ret].
    cbn [Engine.config inner_config outer_config betty.unroll_steps].
    rewrite mod_1. cbn [mbind result_bind].
    rewrite bool_decide_eq_true_2 by reflexivity.
    rewrite meta_parents_inner by assumption.
    cbn [for_each]. rewrite Hd2. cbn [mbind result_bind mret result_ret].
    rewrite mod_1. cbn [mbind result_bind].
    rewrite bool_decide_eq_true_2 by reflexivity.
    rewrite meta_parents_outer. reflexivity.
  - by rewrite Hθ2.
  - by rewrite Ho2.
  - rewrite Hcalls2, Hcalls, Hpoints, Hθ, Hod, <- app_assoc. reflexivity.
Qed.

(** With [--baseline] or [--retrain] one [step_normal] of the inner problem
    is its own descent and nothing else. *)
Lemma step_normal_baseline
    (s : Problems InnerParams OuterParams InnerBuf OuterBuf)
    (u0 : OuterParams → InnerParams) (loss : Tensor) :
  baseline args || retrain args = true →
  Inner.training_step ResNet32 args (inner_params s) None
    (train_dataloader (inner_drawn s)) = Ok loss →
  ∃ s',
    engine_step_normal ResNet32 MLP sgd_update adam_update darts_points args
      train_dataloader meta_dataloader inner u0 s = Ok s' ∧
    outer_params s' = outer_params s ∧ outer_count s' = outer_count s ∧
    calls s' = calls s ++
      [inner_training_step (inner_params s)
         (train_dataloader (inner_drawn s)) loss].
Proof.
  intros Hmode Hloss.
  destruct (inner_descent_ok s loss)
    as (s1 & u & Hd & Hθ & Hc & Hφ & Hb & Ho & Hoc & Hod & _ & _ & Hcalls & _).
  { rewrite attr_notin; [assumption|].
    unfold problems. rewrite Hmode.
    rewrite not_elem_of_cons. split; [discriminate | apply not_elem_of_nil]. }
  exists s1. split_and!; try assumption.
  unfold engine_step_normal.
  change Engine.recursion_limit with (S 999).
  cbn [Engine.step_normal]. rewrite Hd. cbn [mbind result_bind mret result_ret].
  cbn [Engine.config inner_config betty.unroll_steps].
  rewrite mod_1. cbn [mbind result_bind].
  rewrite bool_decide_eq_true_2 by reflexivity.
  rewrite baseline_parents by assumption. reflexivity.
Qed.
End Step.

Lemma new_Adam_ok (lr weight_decay : R) :
  0 <= lr → 0 <= weight_decay →
  optim.new_Adam lr weight_decay =
    Ok {| optim.adam_lr := lr; optim.adam_weight_decay := weight_decay |}.
Proof.
  intros Hlr Hwd. unfold optim.new_Adam.
  by rewrite !bool_decide_eq_false_2 by lra.
Qed.



(** ** The run *)

Lemma for_each_invariant {A S : Type} (I : S → Prop) (xs : list A)
    (body : A → S → result S) (s : S) :
  I s →
  (∀ x s0, I s0 → ∃ s1, body x s0 = Ok s1 ∧ I s1) →
  ∃ s', for_each xs body s = Ok s' ∧ I s'.
Proof.
  intros Hs Hbody. revert s Hs.
  induction xs as [|x xs IH]; intros s Hs; cbn; [eauto|].
  destruct (Hbody x s Hs) as (s1 & -> & H1). cbn. by apply IH.
Qed.

Lemma validated_steps_shift (every g : Z) (its : list Z) :
  validated_steps every g its = map (Z.add g) (validated_steps every 0 its).
Proof.
  revert g. induction its as [|it its IH]; intros g; [reflexivity|].
  cbn [validated_steps]. rewrite (IH (g + 1)%Z), (IH (0 + 1)%Z).
  rewrite map_app, map_map.
  f_equal.
  - case_bool_decide; cbn; [f_equal; lia | reflexivity].
  - apply map_ext. intros k. lia.
Qed.

Lemma validated_steps_script (g : Z) :
  validated_steps 500 g (range 1 (15000 + 1)) =
    map (λ k, (g + 500 * k)%Z) (range 1 31).
Proof.
  rewrite validated_steps_shift.
  assert (H : validated_steps 500 0 (range 1 (15000 + 1)) =
              map (Z.mul 500) (range 1 31)) by (vm_compute; reflexivity).
  rewrite H, map_map. reflexivity.
Qed.

Lemma length_count_from (a : Z) (n : nat) : length (count_from a n) = n.
Proof. revert a. induction n as [|n IH]; intros a; cbn; [done|]. by rewrite IH. Qed.

Lemma length_range_script : length (range 1 (15000 + 1)) = Z.to_nat 15000.
Proof. unfold range. rewrite length_count_from. reflexivity. Qed.

Lemma foldl_Rmax_ge (b : R) (xs : list R) :
  b <= foldl Rmax b xs ∧ Forall (λ x, x <= foldl Rmax b xs) xs.
Proof.
  revert b. induction xs as [|x xs IH]; intros b; cbn.
  - split; [lra | constructor].
  - destruct (IH (Rmax b x)) as [H1 H2].
    pose proof (Rmax_l b x). pose proof (Rmax_r b x).
    split; [lra|]. constructor; [lra | assumption].
Qed.

Lemma foldl_Rmax_in (b : R) (xs : list R) :
  foldl Rmax b xs = b ∨ foldl Rmax b xs ∈ xs.
Proof.
  revert b. induction xs as [|x xs IH]; intros b; cbn; [by left|].
  destruct (IH (Rmax b x)) as [H | H].
  - rewrite H. unfold Rmax. destruct (Rle_dec b x); [right; left | by left].
  - right. by right.
Qed.

(** Started below every entry of a non-empty list, the running maximum
    ends at the largest entry. *)
Lemma foldl_Rmax_is_max (b : R) (xs : list R) :
  xs ≠ [] → Forall (λ x, b < x) xs →
  foldl Rmax b xs ∈ xs ∧ ∀ x, x ∈ xs → x <= foldl Rmax b xs.
Proof.
  intros Hne Hb. destruct (foldl_Rmax_ge b xs) as [_ Hall].
  split.
  - destruct (foldl_Rmax_in b xs) as [Heq | Hin]; [|assumption].
    destruct xs as [|x xs]; [done|].
    apply Forall_cons in Hb as [Hbx _]. apply Forall_cons in Hall as [Hx _].
    lra.
  - intros x Hx. rewrite Forall_forall in Hall. by apply Hall.
Qed.

Lemma running_max_mono (b : R) (xs : list R) (i : nat) (m1 m2 : R) :
  running_max b xs !! i = Some m1 → running_max b xs !! S i = Some m2 → m1 <= m2.
Proof.
  revert b i. induction xs as [|x xs IH]; intros b i; [done|].
  cbn [running_max]. destruct i as [|i].
  - cbn. intros [= <-]. destruct xs as [|y xs]; [done|].
    cbn. intros [= <-]. apply Rmax_l.
  - cbn. apply IH.
Qed.

Lemma for_each_app {A S : Type} (xs ys : list A) (body : A → S → result S) (s : S) :
  for_each (xs ++ ys) body s = (s' ← for_each xs body s; for_each ys body s').
Proof.
  revert s. induction xs as [|x xs IH]; intros s; cbn; [reflexivity|].
  destruct (body x s); cbn; auto.
Qed.

Lemma for_each_total {A S : Type} (xs : list A) (body : A → S → result S) (s : S) :
  (∀ x s0, ∃ s1, body x s0 = Ok s1) → ∃ s', for_each xs body s = Ok s'.
Proof.
  intros Hbody. revert s. induction xs as [|x xs IH]; intros s; cbn; [eauto|].
  destruct (Hbody x s) as [s1 ->]. cbn. apply IH.
Qed.

Lemma eq_sum_nonneg (pred target : list nat) (h : Z) :
  eq_sum pred target = Ok h → (0 ≤ h)%Z.
Proof.
  unfold eq_sum. case_bool_decide.
  - intros [= <-]. lia.
  - destruct pred as [|p [|]], target as [|y [|]]; intros [= <-] || discriminate; lia.
Qed.

Section Run.
Context {InnerParams OuterParams InnerBuf OuterBuf : Type}.
Variable ResNet32 : value → InnerParams → Tensor → result Tensor.
Variable MLP : Z → Z → OuterParams → Tensor → result Tensor.
Variable sgd_update :
  optim.SGD → (InnerParams → result Tensor) → InnerParams → InnerBuf →
  InnerParams * InnerBuf.
Variable adam_update :
  optim.Adam → (OuterParams → result Tensor) → OuterParams → OuterBuf →
  OuterParams * OuterBuf.
Variable darts_points :
  (InnerParams → result Tensor) → InnerParams → InnerParams * InnerParams.
Variable step_after_roll_back :
  Problems InnerParams OuterParams InnerBuf OuterBuf →
  result (Problems InnerParams OuterParams InnerBuf OuterBuf).
Variable args : Args.
Variable train_dataloader meta_dataloader : nat → Batch.
Variable test_dataloader : list Batch.

Abbreviation World := (World InnerParams OuterParams InnerBuf OuterBuf).

Lemma test_batch_mono (f : Tensor → result Tensor) (b : Batch) (c0 t0 c t : Z) :
  ReweightingEngine.test_batch f b (c0, t0) = Ok (c, t) → (c0 ≤ c)%Z ∧ (t0 ≤ t)%Z.
Proof.
  unfold ReweightingEngine.test_batch. destruct b as [x target].
  destruct (f x) as [out|]; [|discriminate]. cbn [mbind result_bind].
  destruct (argmax_dim1 out) as [pred|]; [|discriminate]. cbn [mbind result_bind].
  destruct (eq_sum pred target) as [h|] eqn:Hh; [|discriminate]. cbn [mbind result_bind].
  destruct (size x 0) as [n|]; [|discriminate]. cbn.
  intros [= <- <-]. apply eq_sum_nonneg in Hh. lia.
Qed.

Lemma test_loop_mono (f : Tensor → result Tensor) (bs : list Batch) (c0 t0 c t : Z) :
  for_each bs (ReweightingEngine.test_batch f) (c0, t0) = Ok (c, t) →
  (c0 ≤ c)%Z ∧ (t0 ≤ t)%Z.
Proof.
  revert c0 t0. induction bs as [|b bs IH]; intros c0 t0; cbn.
  - intros [= <- <-]. lia.
  - destruct (ReweightingEngine.test_batch f b (c0, t0)) as [[c1 t1]|] eqn:Hb;
      [|discriminate].
    cbn. intros Hrest. apply test_batch_mono in Hb. apply IH in Hrest. lia.
Qed.

(** What one call of [validation] does to the world. *)
Lemma validation_spec (w w' : World) (acc best : R) :
  ReweightingEngine.validation ResNet32 args test_dataloader (problems args) w
    = Ok (w', (acc, best)) →
  ∃ correct total : Z,
    for_each test_dataloader
      (ReweightingEngine.test_batch
         (Inner.forward ResNet32 args (inner_params (state w)))) (0%Z, 0%Z)
      = Ok (correct, total) ∧
    (0 ≤ correct)%Z ∧ (0 < total)%Z ∧
    acc = IZR correct / IZR total * 100 ∧
    best_acc w' = Rmax (best_acc w) acc ∧
    best = best_acc w' ∧
    state w' = state w ∧ global_step w' = global_step w ∧ vlog w' = vlog w ∧
    disk w' =
      if negb (retrain args) && negb (baseline args)
      then <[ReweightingEngine.meta_net_path args (global_step w) :=
               outer_state_dict (outer_params (state w))]>
             (<[ReweightingEngine.net_path args (global_step w) :=
                  inner_state_dict (inner_params (state w))]> (disk w))
      else disk w.
Proof.
  unfold ReweightingEngine.validation. rewrite attr_inner.
  cbn [getattr mbind result_bind].
  destruct (for_each test_dataloader _ _) as [[correct total]|] eqn:Hloop;
    [|discriminate].
  cbn [mbind result_bind]. unfold truediv.
  case_bool_decide as Htot; [discriminate|]. cbn [mbind result_bind].
  pose proof (test_loop_mono _ _ _ _ _ _ Hloop) as [Hc Ht].
  assert (Hbest : ∀ b a : R, (if bool_decide (b < a) then a else b) = Rmax b a).
  { intros b a. unfold Rmax. case_bool_decide; destruct (Rle_dec b a); lra. }
  destruct (negb (retrain args) && negb (baseline args)) eqn:Hsave.
  - destruct (attr (problems args) outer (outer_params (state w))) as [φ|] eqn:Hattr;
      [|discriminate].
    cbn. intros [= <- <- <-]. cbn.
    exists correct, total. rewrite Hbest.
    assert (φ = outer_params (state w)) as ->.
    { unfold attr in Hattr. case_bool_decide; congruence. }
    split_and!; try reflexivity; lia.
  - cbn. intros [= <- <- <-]. cbn.
    exists correct, total. rewrite Hbest. split_and!; try reflexivity; lia.
Qed.

Lemma train_step_frame (w w' : World) :
  Engine.train_step ResNet32 MLP args train_dataloader meta_dataloader
    sgd_update adam_update darts_points step_after_roll_back outer_config inner_config
    (engine_config args) (problems args) (dependencies args) w = Ok w' →
  global_step w' = global_step w ∧ best_acc w' = best_acc w ∧
  disk w' = disk w ∧ vlog w' = vlog w.
Proof.
  unfold Engine.train_step.
  destruct (for_each _ _ _) as [s'|]; [|discriminate].
  cbn. intros [= <-]. by cbn.
Qed.

Lemma iteration_spec (it : Z) (w w' : World) :
  engine_iteration ResNet32 MLP sgd_update adam_update darts_points step_after_roll_back
    args train_dataloader meta_dataloader test_dataloader it w = Ok w' →
  global_step w' = (global_step w + 1)%Z ∧
  ∃ new : list validation_record,
    vlog w' = vlog w ++ new ∧
    map at_step new =
      (if bool_decide ((it mod 500)%Z = 0%Z) then [(global_step w + 1)%Z] else []) ∧
    Forall (λ r, 0 <= rec_acc r) new ∧
    map rec_best_acc new = running_max (best_acc w) (map rec_acc new) ∧
    best_acc w' = foldl Rmax (best_acc w) (map rec_acc new).
Proof.
  unfold engine_iteration, Engine.run_iteration.
  destruct (Engine.train_step _ _ _ _ _ _ _ _ _ _ _ _ _ _ _) as [w2|] eqn:Htrain;
    [|discriminate].
  apply train_step_frame in Htrain as (Hg & Hb & Hd & Hl). cbn in Hg, Hb, Hd, Hl.
  cbn [mbind result_bind]. unfold mod_.
  cbn [engine_config betty.valid_step].
  rewrite (bool_decide_eq_false_2 (500 = 0)%Z) by lia. cbn [mbind result_bind].
  case_bool_decide as Hit.
  - destruct (ReweightingEngine.validation _ _ _ _ w2) as [[w3 [acc best]]|] eqn:Hval;
      [|discriminate].
    apply validation_spec in Hval
      as (correct & total & _ & Hc & Ht & Hacc & Hbest & Hret & _ & Hg3 & Hl3 & _).
    cbn. intros [= <-]. cbn. split; [congruence|].
    eexists [_]. split_and!.
    + rewrite Hl3, Hl. reflexivity.
    + cbn. congruence.
    + constructor; [|constructor]. cbn. subst acc.
      apply Rmult_le_pos; [|lra].
      apply Rmult_le_pos; [apply IZR_le; lia|].
      apply Rlt_le, Rinv_0_lt_compat, IZR_lt. lia.
    + cbn. rewrite Hret, Hbest, Hb. reflexivity.
    + cbn. rewrite Hbest, Hb. reflexivity.
  - cbn. intros [= <-]. split; [assumption|].
    exists []. rewrite app_nil_r. by split_and!.
Qed.

Lemma running_max_app (b : R) (xs ys : list R) :
  running_max b (xs ++ ys) = running_max b xs ++ running_max (foldl Rmax b xs) ys.
Proof.
  revert b. induction xs as [|x xs IH]; intros b; cbn; [reflexivity|].
  by rewrite IH.
Qed.

Lemma loop_spec (its : list Z) (w w' : World) :
  for_each its
    (engine_iteration ResNet32 MLP sgd_update adam_update darts_points step_after_roll_back
       args train_dataloader meta_dataloader test_dataloader) w = Ok w' →
  global_step w' = (global_step w + Z.of_nat (length its))%Z ∧
  ∃ new : list validation_record,
    vlog w' = vlog w ++ new ∧
    map at_step new = validated_steps 500 (global_step w) its ∧
    Forall (λ r, 0 <= rec_acc r) new ∧
    map rec_best_acc new = running_max (best_acc w) (map rec_acc new) ∧
    best_acc w' = foldl Rmax (best_acc w) (map rec_acc new).
Proof.
  revert w. induction its as [|it its IH]; intros w.
  - cbn. intros [= <-]. split; [lia|]. exists []. rewrite app_nil_r. by split_and!.
  - cbn [for_each].
    destruct (engine_iteration _ _ _ _ _ _ _ _ _ _ it w) as [w1|] eqn:Hit; [|discriminate].
    cbn [mbind result_bind]. intros Hrest.
    apply iteration_spec in Hit as (Hg1 & new1 & Hl1 & Hs1 & Hp1 & Hr1 & Hb1).
    apply IH in Hrest as (Hg2 & new2 & Hl2 & Hs2 & Hp2 & Hr2 & Hb2).
    split; [cbn [length]; lia|].
    exists (new1 ++ new2). split_and!.
    + rewrite Hl2, Hl1. by rewrite app_assoc.
    + rewrite map_app, Hs1, Hs2, Hg1. reflexivity.
    + by apply Forall_app.
    + rewrite !map_app, running_max_app, Hr1, Hr2, Hb1. reflexivity.
    + rewrite map_app, foldl_app, Hb2, Hb1. reflexivity.
Qed.
End Run.

Section Script.
Context {InnerParams OuterParams InnerBuf OuterBuf : Type}.
Variable ResNet32 : value → InnerParams → Tensor → result Tensor.
Variable MLP : Z → Z → OuterParams → Tensor → result Tensor.
Variable inner_init : InnerParams.
Variable outer_init : OuterParams.
Variable inner_buf_init : InnerBuf.
Variable outer_buf_init : OuterBuf.
Variable sgd_update :
  optim.SGD → (InnerParams → result Tensor) → InnerParams → InnerBuf →
  InnerParams * InnerBuf.
Variable adam_update :
  optim.Adam → (OuterParams → result Tensor) → OuterParams → OuterBuf →
  OuterParams * OuterBuf.
Variable darts_points :
  (InnerParams → result Tensor) → InnerParams → InnerParams * InnerParams.
Variable step_after_roll_back :
  Problems InnerParams OuterParams InnerBuf OuterBuf →
  result (Problems InnerParams OuterParams InnerBuf OuterBuf).
Variable args : Args.
Variable train_dataloader meta_dataloader : nat → Batch.
Variable test_dataloader : list Batch.

Abbreviation the_iteration :=
  (engine_iteration ResNet32 MLP sgd_update adam_update darts_points step_after_roll_back
     args train_dataloader meta_dataloader test_dataloader).
Abbreviation the_run :=
  (engine_run ResNet32 MLP sgd_update adam_update darts_points step_after_roll_back
     args train_dataloader meta_dataloader test_dataloader).
Abbreviation the_engine :=
  (engine inner_init outer_init inner_buf_init outer_buf_init args).
Abbreviation the_validation :=
  (ReweightingEngine.validation (OuterParams := OuterParams)
     (InnerBuf := InnerBuf) (OuterBuf := OuterBuf)
     ResNet32 args test_dataloader (problems args)).

Lemma engine_run_unfold (w : World InnerParams OuterParams InnerBuf OuterBuf) :
  the_run w = for_each (range 1 (15000 + 1)) the_iteration w.
Proof. reflexivity. Qed.

Lemma engine_initial (w0 : World InnerParams OuterParams InnerBuf OuterBuf) :
  the_engine = Ok w0 →
  global_step w0 = 0%Z ∧ best_acc w0 = -1 ∧ vlog w0 = [] ∧ disk w0 = ∅ ∧
  calls (state w0) = [] ∧ inner_params (state w0) = inner_init ∧
  outer_params (state w0) = outer_init.
Proof.
  unfold engine.
  destruct (if bool_decide (outer ∈ problems args) then _ else _) as [adam|];
    [|discriminate].
  cbn [mbind result_bind].
  destruct (Inner.configure_optimizer args) as [sgd|]; [|discriminate].
  cbn [mbind result_bind].
  destruct (Inner.configure_scheduler sgd) as [sgd0 sch].
  cbn. intros [= <-]. by cbn.
Qed.

(** C6. The engine is configured for 15000 iterations with a validation
    every 500: its run is the loop over the iteration numbers 1 to 15000,
    a finite list, so it ends, with a world or with the exception of the
    first iteration that raises.  When it ends with a world the step
    counter has advanced by 15000 and validations took place at exactly the
    steps 500, 1000, ..., 15000; and it does end with a world when no
    iteration raises on the worlds of an invariant that holds at the
    start. *)
Theorem run_is_15000_iterations :
  betty.train_iters (engine_config args) = 15000%Z ∧
  betty.valid_step (engine_config args) = 500%Z ∧
  (∀ w, the_run w = for_each (range 1 (15000 + 1)) the_iteration w) ∧
  length (range 1 (15000 + 1)) = Z.to_nat 15000 ∧
  (∀ w w', the_run w = Ok w' →
     global_step w' = (global_step w + 15000)%Z ∧
     ∃ new : list validation_record,
       vlog w' = vlog w ++ new ∧
       map at_step new = map (λ k, (global_step w + 500 * k)%Z) (range 1 31)) ∧
  (∀ (I : World InnerParams OuterParams InnerBuf OuterBuf → Prop) w,
     I w →
     (∀ it w0, I w0 → ∃ w1, the_iteration it w0 = Ok w1 ∧ I w1) →
     ∃ w', the_run w = Ok w' ∧ I w').
Proof.
  split_and!; [reflexivity | reflexivity | reflexivity | | | ].
  - apply length_range_script.
  - intros w w' Hrun. rewrite engine_run_unfold in Hrun.
    apply loop_spec in Hrun as (Hg & new & Hl & Hs & _).
    rewrite length_range_script in Hg. split; [lia|].
    exists new. split; [assumption|]. rewrite Hs. apply validated_steps_script.
  - intros I w Hw Hbody. rewrite engine_run_unfold.
    by apply for_each_invariant.
Qed.

(** C9. [best_acc] starts at -1; a validation leaves it at the larger of
    its previous value and the accuracy [correct / total * 100] counted over
    the whole test set, and returns that value; no iteration lowers it; and
    the value the script prints at the end is the largest of the thirty
    accuracies the validations of the run have computed. *)
Theorem best_acc_is_running_maximum :
  (∀ w0, the_engine = Ok w0 → best_acc w0 = -1) ∧
  (∀ w w' acc best, the_validation w = Ok (w', (acc, best)) →
     best_acc w' = Rmax (best_acc w) acc ∧ best = best_acc w' ∧
     best_acc w <= best_acc w' ∧
     ∃ correct total : Z,
       for_each test_dataloader
         (ReweightingEngine.test_batch
            (Inner.forward ResNet32 args (inner_params (state w)))) (0%Z, 0%Z)
         = Ok (correct, total) ∧
       acc = IZR correct / IZR total * 100 ∧
       acc = 100 * IZR correct / IZR total) ∧
  (∀ it w w', the_iteration it w = Ok w' → best_acc w <= best_acc w') ∧
  (∀ f b,
     main ResNet32 MLP inner_init outer_init inner_buf_init outer_buf_init
       sgd_update adam_update darts_points step_after_roll_back args
       train_dataloader meta_dataloader test_dataloader = Ok (f, b) →
     ∃ w', (w0 ← the_engine; the_run w0) = Ok w' ∧
       b = best_acc w' ∧
       length (vlog w') = 30%nat ∧
       map rec_best_acc (vlog w') = running_max (-1) (map rec_acc (vlog w')) ∧
       (∃ r, r ∈ vlog w' ∧ rec_acc r = b) ∧
       (∀ r, r ∈ vlog w' → rec_acc r <= b)).
Proof.
  split_and!.
  - intros w0 H. by apply engine_initial in H as (_ & H & _).
  - intros w w' acc best Hval.
    apply validation_spec in Hval
      as (correct & total & Hloop & _ & Ht & Hacc & Hbest & Hret & _).
    split_and!; try assumption.
    + rewrite Hbest. apply Rmax_l.
    + exists correct, total. split_and!; try assumption.
      rewrite Hacc. unfold Rdiv. ring.
  - intros it w w' Hit.
    apply iteration_spec in Hit as (_ & new & _ & _ & _ & _ & ->).
    apply foldl_Rmax_ge.
  - intros f b. unfold main.
    destruct the_engine as [w0|] eqn:Hengine; [|discriminate].
    cbn [mbind result_bind].
    destruct (the_run w0) as [w'|] eqn:Hrun; [|discriminate].
    cbn. intros [= <- <-]. exists w'.
    apply engine_initial in Hengine as (Hg0 & Hb0 & Hl0 & _).
    rewrite engine_run_unfold in Hrun.
    apply loop_spec in Hrun as (_ & new & Hl & Hs & Hpos & Hrec & Hbest).
    rewrite Hl0 in Hl. cbn [app] in Hl. subst new.
    rewrite validated_steps_script in Hs. rewrite Hb0 in Hrec, Hbest.
    assert (Hlen : length (vlog w') = 30%nat).
    { rewrite <- (length_map at_step), Hs, length_map. reflexivity. }
    destruct (foldl_Rmax_is_max (-1) (map rec_acc (vlog w'))) as [Hin Hmax].
    { destruct (vlog w'); [discriminate | done]. }
    { rewrite Forall_map. eapply Forall_impl; [exact Hpos|].
      intros r Hr. cbn in *. lra. }
    split_and!; try done.
    + rewrite Hbest. apply list_elem_of_In, in_map_iff in Hin as (r & Hr & Hin).
      exists r. split; [by apply list_elem_of_In | assumption].
    + intros r Hr. rewrite Hbest. apply Hmax.
      apply list_elem_of_In, in_map. by apply list_elem_of_In.
Qed.
End Script.

(** ** The sample run *)

Lemma sample_engine : engine tt tt tt tt default_args = Ok Sample.world0.
Proof.
  unfold engine, Outer.configure_optimizer, Inner.configure_optimizer.
  rewrite bool_decide_eq_true_2 by (cbn; set_solver).
  rewrite new_Adam_ok by (cbn; lra). cbn [mbind result_bind mret result_ret].
  unfold optim.new_SGD. cbn [lr momentum dampening weight_decay nesterov default_args].
  rewrite !bool_decide_eq_false_2 by lra. cbn [andb mbind result_bind].
  fold Sample.sgd0. unfold Sample.world0, Sample.state0.
  by destruct (Inner.configure_scheduler Sample.sgd0).
Qed.

Lemma sample_outer_step (θ : unit) :
  Outer.training_step (Some (Inner.forward Sample.echo_net default_args θ))
    Sample.batch2 = Ok Sample.meta_output2.
Proof.
  apply (Outer_training_step_ok _ Sample.two_by_two [0; 1]%nat
           Sample.two_by_two 2);
    [discriminate | reflexivity | reflexivity | repeat constructor].
Qed.

Lemma sample_validation (w : World unit unit unit unit) :
  ∃ w' stats,
    ReweightingEngine.validation Sample.echo_net default_args Sample.test_set
      (problems default_args) w = Ok (w', stats) ∧
    state w' = state w.
Proof.
  unfold ReweightingEngine.validation. rewrite attr_inner.
  cbn [getattr mbind result_bind].
  assert (Hloop : ∀ θ : unit,
    for_each Sample.test_set
      (ReweightingEngine.test_batch (Inner.forward Sample.echo_net default_args θ))
      (0%Z, 0%Z) = Ok (1%Z, 1%Z)) by reflexivity.
  rewrite Hloop. cbn [mbind result_bind]. unfold truediv.
  rewrite bool_decide_eq_false_2 by lia. cbn [mbind result_bind].
  cbn [retrain baseline default_args negb andb].
  rewrite attr_outer_meta by reflexivity.
  cbn [getattr mbind result_bind mret result_ret].
  eexists _, _. split; reflexivity.
Qed.

Lemma sample_iteration (it : Z) (w : World unit unit unit unit) :
  Sample.ready w →
  ∃ w1,
    engine_iteration Sample.echo_net Sample.half_net Sample.sgd_keep Sample.adam_keep Sample.darts_keep Sample.no_roll_back
      default_args Sample.loader Sample.loader Sample.test_set it w = Ok w1 ∧
    Sample.ready w1.
Proof.
  intros Hready. unfold engine_iteration, Engine.run_iteration, Engine.train_step.
  rewrite leaves_inner. cbn [for_each state]. unfold Engine.step.
  destruct (step_normal_meta Sample.echo_net Sample.half_net Sample.sgd_keep
              Sample.adam_keep Sample.darts_keep default_args Sample.loader Sample.loader (state w)
              (λ _, inner_params (state w)) Sample.weighted_loss2
              Sample.meta_output2 Sample.adam0
              Sample.weighted_loss2 Sample.weighted_loss2)
    as (s' & Hstep & _ & Hopt & _).
  { reflexivity. }
  { destruct (inner_params (state w)), (outer_params (state w)).
    exact sample_inner_step. }
  { apply sample_outer_step. }
  { exact Hready. }
  { destruct (outer_params (state w)). exact sample_inner_step. }
  { destruct (outer_params (state w)). exact sample_inner_step. }
  unfold engine_step_normal in Hstep. rewrite Hstep.
  cbn [mbind result_bind mret result_ret engine_config betty.roll_back
       rollback default_args betty.valid_step].
  unfold mod_. rewrite (bool_decide_eq_false_2 (500 = 0)%Z) by lia.
  cbn [mbind result_bind].
  case_bool_decide.
  - match goal with
    | |- context [ReweightingEngine.validation _ _ _ _ ?w2] =>
        destruct (sample_validation w2) as (w3 & [acc best] & Hval & Hstate)
    end.
    rewrite Hval. cbn [mbind result_bind mret result_ret].
    eexists. split; [reflexivity|].
    unfold Sample.ready. cbn [state]. rewrite Hstate. cbn [state].
    by rewrite Hopt.
  - eexists. split; [reflexivity|]. unfold Sample.ready. cbn [state].
    by rewrite Hopt.
Qed.

Lemma sample_run :
  ∃ w',
    engine_run Sample.echo_net Sample.half_net Sample.sgd_keep Sample.adam_keep Sample.darts_keep Sample.no_roll_back
      default_args Sample.loader Sample.loader Sample.test_set Sample.world0
    = Ok w' ∧ Sample.ready w'.
Proof.
  rewrite engine_run_unfold. apply for_each_invariant.
  - reflexivity.
  - intros it w0 Hw0. by apply sample_iteration.
Qed.

Lemma run_is_15000_iterations_witness :
  ∃ w',
    engine_run Sample.echo_net Sample.half_net Sample.sgd_keep Sample.adam_keep Sample.darts_keep Sample.no_roll_back
      default_args Sample.loader Sample.loader Sample.test_set Sample.world0
    = Ok w' ∧
    global_step w' = 15000%Z ∧
    map at_step (vlog w') = map (λ k, (500 * k)%Z) (range 1 31).
Proof.
  destruct (run_is_15000_iterations Sample.echo_net Sample.half_net
              Sample.sgd_keep Sample.adam_keep Sample.darts_keep Sample.no_roll_back default_args Sample.loader
              Sample.loader Sample.test_set)
    as (_ & _ & _ & _ & Hsteps & Hends).
  destruct (Hends Sample.ready Sample.world0 eq_refl
              (λ it w0 Hw0, sample_iteration it w0 Hw0)) as (w' & Hrun & _).
  exists w'. split; [exact Hrun|].
  destruct (Hsteps Sample.world0 w' Hrun) as (Hg & new & Hl & Hs).
  split; [exact Hg|]. rewrite Hl. exact Hs.
Defined.

Lemma bind_Ok {A B : Type} (a : A) (k : A → result B) :
  (x ← Ok a; k x) = k a.
Proof. reflexivity. Qed.

Lemma sample_main :
  ∃ b,
    main Sample.echo_net Sample.half_net tt tt tt tt Sample.sgd_keep
      Sample.adam_keep Sample.darts_keep Sample.no_roll_back default_args Sample.loader
      Sample.loader Sample.test_set = Ok (None, b).
Proof.
  destruct sample_run as (w & Hrun & _).
  exists (best_acc w). unfold main.
  rewrite sample_engine, bind_Ok, Hrun, bind_Ok. reflexivity.
Qed.

Lemma best_acc_is_running_maximum_witness :
  ∃ b,
    main Sample.echo_net Sample.half_net tt tt tt tt Sample.sgd_keep
      Sample.adam_keep Sample.darts_keep Sample.no_roll_back default_args Sample.loader
      Sample.loader Sample.test_set = Ok (None, b) ∧
    ∃ w' : World unit unit unit unit, length (vlog w') = 30%nat ∧
      (∃ r, r ∈ vlog w' ∧ rec_acc r = b) ∧ (∀ r, r ∈ vlog w' → rec_acc r <= b).
Proof.
  destruct sample_main as (b & Hmain).
  exists b. split; [exact Hmain|].
  destruct (best_acc_is_running_maximum Sample.echo_net Sample.half_net
              tt tt tt tt Sample.sgd_keep Sample.adam_keep Sample.darts_keep Sample.no_roll_back
              default_args Sample.loader Sample.loader Sample.test_set)
    as (_ & _ & _ & Hfinal).
  destruct (Hfinal None b Hmain) as (w' & _ & _ & Hlen & _ & Hin & Hmax).
  exists w'. exact (conj Hlen (conj Hin Hmax)).
Defined.

(** ** Checkpoints *)

Lemma string_app_inj (s a b : string) : s +:+ a = s +:+ b → a = b.
Proof.
  induction s as [|c s IH]; cbn; [done|]. intros [= H]. by apply IH.
Qed.

Lemma net_path_ne_meta_net_path (args : Args) (step : Z) :
  ReweightingEngine.net_path args step ≠ ReweightingEngine.meta_net_path args step.
Proof.
  unfold ReweightingEngine.net_path, ReweightingEngine.meta_net_path.
  intros H. apply string_app_inj in H. discriminate.
Qed.

Lemma sample_validation_any (args : Args) (w : World unit unit unit unit) :
  ∃ w' stats,
    ReweightingEngine.validation Sample.echo_net args Sample.test_set
      (problems args) w = Ok (w', stats).
Proof.
  unfold ReweightingEngine.validation. rewrite attr_inner.
  cbn [getattr mbind result_bind].
  assert (Hloop : ∀ θ : unit,
    for_each Sample.test_set
      (ReweightingEngine.test_batch (Inner.forward Sample.echo_net args θ))
      (0%Z, 0%Z) = Ok (1%Z, 1%Z)) by reflexivity.
  rewrite Hloop. cbn [mbind result_bind]. unfold truediv.
  rewrite bool_decide_eq_false_2 by lia. cbn [mbind result_bind].
  destruct (negb (retrain args) && negb (baseline args)) eqn:Hsave.
  - rewrite attr_outer_meta.
    + cbn [getattr mbind result_bind mret result_ret]. by eexists _, _.
    + apply andb_prop in Hsave as [Hr Hb].
      apply negb_true_iff in Hr, Hb. by rewrite Hr, Hb.
  - cbn [mbind result_bind mret result_ret]. by eexists _, _.
Qed.

Section Checkpoints.
Context {InnerParams OuterParams InnerBuf OuterBuf : Type}.
Variable ResNet32 : value → InnerParams → Tensor → result Tensor.
Variable args : Args.
Variable test_dataloader : list Batch.

(** C2, as the code has it.  A validation that returns has written, when
    neither [--baseline] nor [--retrain] is set, the inner network's and the
    outer network's current state dicts under the two paths that carry the
    dataset and the current step, and has left every other path alone,
    whatever the accuracy and the best accuracy so far are; with
    [--baseline] or [--retrain] it has written nothing. *)
Theorem validation_checkpoints_every_time
    (w w' : World InnerParams OuterParams InnerBuf OuterBuf) (acc best : R) :
  ReweightingEngine.validation ResNet32 args test_dataloader (problems args) w
    = Ok (w', (acc, best)) →
  (baseline args = false → retrain args = false →
     disk w' !! ReweightingEngine.net_path args (global_step w)
       = Some (inner_state_dict (inner_params (state w))) ∧
     disk w' !! ReweightingEngine.meta_net_path args (global_step w)
       = Some (outer_state_dict (outer_params (state w))) ∧
     ∀ path,
       path ≠ ReweightingEngine.net_path args (global_step w) →
       path ≠ ReweightingEngine.meta_net_path args (global_step w) →
       disk w' !! path = disk w !! path) ∧
  (baseline args || retrain args = true → disk w' = disk w).
Proof.
  intros Hval.
  apply validation_spec
    in Hval as (_ & _ & _ & _ & _ & _ & _ & _ & _ & _ & _ & Hdisk).
  split.
  - intros Hb Hr. rewrite Hb, Hr in Hdisk. cbn [negb andb] in Hdisk.
    rewrite Hdisk. split_and!.
    + rewrite lookup_insert_ne by (apply not_eq_sym, net_path_ne_meta_net_path).
      by rewrite lookup_insert_eq.
    + by rewrite lookup_insert_eq.
    + intros path H1 H2. by rewrite !lookup_insert_ne.
  - intros Hmode. rewrite Hdisk.
    destruct (retrain args), (baseline args); try reflexivity. discriminate.
Qed.
End Checkpoints.

Lemma validation_checkpoints_every_time_witness :
  ∃ (w' : World unit unit unit unit) (acc best : R),
    ReweightingEngine.validation Sample.echo_net default_args Sample.test_set
      (problems default_args) Sample.world_at_best = Ok (w', (acc, best)) ∧
    disk w' !! "cifar10/net_500.pt" = Some (inner_state_dict tt) ∧
    disk w' !! "cifar10/meta_net_500.pt" = Some (outer_state_dict tt).
Proof.
  destruct (sample_validation_any default_args Sample.world_at_best)
    as (w' & [acc best] & Hval).
  exists w', acc, best. split; [exact Hval|].
  destruct (validation_checkpoints_every_time Sample.echo_net default_args
              Sample.test_set Sample.world_at_best w' acc best Hval)
    as [Hmeta _].
  destruct (Hmeta eq_refl eq_refl) as (Hnet & Hmnet & _).
  exact (conj Hnet Hmnet).
Defined.

(** C2 as stated fails in both directions.  In meta-learning mode a
    validation whose accuracy does not improve on the best so far still
    writes a checkpoint; with [--baseline] a validation that does improve
    on it writes none. *)
Lemma checkpoint_does_not_follow_improvement :
  (∃ (w' : World unit unit unit unit) (acc best : R),
     ReweightingEngine.validation Sample.echo_net default_args Sample.test_set
       (problems default_args) Sample.world_at_best = Ok (w', (acc, best)) ∧
     ¬ (best_acc Sample.world_at_best < acc) ∧
     best_acc w' = best_acc Sample.world_at_best ∧
     disk Sample.world_at_best !! "cifar10/net_500.pt" = None ∧
     disk w' !! "cifar10/net_500.pt" = Some (inner_state_dict tt)) ∧
  (∃ (w' : World unit unit unit unit) (acc best : R),
     ReweightingEngine.validation Sample.echo_net (Sample.with_flags true false)
       Sample.test_set (problems (Sample.with_flags true false)) Sample.world0
       = Ok (w', (acc, best)) ∧
     best_acc Sample.world0 < acc ∧
     best_acc w' = acc ∧
     disk w' = disk Sample.world0).
Proof.
  split.
  - destruct (sample_validation_any default_args Sample.world_at_best)
      as (w' & [acc best] & Hval).
    exists w', acc, best. split; [exact Hval|].
    pose proof Hval as Hspec.
    apply validation_spec in Hspec
      as (c & t & Hloop & _ & _ & Hacc & Hbest & _ & _ & _ & _ & Hdisk).
    assert (Hct : Ok (c, t) = Ok (1%Z, 1%Z)) by (rewrite <- Hloop; reflexivity).
    injection Hct as -> ->.
    assert (Hv : acc = 100) by (rewrite Hacc; lra).
    cbn [best_acc Sample.world_at_best] in *.
    split_and!.
    + lra.
    + rewrite Hbest, Hv. unfold Rmax. destruct (Rle_dec 100 100); lra.
    + reflexivity.
    + rewrite Hdisk. cbn [negb andb retrain baseline default_args].
      rewrite lookup_insert_ne by done. by rewrite lookup_insert_eq.
  - destruct (sample_validation_any (Sample.with_flags true false) Sample.world0)
      as (w' & [acc best] & Hval).
    exists w', acc, best. split; [exact Hval|].
    apply validation_spec in Hval
      as (c & t & Hloop & _ & _ & Hacc & Hbest & _ & _ & _ & _ & Hdisk).
    assert (Hct : Ok (c, t) = Ok (1%Z, 1%Z)) by (rewrite <- Hloop; reflexivity).
    injection Hct as -> ->.
    assert (Hv : acc = 100) by (rewrite Hacc; lra).
    cbn [best_acc Sample.world0] in *. unfold initial_best_acc in *.
    split_and!.
    + lra.
    + rewrite Hbest, Hv. unfold Rmax. destruct (Rle_dec (-1) 100); lra.
    + exact Hdisk.
Qed.

(** * Further properties

    ** Cross entropy is non-negative *)

Lemma Rsum_exp_ge (row : list R) (y : nat) :
  (y < length row)%nat → exp (nth y row 0) <= Rsum (map exp row).
Proof.
  revert y. induction row as [|x row IH]; intros y Hy; [cbn in Hy; lia|].
  assert (Hpos : ∀ l : list R, 0 <= Rsum (map exp l)).
  { induction l as [|z l IHl]; unfold Rsum in *; cbn; [lra|].
    pose proof (exp_pos z). lra. }
  destruct y as [|y]; unfold Rsum in *; cbn.
  - specialize (Hpos row). lra.
  - cbn in Hy. specialize (IH y ltac:(lia)). pose proof (exp_pos x). lra.
Qed.

Lemma nll_row_nonneg (row : list R) (y : nat) :
  (y < length row)%nat → 0 <= nll_row row y.
Proof.
  intros Hy. unfold nll_row.
  pose proof (Rsum_exp_ge row y Hy) as Hge.
  pose proof (exp_pos (nth y row 0)) as Hpos.
  assert (ln (exp (nth y row 0)) <= ln (Rsum (map exp row))).
  { destruct Hge as [Hlt | Heq].
    - left. apply ln_increasing; assumption.
    - right. by rewrite Heq. }
  rewrite ln_exp in H. lra.
Qed.

Lemma Rsum_nonneg (xs : list R) : Forall (λ x, 0 <= x) xs → 0 <= Rsum xs.
Proof.
  induction 1 as [|x xs Hx _ IH]; unfold Rsum in *; cbn; lra.
Qed.

Lemma Rsum_le (xs ys : list R) :
  Forall2 Rle xs ys → Rsum xs <= Rsum ys.
Proof. induction 1; unfold Rsum in *; cbn; lra. Qed.

Lemma length_block_wf (i n c : nat) (d : list R) :
  length d = (n * c)%nat → (i < n)%nat → length (block i c d) = c.
Proof. intros. by eapply length_block. Qed.

(** The per-sample losses of a well-formed batch of logits. *)
Lemma losses_nonneg (d : list R) (labels : list nat) (c : nat) :
  length d = (length labels * c)%nat →
  Forall (λ y, (y < c)%nat) labels →
  Forall (λ l, 0 <= l) (imap (λ i y, nll_row (block i c d) y) labels).
Proof.
  intros Hd Hy. apply Forall_lookup_2. intros i l Hl.
  rewrite list_lookup_imap in Hl.
  destruct (labels !! i) as [y|] eqn:Hi; [|discriminate].
  cbn in Hl. injection Hl as <-.
  apply nll_row_nonneg.
  rewrite (length_block_wf i (length labels) c) by
    (try assumption; by eapply lookup_lt_Some).
  eapply Forall_lookup_1 in Hy; eauto.
Qed.

(** ** The loss of [Inner.training_step] *)

(** Inversion of a successful [F.cross_entropy]. *)
Lemma cross_entropy_inv (input : Tensor) (target : list nat) (red : reduction)
    (t : Tensor) :
  cross_entropy input target red = Ok t →
  ∃ c, shape input = [length target; c] ∧ Forall (λ y, (y < c)%nat) target.
Proof.
  unfold cross_entropy.
  destruct (shape input) as [|n [|c [|]]]; try discriminate.
  case_bool_decide as Hn; [discriminate|].
  case_bool_decide as Hy; [discriminate|].
  intros _. exists c. split.
  - f_equal. destruct (decide (n = length target)); [done | by destruct Hn].
  - apply Forall_forall. intros y Hin.
    destruct (decide (y < c)%nat) as [|Hge]; [done|].
    destruct Hy. apply Exists_exists. exists y. split; [done | lia].
Qed.

Lemma cross_entropy_raises_ValueError (input : Tensor) (target : list nat)
    (red : reduction) (n c : nat) :
  shape input = [n; c] → n ≠ length target →
  cross_entropy input target red = Raise ValueError.
Proof.
  intros Hs Hn. unfold cross_entropy. rewrite Hs.
  by rewrite bool_decide_eq_true_2.
Qed.

Section Losses.
Context {InnerParams : Type}.
Variable ResNet32 : value → InnerParams → Tensor → result Tensor.
Variable args : Args.

(** X1. Whatever the flags and the outer network, the loss that
    [Inner.training_step] returns is a 0-dimensional tensor. *)
Theorem Inner_training_step_scalar (params : InnerParams)
    (outer : option (Tensor → result Tensor)) (batch : Batch) (t : Tensor) :
  Inner.training_step ResNet32 args params outer batch = Ok t →
  shape t = [] ∧ length (data t) = 1%nat.
Proof.
  destruct batch as [inputs labels]. unfold Inner.training_step.
  destruct (Inner.forward ResNet32 args params inputs) as [outputs|];
    [|discriminate].
  cbn [mbind result_bind].
  destruct (baseline args || retrain args).
  - intros H. pose proof (cross_entropy_inv _ _ _ _ H) as (c & Hs & Hy).
    rewrite (cross_entropy_ok _ _ c) in H by assumption.
    by injection H as <-.
  - destruct (cross_entropy outputs labels reduction_none) as [lv|];
      [|discriminate].
    cbn [mbind result_bind].
    destruct (reshape lv [-1; 1]%Z) as [col|]; [|discriminate].
    cbn [mbind result_bind].
    destruct outer as [f|]; [|discriminate]. cbn [getattr mbind result_bind].
    destruct (f (detach col)) as [w|]; [|discriminate].
    cbn [mbind result_bind].
    destruct (mul w col) as [p|]; [|discriminate].
    cbn. by intros [= <-].
Qed.

(** X2. With [--baseline] or [--retrain] the training loss of the inner
    problem and the meta loss of the outer problem are one function of
    parameters and batch. *)
Theorem baseline_loss_is_meta_loss (params : InnerParams)
    (outer : option (Tensor → result Tensor)) (batch : Batch)
    (out : Outer.step_output) :
  baseline args || retrain args = true →
  Outer.training_step (Some (Inner.forward ResNet32 args params)) batch
    = Ok out →
  Inner.training_step ResNet32 args params outer batch = Ok (Outer.loss out).
Proof.
  intros Hmode. destruct batch as [inputs labels].
  unfold Outer.training_step, Inner.training_step.
  cbn [getattr mbind result_bind]. rewrite Hmode.
  destruct (Inner.forward ResNet32 args params inputs) as [outputs|];
    [|discriminate].
  cbn [mbind result_bind].
  destruct (cross_entropy outputs labels reduction_mean) as [l|];
    [|discriminate].
  cbn [mbind result_bind].
  destruct (argmax_dim1 outputs) as [pred|]; [|discriminate].
  cbn. by intros [= <-].
Qed.

(** X3. A batch whose logits and labels differ in number makes
    [Inner.training_step] raise [ValueError], with and without reweighting
    and whatever the attribute [outer] is: the outer network is not
    reached. *)
Theorem Inner_training_step_bad_batch (params : InnerParams)
    (outer : option (Tensor → result Tensor))
    (inputs : Tensor) (labels : list nat) (outputs : Tensor) (n c : nat) :
  Inner.forward ResNet32 args params inputs = Ok outputs →
  shape outputs = [n; c] →
  n ≠ length labels →
  Inner.training_step ResNet32 args params outer (inputs, labels)
    = Raise ValueError.
Proof.
  intros Hfwd Hs Hn. unfold Inner.training_step. rewrite Hfwd.
  cbn [mbind result_bind].
  rewrite !(cross_entropy_raises_ValueError outputs labels _ n c) by assumption.
  by destruct (baseline args || retrain args).
Qed.
End Losses.

(** ** Bounds on accuracy and loss *)

Lemma Rsum_indicator_bounds (pred labels : list nat) :
  0 <= Rsum (zip_with (λ p y : nat, if bool_decide (p = y) then 1 else 0) pred labels)
    <= INR (length labels).
Proof.
  revert labels. induction pred as [|p pred IH]; intros labels.
  - unfold Rsum. cbn. pose proof (pos_INR (length labels)). lra.
  - destruct labels as [|y labels].
    + unfold Rsum. cbn. lra.
    + specialize (IH labels). unfold Rsum in *.
      cbn [zip_with foldr length]. rewrite S_INR. case_bool_decide; lra.
Qed.

Lemma Rdiv_bounds (x n : R) : 0 < n → 0 <= x <= n → 0 <= x / n * 100 <= 100.
Proof.
  intros Hn [H0 H1]. unfold Rdiv.
  assert (0 < / n) by (by apply Rinv_0_lt_compat).
  assert (x * / n <= 1).
  { apply (Rmult_le_reg_r n); [assumption|]. rewrite Rmult_assoc, Rinv_l; lra. }
  assert (0 <= x * / n) by (apply Rmult_le_pos; lra).
  lra.
Qed.

Lemma INR_length_pos {A : Type} (l : list A) : l ≠ [] → 0 < INR (length l).
Proof.
  destruct l; [done|]. intros _. cbn [length]. rewrite S_INR.
  pose proof (pos_INR (length l)). lra.
Qed.

(** X4. On a non-empty batch with well-formed logits, what
    [Outer.training_step] returns is a percentage and a non-negative
    loss. *)
Theorem Outer_training_step_bounds
    (inner_forward : Tensor → result Tensor)
    (inputs : Tensor) (labels : list nat) (outputs : Tensor)
    (out : Outer.step_output) :
  labels ≠ [] →
  inner_forward inputs = Ok outputs →
  wf outputs →
  Outer.training_step (Some inner_forward) (inputs, labels) = Ok out →
  0 <= Outer.acc out <= 100 ∧
  ∃ v, Outer.loss out = scalar_tensor v (requires_grad outputs) ∧ 0 <= v.
Proof.
  intros Hne Hfwd Hwf Hstep.
  assert (Hc : ∃ c, shape outputs = [length labels; c] ∧
                    Forall (λ y, (y < c)%nat) labels).
  { unfold Outer.training_step in Hstep. cbn [getattr mbind result_bind] in Hstep.
    rewrite Hfwd in Hstep. cbn [mbind result_bind] in Hstep.
    destruct (cross_entropy outputs labels reduction_mean) as [l|] eqn:Hce;
      [|discriminate].
    by eapply cross_entropy_inv. }
  destruct Hc as (c & Hs & Hy).
  rewrite (Outer_training_step_ok inner_forward inputs labels outputs c)
    in Hstep by assumption.
  injection Hstep as <-. cbn [Outer.acc Outer.loss]. split.
  - unfold Outer.hit_rate. apply Rdiv_bounds; [by apply INR_length_pos|].
    apply Rsum_indicator_bounds.
  - eexists. split; [reflexivity|].
    apply Rmult_le_pos.
    + apply Rsum_nonneg, losses_nonneg; [|assumption].
      unfold wf in Hwf. rewrite Hwf, Hs. cbn. lia.
    + left. apply Rinv_0_lt_compat. by apply INR_length_pos.
Qed.

Lemma zip_with_mult_le (ws ls : list R) :
  length ws = length ls →
  Forall (λ w, 0 <= w <= 1) ws → Forall (λ l, 0 <= l) ls →
  Forall2 Rle (zip_with Rmult ws ls) ls ∧
  Forall (λ x, 0 <= x) (zip_with Rmult ws ls).
Proof.
  revert ls. induction ws as [|w ws IH]; intros [|l ls] Hlen Hw Hl;
    cbn in *; try lia; [split; constructor|].
  apply Forall_cons in Hw as [Hw Hws]. apply Forall_cons in Hl as [Hl Hls].
  destruct (IH ls) as [H1 H2]; [lia | assumption | assumption |].
  split; constructor; try assumption; nra.
Qed.

Lemma zip_with_mult_ones (ws ls : list R) :
  length ws = length ls → Forall (λ w, w = 1) ws → zip_with Rmult ws ls = ls.
Proof.
  revert ls. induction ws as [|w ws IH]; intros [|l ls] Hlen Hw;
    cbn in *; try lia; [reflexivity|].
  apply Forall_cons in Hw as [-> Hws]. rewrite IH by (assumption || lia).
  f_equal. lra.
Qed.

Section Weights.
Context {InnerParams OuterParams : Type}.
Variable ResNet32 : value → InnerParams → Tensor → result Tensor.
Variable MLP : Z → Z → OuterParams → Tensor → result Tensor.
Variable args : Args.

(** X5. Weights between 0 and 1 can only shrink the loss: on a well-formed
    batch the reweighted loss lies between 0 and the plain mean cross
    entropy of the same logits. *)
Theorem reweighted_loss_at_most_plain_loss
    (params : InnerParams) (outer_params : OuterParams)
    (inputs : Tensor) (labels : list nat) (outputs w : Tensor) (c : nat) :
  baseline args = false → retrain args = false →
  labels ≠ [] →
  Inner.forward ResNet32 args params inputs = Ok outputs →
  shape outputs = [length labels; c] → wf outputs →
  Forall (λ y, (y < c)%nat) labels →
  Outer.forward MLP args outer_params
    {| shape := [length labels; 1%nat];
       data := imap (λ i y, nll_row (block i c (data outputs)) y) labels;
       requires_grad := false |} = Ok w →
  shape w = [length labels; 1%nat] → length (data w) = length labels →
  Forall (λ x, 0 <= x <= 1) (data w) →
  ∃ v v0,
    Inner.training_step ResNet32 args params
      (Some (Outer.forward MLP args outer_params)) (inputs, labels)
      = Ok (scalar_tensor v (requires_grad w || requires_grad outputs)) ∧
    cross_entropy outputs labels reduction_mean
      = Ok (scalar_tensor v0 (requires_grad outputs)) ∧
    0 <= v <= v0.
Proof.
  intros Hb Hr Hne Hfwd Hs Hwf Hy Hw Hsw Hlw H01.
  assert (Hl : Forall (λ l, 0 <= l)
                 (imap (λ i y, nll_row (block i c (data outputs)) y) labels)).
  { apply losses_nonneg; [|assumption].
    unfold wf in Hwf. rewrite Hwf, Hs. cbn. lia. }
  destruct (zip_with_mult_le (data w)
              (imap (λ i y, nll_row (block i c (data outputs)) y) labels))
    as [Hle Hpos]; [by rewrite length_imap | assumption | assumption |].
  pose proof (INR_length_pos labels Hne) as HN.
  pose proof (Rinv_0_lt_compat _ HN) as HiN.
  apply Rsum_le in Hle. apply Rsum_nonneg in Hpos.
  eexists _, _. split; [|split].
  - by apply (training_step_weighted_value ResNet32 args params
                (Outer.forward MLP args outer_params) inputs labels outputs w c).
  - rewrite (cross_entropy_ok _ _ c) by assumption. cbn zeta.
    unfold mean, numel. cbn [data requires_grad]. by rewrite length_imap.
  - unfold Rdiv. split.
    + apply Rmult_le_pos; lra.
    + apply Rmult_le_compat_r; lra.
Qed.

(** X6. Weights that are all 1 give back the plain mean cross entropy. *)
Theorem unit_weights_give_plain_loss
    (params : InnerParams) (outer_params : OuterParams)
    (inputs : Tensor) (labels : list nat) (outputs w : Tensor) (c : nat) :
  baseline args = false → retrain args = false →
  labels ≠ [] →
  Inner.forward ResNet32 args params inputs = Ok outputs →
  shape outputs = [length labels; c] →
  Forall (λ y, (y < c)%nat) labels →
  Outer.forward MLP args outer_params
    {| shape := [length labels; 1%nat];
       data := imap (λ i y, nll_row (block i c (data outputs)) y) labels;
       requires_grad := false |} = Ok w →
  shape w = [length labels; 1%nat] → length (data w) = length labels →
  Forall (λ x, x = 1) (data w) →
  ∃ t t0,
    Inner.training_step ResNet32 args params
      (Some (Outer.forward MLP args outer_params)) (inputs, labels) = Ok t ∧
    cross_entropy outputs labels reduction_mean = Ok t0 ∧
    data t = data t0.
Proof.
  intros Hb Hr Hne Hfwd Hs Hy Hw Hsw Hlw H1.
  eexists _, _. split; [|split].
  - by apply (training_step_weighted_value ResNet32 args params
                (Outer.forward MLP args outer_params) inputs labels outputs w c).
  - rewrite (cross_entropy_ok _ _ c) by assumption. reflexivity.
  - cbn. rewrite zip_with_mult_ones; [|by rewrite length_imap | assumption].
    unfold numel. cbn. by rewrite length_imap.
Qed.
End Weights.

(** ** Validation *)

Section Validation.
Context {InnerParams OuterParams InnerBuf OuterBuf : Type}.
Variable ResNet32 : value → InnerParams → Tensor → result Tensor.
Variable args : Args.

Abbreviation World := (World InnerParams OuterParams InnerBuf OuterBuf).
Abbreviation validation_on :=
  (ReweightingEngine.validation (OuterParams := OuterParams)
     (InnerBuf := InnerBuf) (OuterBuf := OuterBuf) ResNet32 args).

(** X7. With no test batch (or none that holds a sample) the accuracy is a
    division by zero: [validation] raises [ZeroDivisionError]. *)
Theorem validation_without_samples (test_dataloader : list Batch) (w : World)
    (correct : Z) :
  for_each test_dataloader
    (ReweightingEngine.test_batch
       (Inner.forward ResNet32 args (inner_params (state w)))) (0%Z, 0%Z)
    = Ok (correct, 0%Z) →
  validation_on test_dataloader (problems args) w = Raise ZeroDivisionError.
Proof.
  intros Hloop. unfold ReweightingEngine.validation. rewrite attr_inner.
  cbn [getattr mbind result_bind]. rewrite Hloop. reflexivity.
Qed.

(** The counts of one batch do not depend on the counts so far. *)
Lemma test_batch_shift (f : Tensor → result Tensor) (b : Batch) (c0 t0 : Z) :
  ReweightingEngine.test_batch f b (c0, t0) =
    (r ← ReweightingEngine.test_batch f b (0%Z, 0%Z);
     mret ((c0 + r.1)%Z, (t0 + r.2)%Z)).
Proof.
  unfold ReweightingEngine.test_batch. destruct b as [x target].
  destruct (f x) as [out|]; [|reflexivity]. cbn [mbind result_bind].
  destruct (argmax_dim1 out) as [pred|]; [|reflexivity]. cbn [mbind result_bind].
  destruct (eq_sum pred target) as [h|]; [|reflexivity]. cbn [mbind result_bind].
  destruct (size x 0) as [n|]; [|reflexivity]. cbn. reflexivity.
Qed.

Lemma test_loop_two (f : Tensor → result Tensor) (b1 b2 : Batch)
    (bs : list Batch) (c0 t0 : Z) :
  for_each (b1 :: b2 :: bs) (ReweightingEngine.test_batch f) (c0, t0) =
    (r1 ← ReweightingEngine.test_batch f b1 (0%Z, 0%Z);
     r2 ← ReweightingEngine.test_batch f b2 (0%Z, 0%Z);
     for_each bs (ReweightingEngine.test_batch f)
       ((c0 + r1.1 + r2.1)%Z, (t0 + r1.2 + r2.2)%Z)).
Proof.
  cbn [for_each]. rewrite (test_batch_shift f b1 c0 t0).
  destruct (ReweightingEngine.test_batch f b1 (0%Z, 0%Z)) as [[h1 n1]|];
    [|reflexivity].
  cbn [mbind result_bind mret result_ret fst snd].
  rewrite (test_batch_shift f b2 (c0 + h1) (t0 + n1)).
  by destruct (ReweightingEngine.test_batch f b2 (0%Z, 0%Z)) as [[h2 n2]|].
Qed.

Lemma test_loop_perm (f : Tensor → result Tensor) (bs bs' : list Batch) :
  bs ≡ₚ bs' →
  ∀ (s r : Z * Z),
    for_each bs (ReweightingEngine.test_batch f) s = Ok r →
    for_each bs' (ReweightingEngine.test_batch f) s = Ok r.
Proof.
  induction 1 as [|b bs bs' _ IH|b1 b2 bs|bs1 bs2 bs3 _ IH1 _ IH2];
    intros s r; [done| | |].
  - cbn [for_each]. destruct (ReweightingEngine.test_batch f b s); [|done].
    cbn [mbind result_bind]. apply IH.
  - destruct s as [c0 t0]. rewrite !test_loop_two.
    destruct (ReweightingEngine.test_batch f b2 (0%Z, 0%Z)) as [[h2 n2]|];
      destruct (ReweightingEngine.test_batch f b1 (0%Z, 0%Z)) as [[h1 n1]|];
      try discriminate.
    cbn [mbind result_bind fst snd].
    replace (c0 + h1 + h2)%Z with (c0 + h2 + h1)%Z by lia.
    replace (t0 + n1 + n2)%Z with (t0 + n2 + n1)%Z by lia. done.
  - intros H. by apply IH2, IH1.
Qed.

(** X8. A validation that returns returns the same, and leaves the same world,
    whatever the order in which the test loader yields its batches. *)
Theorem validation_order_independent (test test' : list Batch) (w : World)
    (r : World * (R * R)) :
  test ≡ₚ test' →
  validation_on test (problems args) w = Ok r →
  validation_on test' (problems args) w = Ok r.
Proof.
  intros Hperm. unfold ReweightingEngine.validation. rewrite attr_inner.
  cbn [getattr mbind result_bind].
  destruct (for_each test _ _) as [ct|] eqn:Hloop; [|discriminate].
  by rewrite (test_loop_perm _ _ _ Hperm _ _ Hloop).
Qed.

(** One batch adds at most as many hits as samples when the network
    returns one row of logits per label and the inputs hold one sample per
    label. *)
Lemma test_batch_bounded (f : Tensor → result Tensor) (x : Tensor)
    (target : list nat) (c0 t0 c t : Z) :
  (∀ out, f x = Ok out →
     ∃ k, shape out = [length target; k] ∧
          shape x !! 0%nat = Some (length target)) →
  ReweightingEngine.test_batch f (x, target) (c0, t0) = Ok (c, t) →
  (c - c0 ≤ t - t0)%Z.
Proof.
  intros Hshape. unfold ReweightingEngine.test_batch.
  destruct (f x) as [out|] eqn:Hf; [|discriminate].
  destruct (Hshape out eq_refl) as (k & Hs & Hx).
  cbn [mbind result_bind]. unfold argmax_dim1. rewrite Hs.
  case_bool_decide; [discriminate|]. cbn [mbind result_bind].
  unfold eq_sum. rewrite length_map, length_seq.
  rewrite bool_decide_eq_true_2 by reflexivity. cbn [mbind result_bind].
  unfold size. rewrite Hx. cbn. intros [= <- <-].
  match goal with
  | |- context [length (filter ?P ?l)] =>
      pose proof (length_filter P l) as Hlen
  end.
  rewrite length_zip, length_map, length_seq, Nat.min_id in Hlen. lia.
Qed.

(** X9. Under that condition on every test batch the accuracy a validation
    computes is a percentage. *)
Theorem validation_accuracy_is_percentage (test_dataloader : list Batch)
    (w w' : World) (acc best : R) :
  Forall (λ b : Batch,
            ∀ out, Inner.forward ResNet32 args (inner_params (state w)) b.1
                     = Ok out →
              ∃ k, shape out = [length b.2; k] ∧
                   shape b.1 !! 0%nat = Some (length b.2)) test_dataloader →
  validation_on test_dataloader (problems args) w = Ok (w', (acc, best)) →
  0 <= acc <= 100.
Proof.
  intros Hshape Hval.
  apply validation_spec in Hval as (c & t & Hloop & Hc & Ht & -> & _).
  assert (Hle : ∀ bs c0 t0 c1 t1,
    Forall (λ b : Batch,
              ∀ out, Inner.forward ResNet32 args (inner_params (state w)) b.1
                       = Ok out →
                ∃ k, shape out = [length b.2; k] ∧
                     shape b.1 !! 0%nat = Some (length b.2)) bs →
    for_each bs
      (ReweightingEngine.test_batch
         (Inner.forward ResNet32 args (inner_params (state w)))) (c0, t0)
      = Ok (c1, t1) →
    (c1 - c0 ≤ t1 - t0)%Z).
  { induction bs as [|[x target] bs IH]; intros c0 t0 c1 t1 Hbs; cbn [for_each].
    - intros [= <- <-]. lia.
    - apply Forall_cons in Hbs as [Hb Hbs].
      destruct (ReweightingEngine.test_batch _ (x, target) (c0, t0))
        as [[c2 t2]|] eqn:Hstep; [|discriminate].
      cbn [mbind result_bind]. intros Hrest.
      apply test_batch_bounded in Hstep; [|exact Hb].
      apply IH in Hrest; [lia | assumption]. }
  specialize (Hle _ _ _ _ _ Hshape Hloop).
  apply Rdiv_bounds; [apply IZR_lt; lia|].
  split; [apply IZR_le; lia | apply IZR_le; lia].
Qed.

(** X10. Validating again in the world a validation has left changes nothing:
    same accuracy, same best accuracy, same files. *)
Theorem validation_idempotent (test_dataloader : list Batch)
    (w w' : World) (acc best : R) :
  validation_on test_dataloader (problems args) w = Ok (w', (acc, best)) →
  validation_on test_dataloader (problems args) w' = Ok (w', (acc, best)).
Proof.
  intros Hval.
  apply validation_spec in Hval
    as (c & t & Hloop & Hc & Ht & Hacc & Hbest & Hret & Hstate & Hg & Hl & Hdisk).
  unfold ReweightingEngine.validation. rewrite attr_inner.
  cbn [getattr mbind result_bind]. rewrite Hstate, Hloop.
  cbn [mbind result_bind]. unfold truediv.
  rewrite bool_decide_eq_false_2 by lia. cbn [mbind result_bind].
  rewrite <- Hacc.
  assert (Hb' : (if bool_decide (best_acc w' < acc) then acc else best_acc w')
                = best_acc w').
  { case_bool_decide as Hlt; [|reflexivity].
    rewrite Hbest in Hlt. pose proof (Rmax_r (best_acc w) acc). lra. }
  rewrite Hb', Hg.
  destruct w' as [s' g' b' d' l']. cbn in Hstate, Hg, Hl, Hdisk, Hbest |- *.
  subst s' g' l'.
  destruct (negb (retrain args) && negb (baseline args)) eqn:Hsave.
  - rewrite attr_outer_meta.
    2:{ apply andb_prop in Hsave as [Hr Hb].
        apply negb_true_iff in Hr, Hb. by rewrite Hr, Hb. }
    cbn [getattr mbind result_bind mret result_ret]. unfold mret, result_ret.
    rewrite Hret. do 3 f_equal.
    rewrite Hdisk. apply map_eq. intros path.
    rewrite !lookup_insert. repeat case_decide; reflexivity.
  - cbn [mbind result_bind mret result_ret]. unfold mret, result_ret.
    by rewrite Hret.
Qed.
End Validation.

(** ** Building the engine *)

Lemma new_Adam_cases (lr weight_decay : R) :
  (0 <= lr ∧ 0 <= weight_decay ∧
   optim.new_Adam lr weight_decay =
     Ok {| optim.adam_lr := lr; optim.adam_weight_decay := weight_decay |}) ∨
  ((lr < 0 ∨ weight_decay < 0) ∧
   optim.new_Adam lr weight_decay = Raise ValueError).
Proof.
  unfold optim.new_Adam. repeat case_bool_decide; [right | right | left];
    split_and?; try reflexivity; lra.
Qed.

Lemma new_SGD_cases (lr momentum dampening weight_decay : R) (nesterov : bool) :
  (∃ o, optim.new_SGD lr momentum dampening weight_decay nesterov = Ok o ∧
        0 <= lr ∧ 0 <= momentum ∧ 0 <= weight_decay) ∨
  optim.new_SGD lr momentum dampening weight_decay nesterov = Raise ValueError.
Proof.
  unfold optim.new_SGD. repeat case_bool_decide; try (by right);
    destruct (nesterov && _); try (by right);
    left; eexists; split_and!; try reflexivity; lra.
Qed.

Lemma initial_learning_rate (args : Args) (sgd : optim.SGD) :
  Inner.configure_optimizer args = Ok sgd →
  optim.sgd_lr (Inner.configure_scheduler sgd).1 = lr args.
Proof.
  intros Hsgd. apply new_SGD_ok in Hsgd as (-> & _).
  destruct (multistep_closed_form
              {| optim.sgd_lr := lr args; optim.sgd_momentum := momentum args;
                 optim.sgd_dampening := dampening args;
                 optim.sgd_weight_decay := weight_decay args;
                 optim.sgd_nesterov := nesterov args |}
              [10000; 13000]%Z (1 / 10) 0) as (H & _).
  cbn [Nat.iter nat_rect] in H. unfold Inner.configure_scheduler.
  rewrite H. cbn [optim.sgd_lr].
  assert (Hm : milestones_reached [10000; 13000]%Z (Z.of_nat 0) = 0%nat)
    by reflexivity.
  rewrite Hm. cbn. lra.
Qed.

Section Construction.
Context {InnerParams OuterParams InnerBuf OuterBuf : Type}.
Variable ResNet32 : value → InnerParams → Tensor → result Tensor.
Variable MLP : Z → Z → OuterParams → Tensor → result Tensor.
Variable inner_init : InnerParams.
Variable outer_init : OuterParams.
Variable inner_buf_init : InnerBuf.
Variable outer_buf_init : OuterBuf.
Variable sgd_update :
  optim.SGD → (InnerParams → result Tensor) → InnerParams → InnerBuf →
  InnerParams * InnerBuf.
Variable adam_update :
  optim.Adam → (OuterParams → result Tensor) → OuterParams → OuterBuf →
  OuterParams * OuterBuf.
Variable darts_points :
  (InnerParams → result Tensor) → InnerParams → InnerParams * InnerParams.
Variable step_after_roll_back :
  Problems InnerParams OuterParams InnerBuf OuterBuf →
  result (Problems InnerParams OuterParams InnerBuf OuterBuf).
Variable args : Args.
Variable train_dataloader meta_dataloader : nat → Batch.
Variable test_dataloader : list Batch.

(** X11. A negative [--lr], [--momentum] or [--weight_decay] stops the script
    with [ValueError] when the engine is built, before any training or
    validation; so does, in meta-learning mode, a negative [--meta_lr] or
    [--meta_weight_decay]. *)
Theorem main_refuses_negative_hyperparameters :
  lr args < 0 ∨ momentum args < 0 ∨ weight_decay args < 0 ∨
  (baseline args || retrain args = false ∧
   (meta_lr args < 0 ∨ meta_weight_decay args < 0)) →
  engine inner_init outer_init inner_buf_init outer_buf_init args
    = Raise ValueError ∧
  main ResNet32 MLP inner_init outer_init inner_buf_init outer_buf_init
    sgd_update adam_update darts_points step_after_roll_back args
    train_dataloader meta_dataloader test_dataloader = Raise ValueError.
Proof.
  intros Hneg.
  assert (He : engine inner_init outer_init inner_buf_init outer_buf_init args
               = Raise ValueError).
  { unfold engine, Outer.configure_optimizer, Inner.configure_optimizer.
    assert (Hsgd : lr args < 0 ∨ momentum args < 0 ∨ weight_decay args < 0 →
              optim.new_SGD (lr args) (momentum args) (dampening args)
                (weight_decay args) (nesterov args) = Raise ValueError).
    { intros H. destruct (new_SGD_cases (lr args) (momentum args)
                            (dampening args) (weight_decay args) (nesterov args))
        as [(o & _ & ? & ? & ?) | ->]; [lra | reflexivity]. }
    case_bool_decide as Hin.
    - destruct (new_Adam_cases (meta_lr args) (meta_weight_decay args))
        as [(H1 & H2 & ->) | [_ ->]]; [|reflexivity].
      cbn [mbind result_bind mret result_ret].
      rewrite Hsgd; [reflexivity|].
      destruct Hneg as [?|[?|[?|[_ ?]]]]; auto; lra.
    - cbn [mbind result_bind mret result_ret].
      rewrite Hsgd; [reflexivity|].
      destruct Hneg as [?|[?|[?|[Hmode _]]]]; auto.
      destruct Hin. unfold problems. rewrite Hmode. set_solver. }
  split; [exact He|]. unfold main. by rewrite He.
Qed.

(** X12. With [--baseline] or [--retrain] the outer problem is not handed to
    the engine, so its optimizer is never built: the engine is constructed
    whatever [--meta_lr] and [--meta_weight_decay] are, as soon as the
    inner optimizer's arguments are accepted. *)
Theorem baseline_engine_ignores_meta_hyperparameters (sgd : optim.SGD) :
  baseline args || retrain args = true →
  Inner.configure_optimizer args = Ok sgd →
  ∃ w0,
    engine inner_init outer_init inner_buf_init outer_buf_init args = Ok w0 ∧
    outer_optimizer (state w0) = None ∧
    inner_optimizer (state w0) = (Inner.configure_scheduler sgd).1 ∧
    optim.sgd_lr (inner_optimizer (state w0)) = lr args.
Proof.
  intros Hmode Hsgd. unfold engine.
  rewrite bool_decide_eq_false_2.
  2:{ unfold problems. rewrite Hmode.
      rewrite not_elem_of_cons. split; [discriminate | apply not_elem_of_nil]. }
  cbn [mbind result_bind mret result_ret]. rewrite Hsgd.
  cbn [mbind result_bind].
  destruct (Inner.configure_scheduler sgd) as [sgd0 sch] eqn:Hsch.
  eexists. split; [reflexivity|]. cbn. split_and!; try reflexivity.
  pose proof (initial_learning_rate args sgd Hsgd) as H0.
  by rewrite Hsch in H0.
Qed.
End Construction.

(** ** Files across iterations *)

Lemma string_length_app (s t : string) :
  String.length (s +:+ t) = (String.length s + String.length t)%nat.
Proof.
  induction s as [|c s IH]; [reflexivity|].
  change (S (String.length (s +:+ t)) = S (String.length s + String.length t)).
  by f_equal.
Qed.

Lemma string_app_inj_r (t x y : string) : x +:+ t = y +:+ t → x = y.
Proof.
  revert y. induction x as [|a x IH]; intros [|b y] H.
  - reflexivity.
  - apply (f_equal String.length) in H.
    change (String.length t = S (String.length (y +:+ t))) in H.
    rewrite string_length_app in H. lia.
  - apply (f_equal String.length) in H.
    change (S (String.length (x +:+ t)) = String.length t) in H.
    rewrite string_length_app in H. lia.
  - change (String a (x +:+ t) = String b (y +:+ t)) in H.
    injection H as -> H. f_equal. by apply IH.
Qed.

Lemma net_path_inj (args : Args) (g g' : Z) :
  ReweightingEngine.net_path args g = ReweightingEngine.net_path args g' → g = g'.
Proof.
  unfold ReweightingEngine.net_path. intros H.
  apply String.app_inj, String.app_inj, string_app_inj_r in H.
  by apply pretty_Z_inj.
Qed.

Lemma meta_net_path_inj (args : Args) (g g' : Z) :
  ReweightingEngine.meta_net_path args g = ReweightingEngine.meta_net_path args g' →
  g = g'.
Proof.
  unfold ReweightingEngine.meta_net_path. intros H.
  apply String.app_inj, String.app_inj, string_app_inj_r in H.
  by apply pretty_Z_inj.
Qed.

Lemma net_path_ne_meta_net_path_at (args : Args) (g g' : Z) :
  ReweightingEngine.net_path args g ≠ ReweightingEngine.meta_net_path args g'.
Proof.
  unfold ReweightingEngine.net_path, ReweightingEngine.meta_net_path.
  intros H. apply String.app_inj in H. discriminate.
Qed.

(** The checkpoint paths of a step differ from those of every later
    step. *)
Lemma later_paths_differ (args : Args) (g gs g' : Z) :
  (g ≤ gs)%Z → (gs < g')%Z →
  (ReweightingEngine.net_path args g ≠ ReweightingEngine.net_path args g' ∧
   ReweightingEngine.net_path args g ≠ ReweightingEngine.meta_net_path args g') ∧
  (ReweightingEngine.meta_net_path args g ≠ ReweightingEngine.net_path args g' ∧
   ReweightingEngine.meta_net_path args g ≠ ReweightingEngine.meta_net_path args g').
Proof.
  intros Hg Hg'. split_and!.
  - intros H. apply net_path_inj in H. lia.
  - apply net_path_ne_meta_net_path_at.
  - apply not_eq_sym, net_path_ne_meta_net_path_at.
  - intros H. apply meta_net_path_inj in H. lia.
Qed.

(** X13. Checkpoints of different steps have different paths, and a path of
    the inner network is never a path of the outer network. *)
Theorem checkpoint_paths_distinct (args : Args) (g g' : Z) :
  (ReweightingEngine.net_path args g = ReweightingEngine.net_path args g' → g = g') ∧
  (ReweightingEngine.meta_net_path args g = ReweightingEngine.meta_net_path args g'
     → g = g') ∧
  ReweightingEngine.net_path args g ≠ ReweightingEngine.meta_net_path args g'.
Proof.
  split_and!;
    [apply net_path_inj | apply meta_net_path_inj
    | apply net_path_ne_meta_net_path_at].
Qed.

Section Disk.
Context {InnerParams OuterParams InnerBuf OuterBuf : Type}.
Variable ResNet32 : value → InnerParams → Tensor → result Tensor.
Variable MLP : Z → Z → OuterParams → Tensor → result Tensor.
Variable sgd_update :
  optim.SGD → (InnerParams → result Tensor) → InnerParams → InnerBuf →
  InnerParams * InnerBuf.
Variable adam_update :
  optim.Adam → (OuterParams → result Tensor) → OuterParams → OuterBuf →
  OuterParams * OuterBuf.
Variable darts_points :
  (InnerParams → result Tensor) → InnerParams → InnerParams * InnerParams.
Variable step_after_roll_back :
  Problems InnerParams OuterParams InnerBuf OuterBuf →
  result (Problems InnerParams OuterParams InnerBuf OuterBuf).
Variable args : Args.
Variable train_dataloader meta_dataloader : nat → Batch.
Variable test_dataloader : list Batch.

Abbreviation World := (World InnerParams OuterParams InnerBuf OuterBuf).
Abbreviation iteration :=
  (engine_iteration ResNet32 MLP sgd_update adam_update darts_points step_after_roll_back
     args train_dataloader meta_dataloader test_dataloader).

(** What one iteration does to the files. *)
Lemma iteration_disk (it : Z) (w w' : World) :
  iteration it w = Ok w' →
  (((it mod 500)%Z ≠ 0%Z ∨ baseline args || retrain args = true) ∧
   disk w' = disk w) ∨
  (baseline args || retrain args = false ∧ (it mod 500)%Z = 0%Z ∧
   ∃ θ φ,
     disk w' =
       <[ReweightingEngine.meta_net_path args (global_step w + 1) :=
           outer_state_dict φ]>
         (<[ReweightingEngine.net_path args (global_step w + 1) :=
              inner_state_dict θ]> (disk w))).
Proof.
  unfold engine_iteration, Engine.run_iteration.
  destruct (Engine.train_step _ _ _ _ _ _ _ _ _ _ _ _ _ _ _) as [w2|] eqn:Htrain;
    [|discriminate].
  apply train_step_frame in Htrain as (Hg & Hb & Hd & Hl). cbn in Hg, Hb, Hd, Hl.
  cbn [mbind result_bind]. unfold mod_.
  cbn [engine_config betty.valid_step].
  rewrite (bool_decide_eq_false_2 (500 = 0)%Z) by lia. cbn [mbind result_bind].
  case_bool_decide as Hit.
  - destruct (ReweightingEngine.validation _ _ _ _ w2) as [[w3 [acc best]]|] eqn:Hval;
      [|discriminate].
    apply validation_spec in Hval
      as (_ & _ & _ & _ & _ & _ & _ & _ & _ & _ & _ & Hdisk).
    cbn. intros [= <-]. cbn. rewrite Hdisk, Hd, Hg.
    destruct (retrain args), (baseline args); cbn; auto.
    right. split_and!; try done. eauto.
  - cbn. intros [= <-]. left. by split; [left|].
Qed.

(** Files written before are not touched by the iterations that follow:
    a path that is no checkpoint path of a later step keeps its content. *)
Lemma loop_keeps_other_paths (its : list Z) (w w' : World) (path : string)
    (v : option (saved InnerParams OuterParams)) :
  for_each its iteration w = Ok w' →
  (∀ g, (global_step w < g)%Z →
     path ≠ ReweightingEngine.net_path args g ∧
     path ≠ ReweightingEngine.meta_net_path args g) →
  disk w !! path = v → disk w' !! path = v.
Proof.
  revert w. induction its as [|it its IH]; intros w; cbn [for_each].
  - by intros [= <-].
  - destruct (iteration it w) as [w1|] eqn:Hit; [|discriminate].
    cbn [mbind result_bind]. intros Hrest Hpath Hv.
    pose proof (iteration_spec _ _ _ _ _ _ _ _ _ _ _ _ _ Hit) as [Hg1 _].
    apply (IH w1 Hrest).
    + intros g Hg. apply Hpath. lia.
    + apply iteration_disk in Hit as [[_ ->] | (_ & _ & θ & φ & ->)]; [done|].
      destruct (Hpath (global_step w + 1)%Z ltac:(lia)) as [H1 H2].
      by rewrite !lookup_insert_ne.
Qed.

(** X14. A checkpoint, once written, stays as it is to the end of the run: the
    iterations that follow write under the paths of later steps only. *)
Theorem checkpoints_are_never_overwritten (its : list Z) (w w' : World)
    (g : Z) :
  for_each its iteration w = Ok w' →
  (g ≤ global_step w)%Z →
  disk w' !! ReweightingEngine.net_path args g
    = disk w !! ReweightingEngine.net_path args g ∧
  disk w' !! ReweightingEngine.meta_net_path args g
    = disk w !! ReweightingEngine.meta_net_path args g.
Proof.
  intros Hloop Hg. split.
  - eapply loop_keeps_other_paths; [exact Hloop | | reflexivity].
    intros g' Hg'. by apply (later_paths_differ args g (global_step w) g').
  - eapply loop_keeps_other_paths; [exact Hloop | | reflexivity].
    intros g' Hg'. by apply (later_paths_differ args g (global_step w) g').
Qed.

(** X15. With [--baseline] or [--retrain] no iteration writes a file. *)
Theorem baseline_run_writes_nothing (its : list Z) (w w' : World) :
  baseline args || retrain args = true →
  for_each its iteration w = Ok w' →
  disk w' = disk w.
Proof.
  intros Hmode. revert w. induction its as [|it its IH]; intros w; cbn [for_each].
  - by intros [= <-].
  - destruct (iteration it w) as [w1|] eqn:Hit; [|discriminate].
    cbn [mbind result_bind]. intros Hrest.
    rewrite (IH _ Hrest).
    apply iteration_disk in Hit as [[_ ->] | (Hm & _)]; [done|]. congruence.
Qed.

(** In meta-learning mode a loop of iterations leaves one checkpoint of
    each network for every step at which it has validated. *)
Lemma loop_checkpoints (its : list Z) (w w' : World) (g : Z) :
  baseline args || retrain args = false →
  for_each its iteration w = Ok w' →
  g ∈ validated_steps 500 (global_step w) its →
  (∃ θ, disk w' !! ReweightingEngine.net_path args g = Some (inner_state_dict θ)) ∧
  (∃ φ, disk w' !! ReweightingEngine.meta_net_path args g
          = Some (outer_state_dict φ)).
Proof.
  intros Hmode. revert w. induction its as [|it its IH]; intros w;
    cbn [for_each validated_steps].
  - intros _ H. by apply elem_of_nil in H.
  - destruct (iteration it w) as [w1|] eqn:Hit; [|discriminate].
    cbn [mbind result_bind]. intros Hrest Hin.
    pose proof (iteration_spec _ _ _ _ _ _ _ _ _ _ _ _ _ Hit) as [Hg1 _].
    apply elem_of_app in Hin as [Hin | Hin].
    + case_bool_decide as Hmod; [|by apply elem_of_nil in Hin].
      apply list_elem_of_singleton in Hin as ->.
      rewrite (loop_keeps_other_paths its w1 w'
                 (ReweightingEngine.net_path args (global_step w + 1)) _ Hrest)
        by (first [reflexivity | intros g' Hg';
              apply (later_paths_differ args _ (global_step w1) g'); lia]).
      rewrite (loop_keeps_other_paths its w1 w'
                 (ReweightingEngine.meta_net_path args (global_step w + 1)) _ Hrest)
        by (first [reflexivity | intros g' Hg';
              apply (later_paths_differ args _ (global_step w1) g'); lia]).
      apply iteration_disk in Hit as [[[Hne | Hb] _] | (_ & _ & θ & φ & ->)].
      * done.
      * congruence.
      * split; [exists θ | exists φ].
        -- rewrite lookup_insert_ne
             by (apply not_eq_sym, net_path_ne_meta_net_path_at).
           by rewrite lookup_insert_eq.
        -- by rewrite lookup_insert_eq.
    + rewrite <- Hg1 in Hin. by apply (IH w1).
Qed.
End Disk.

(** ** Steps and learning rate across a run *)

Section Stepping.
Context {InnerParams OuterParams InnerBuf OuterBuf : Type}.
Variable ResNet32 : value → InnerParams → Tensor → result Tensor.
Variable MLP : Z → Z → OuterParams → Tensor → result Tensor.
Variable inner_init : InnerParams.
Variable outer_init : OuterParams.
Variable inner_buf_init : InnerBuf.
Variable outer_buf_init : OuterBuf.
Variable sgd_update :
  optim.SGD → (InnerParams → result Tensor) → InnerParams → InnerBuf →
  InnerParams * InnerBuf.
Variable adam_update :
  optim.Adam → (OuterParams → result Tensor) → OuterParams → OuterBuf →
  OuterParams * OuterBuf.
Variable darts_points :
  (InnerParams → result Tensor) → InnerParams → InnerParams * InnerParams.
Variable step_after_roll_back :
  Problems InnerParams OuterParams InnerBuf OuterBuf →
  result (Problems InnerParams OuterParams InnerBuf OuterBuf).
Variable args : Args.
Variable train_dataloader meta_dataloader : nat → Batch.
Variable test_dataloader : list Batch.

Abbreviation Problems := (Problems InnerParams OuterParams InnerBuf OuterBuf).
Abbreviation World := (World InnerParams OuterParams InnerBuf OuterBuf).
Abbreviation updated :=
  (updated_inner_params ResNet32 MLP sgd_update args train_dataloader).
Abbreviation step_normal_of :=
  (engine_step_normal ResNet32 MLP sgd_update adam_update darts_points args
     train_dataloader meta_dataloader).
Abbreviation train_step_of :=
  (Engine.train_step ResNet32 MLP args train_dataloader meta_dataloader
     sgd_update adam_update darts_points step_after_roll_back outer_config inner_config
     (engine_config args) (problems args) (dependencies args)).
Abbreviation iteration :=
  (engine_iteration ResNet32 MLP sgd_update adam_update darts_points step_after_roll_back
     args train_dataloader meta_dataloader test_dataloader).

Abbreviation points_of :=
  (hypergradient_points ResNet32 MLP sgd_update darts_points args
     train_dataloader meta_dataloader).

(** What a successful descent of the outer problem has called. *)
Lemma outer_descent_inv (u : OuterParams → InnerParams) (s s2 : Problems)
    (n : nat) :
  baseline args || retrain args = false →
  inner_drawn s = S n →
  Engine.outer_descent ResNet32 MLP args train_dataloader meta_dataloader
    adam_update darts_points (problems args) (dependencies args) u s = Ok s2 →
  ∃ out adam loss_p loss_n,
    Outer.training_step
      (attr (problems args) inner (Inner.forward ResNet32 args (inner_params s)))
      (meta_dataloader (outer_drawn s)) = Ok out ∧
    outer_optimizer s = Some adam ∧
    Inner.training_step ResNet32 args
      (darts_points (meta_loss ResNet32 args meta_dataloader s) (inner_params s)).1
      (Some (Outer.forward MLP args (outer_params s))) (train_dataloader n)
      = Ok loss_p ∧
    Inner.training_step ResNet32 args
      (darts_points (meta_loss ResNet32 args meta_dataloader s) (inner_params s)).2
      (Some (Outer.forward MLP args (outer_params s))) (train_dataloader n)
      = Ok loss_n.
Proof.
  intros Hmode Hdrawn.
  unfold Engine.outer_descent, Outer.configure_train_data_loader.
  destruct (Outer.training_step _ _) as [out|]; [|discriminate].
  cbn [mbind result_bind].
  unfold Engine.darts, Engine.inner_cur_batch.
  rewrite meta_children by assumption.
  rewrite bool_decide_eq_true_2 by (apply list_elem_of_singleton; reflexivity).
  rewrite Hdrawn. unfold Inner.configure_train_data_loader.
  cbn [mbind result_bind mret result_ret].
  rewrite attr_outer_meta by assumption.
  fold (meta_loss ResNet32 args meta_dataloader s).
  destruct (Inner.training_step ResNet32 args
              (darts_points (meta_loss ResNet32 args meta_dataloader s)
                 (inner_params s)).1 _ _) as [loss_p|]; [|discriminate].
  cbn [mbind result_bind].
  destruct (Inner.training_step ResNet32 args
              (darts_points (meta_loss ResNet32 args meta_dataloader s)
                 (inner_params s)).2 _ _) as [loss_n|]; [|discriminate].
  cbn [mbind result_bind].
  destruct (outer_optimizer s) as [adam|]; [|discriminate].
  intros _. by exists out, adam, loss_p, loss_n.
Qed.

(** What a successful [step_normal] of the inner problem has done. *)
Lemma step_normal_inner_inv (u0 : OuterParams → InnerParams) (s s' : Problems) :
  step_normal_of inner u0 s = Ok s' →
  ∃ loss,
    Inner.training_step ResNet32 args (inner_params s)
      (attr (problems args) outer (Outer.forward MLP args (outer_params s)))
      (train_dataloader (inner_drawn s)) = Ok loss ∧
    inner_params s' = updated s ∧
    inner_count s' = (inner_count s + 1)%Z ∧
    (inner_optimizer s', inner_scheduler s') =
      optim.scheduler_step (inner_optimizer s, inner_scheduler s) ∧
    if baseline args || retrain args then
      outer_params s' = outer_params s ∧ outer_count s' = outer_count s ∧
      calls s' = calls s ++
        [inner_training_step (inner_params s)
           (train_dataloader (inner_drawn s)) loss]
    else
      ∃ out loss_p loss_n,
        Outer.training_step
          (Some (Inner.forward ResNet32 args (updated s)))
          (meta_dataloader (outer_drawn s)) = Ok out ∧
        outer_count s' = (outer_count s + 1)%Z ∧
        calls s' = calls s ++
          [inner_training_step (inner_params s)
             (train_dataloader (inner_drawn s)) loss;
           outer_training_step (updated s)
             (meta_dataloader (outer_drawn s)) out;
           inner_training_step (points_of s).1
             (train_dataloader (inner_drawn s)) loss_p;
           inner_training_step (points_of s).2
             (train_dataloader (inner_drawn s)) loss_n].
Proof.
  unfold engine_step_normal. change Engine.recursion_limit with (S (S 998)).
  cbn [Engine.step_normal].
  destruct (Engine.inner_descent _ _ _ _ _ _ s) as [[s1 u]|] eqn:Hd;
    [|discriminate].
  assert (Hloss : ∃ loss,
    Inner.training_step ResNet32 args (inner_params s)
      (attr (problems args) outer (Outer.forward MLP args (outer_params s)))
      (train_dataloader (inner_drawn s)) = Ok loss).
  { revert Hd. unfold Engine.inner_descent, Inner.configure_train_data_loader.
    destruct (Inner.training_step _ _ _ _ _) as [loss|]; [eauto | discriminate]. }
  destruct Hloss as [loss Hloss].
  destruct (inner_descent_ok ResNet32 MLP sgd_update args train_dataloader s loss Hloss)
    as (s1' & u' & Hd' & Hθ & Hc & Hφ & Hb & Ho & Hoc & Hod & Hio & Hisch & Hcalls
        & Hdrawn).
  rewrite Hd' in Hd. injection Hd as -> ->.
  cbn [mbind result_bind mret result_ret].
  cbn [Engine.config inner_config outer_config betty.unroll_steps].
  rewrite mod_1. cbn [mbind result_bind].
  rewrite bool_decide_eq_true_2 by reflexivity.
  destruct (baseline args || retrain args) eqn:Hmode.
  - rewrite baseline_parents by assumption. cbn [for_each]. intros [= <-].
    exists loss. split_and!; try assumption.
    rewrite Hio, Hisch. by destruct (optim.scheduler_step _).
  - rewrite meta_parents_inner by assumption. cbn [for_each].
    destruct (Engine.outer_descent _ _ _ _ _ _ _ _ _ u s1) as [s2|] eqn:Hd2;
      [|discriminate].
    cbn [mbind result_bind mret result_ret].
    rewrite mod_1. cbn [mbind result_bind].
    rewrite bool_decide_eq_true_2 by reflexivity.
    rewrite meta_parents_outer. cbn [for_each]. intros [= <-].
    destruct (outer_descent_inv u s1 s2 (inner_drawn s) Hmode Hdrawn Hd2)
      as (out & adam & loss_p & loss_n & Hout & Hadam & Hp & Hn).
    destruct (outer_descent_ok ResNet32 MLP adam_update darts_points args
                train_dataloader meta_dataloader u s1
                out adam (inner_drawn s) loss_p loss_n Hmode Hout Hadam Hdrawn
                Hp Hn)
      as (s2' & Hd2' & Hθ2 & Hio2 & Hisch2 & Hc2 & Hoc2 & Ho2 & Hcalls2).
    rewrite Hd2' in Hd2. injection Hd2 as ->.
    assert (Hpoints :
      darts_points (meta_loss ResNet32 args meta_dataloader s1) (inner_params s1)
      = points_of s).
    { unfold hypergradient_points.
      by rewrite (meta_loss_drawn ResNet32 args meta_dataloader s s1 Hod), Hθ. }
    exists loss. split_and!; try assumption.
    + by rewrite Hθ2.
    + by rewrite Hc2.
    + rewrite Hio2, Hisch2, Hio, Hisch. by destruct (optim.scheduler_step _).
    + exists out, loss_p, loss_n. rewrite attr_inner, Hθ, Hod in Hout. split_and!.
      * exact Hout.
      * by rewrite Hoc2, Hoc.
      * rewrite Hcalls2, Hcalls, Hpoints, Hθ, Hod, <- app_assoc. reflexivity.
Qed.

Lemma train_step_is_step_normal (w w' : World) :
  rollback args = false →
  train_step_of w = Ok w' →
  step_normal_of inner (λ _, inner_params (state w)) (state w) = Ok (state w').
Proof.
  intros Hrb. unfold Engine.train_step. rewrite leaves_inner.
  cbn [for_each]. unfold Engine.step.
  cbn [engine_config betty.roll_back]. rewrite Hrb.
  unfold engine_step_normal.
  destruct (Engine.step_normal _ _ _ _ _ _ _ _ _ _ _ _ _ _ _ _) as [s1|];
    [|discriminate].
  cbn. by intros [= <-].
Qed.

(** X17. With [--baseline] or [--retrain] (and roll-back off) a training step of
    the engine is one call of [Inner.training_step], made without the
    attribute [self.outer]; the outer problem is not stepped and keeps its
    parameters. *)
Theorem baseline_train_step_leaves_outer_alone (w w' : World) :
  baseline args || retrain args = true →
  rollback args = false →
  train_step_of w = Ok w' →
  ∃ loss,
    Inner.training_step ResNet32 args (inner_params (state w)) None
      (train_dataloader (inner_drawn (state w))) = Ok loss ∧
    calls (state w') = calls (state w) ++
      [inner_training_step (inner_params (state w))
         (train_dataloader (inner_drawn (state w))) loss] ∧
    outer_params (state w') = outer_params (state w) ∧
    outer_count (state w') = outer_count (state w) ∧
    inner_count (state w') = (inner_count (state w) + 1)%Z.
Proof.
  intros Hmode Hrb Hstep.
  apply train_step_is_step_normal in Hstep; [|assumption].
  apply step_normal_inner_inv in Hstep
    as (loss & Hloss & _ & Hc & _ & Hrest).
  rewrite Hmode in Hrest. destruct Hrest as (Hφ & Hoc & Hcalls).
  exists loss. split_and!; try assumption.
  rewrite attr_notin in Hloss; [assumption|].
  unfold problems. rewrite Hmode.
  rewrite not_elem_of_cons. split; [discriminate | apply not_elem_of_nil].
Qed.

Lemma iteration_stepped (sgd : optim.SGD) (n : nat) (it : Z) (w w' : World) :
  rollback args = false →
  iteration it w = Ok w' →
  stepped args sgd n (state w) → stepped args sgd (S n) (state w').
Proof.
  intros Hrb. unfold engine_iteration, Engine.run_iteration.
  destruct (Engine.train_step _ _ _ _ _ _ _ _ _ _ _ _ _ _ _) as [w2|] eqn:Htrain;
    [|discriminate].
  apply train_step_is_step_normal in Htrain; [|assumption].
  cbn [state] in Htrain.
  apply step_normal_inner_inv in Htrain
    as (loss & _ & _ & Hc & Hsch & Hrest).
  cbn [mbind result_bind].
  destruct (mod_ it _) as [r|]; [|discriminate]. cbn [mbind result_bind].
  assert (Hs2 : stepped args sgd n (state w) → stepped args sgd (S n) (state w2)).
  { intros (Kc & Ksch & Koc & Kcalls). unfold stepped.
    rewrite Nat.iter_succ, <- Ksch, Hsch, Hc, Kc.
    destruct (baseline args || retrain args).
    - destruct Hrest as (_ & -> & ->). rewrite length_app, Kcalls, Koc.
      cbn [length]. split_and!; try reflexivity; lia.
    - destruct Hrest as (out & loss_p & loss_n & _ & -> & ->).
      rewrite length_app, Kcalls, Koc.
      cbn [length]. split_and!; try reflexivity; lia. }
  case_bool_decide.
  - destruct (ReweightingEngine.validation _ _ _ _ w2) as [[w3 [acc best]]|] eqn:Hval;
      [|discriminate].
    apply validation_spec in Hval
      as (_ & _ & _ & _ & _ & _ & _ & _ & Hstate & _).
    cbn. intros [= <-]. cbn [state]. rewrite Hstate. exact Hs2.
  - cbn. intros [= <-]. exact Hs2.
Qed.

Lemma loop_stepped (sgd : optim.SGD) (its : list Z) (n : nat) (w w' : World) :
  rollback args = false →
  for_each its iteration w = Ok w' →
  stepped args sgd n (state w) → stepped args sgd (n + length its) (state w').
Proof.
  intros Hrb. revert n w. induction its as [|it its IH]; intros n w; cbn [for_each].
  - intros [= <-]. by rewrite Nat.add_0_r.
  - destruct (iteration it w) as [w1|] eqn:Hit; [|discriminate].
    cbn [mbind result_bind length]. intros Hrest Hn.
    rewrite <- Nat.add_succ_comm. apply (IH _ w1 Hrest).
    by eapply iteration_stepped.
Qed.

(** X18. With roll-back off, a run that returns has stepped the inner problem
    15000 times and the outer problem as often in meta-learning mode and
    never otherwise; it has called the [training_step] methods 60000 times
    in meta-learning mode (per step [Inner.training_step],
    [Outer.training_step] and the two calls of [Inner.training_step] of the
    hypergradient) and 15000 times otherwise, and has left the inner
    learning rate at a hundredth of [--lr]. *)
Theorem run_steps_and_final_learning_rate (w0 w' : World) :
  rollback args = false →
  engine inner_init outer_init inner_buf_init outer_buf_init args = Ok w0 →
  engine_run ResNet32 MLP sgd_update adam_update darts_points step_after_roll_back
    args train_dataloader meta_dataloader test_dataloader w0 = Ok w' →
  inner_count (state w') = 15000%Z ∧
  outer_count (state w') =
    (if baseline args || retrain args then 0 else 15000)%Z ∧
  length (calls (state w')) =
    Z.to_nat (if baseline args || retrain args then 15000 else 60000) ∧
  optim.sgd_lr (inner_optimizer (state w')) = lr args * (1 / 10) * (1 / 10).
Proof.
  intros Hrb Hengine Hrun.
  assert (Hinit : ∃ sgd, Inner.configure_optimizer args = Ok sgd ∧
                         stepped args sgd 0 (state w0)).
  { revert Hengine. unfold engine.
    destruct (if bool_decide (outer ∈ problems args) then _ else _) as [adam|];
      [|discriminate].
    cbn [mbind result_bind].
    destruct (Inner.configure_optimizer args) as [sgd|] eqn:Hsgd; [|discriminate].
    cbn [mbind result_bind].
    destruct (Inner.configure_scheduler sgd) as [sgd0 sch] eqn:Hsch.
    cbn. intros [= <-]. exists sgd. split; [reflexivity|].
    unfold stepped.
    cbn [state inner_count inner_optimizer inner_scheduler outer_count calls
         length Nat.iter nat_rect].
    rewrite Hsch. by destruct (baseline args || retrain args). }
  destruct Hinit as (sgd & Hsgd & H0).
  rewrite engine_run_unfold in Hrun.
  pose proof (loop_stepped sgd _ 0 _ _ Hrb Hrun H0) as (Kc & Ksch & Koc & Kcalls).
  rewrite length_range_script in *. cbn [Nat.add] in *.
  rewrite Z2Nat.id in Kc, Koc by lia.
  split_and!.
  - exact Kc.
  - exact Koc.
  - rewrite Kcalls. destruct (baseline args || retrain args); [reflexivity|].
    lia.
  - apply new_SGD_ok in Hsgd as (-> & _).
    destruct (multistep_closed_form
                {| optim.sgd_lr := lr args; optim.sgd_momentum := momentum args;
                   optim.sgd_dampening := dampening args;
                   optim.sgd_weight_decay := weight_decay args;
                   optim.sgd_nesterov := nesterov args |}
                [10000; 13000]%Z (1 / 10) (Z.to_nat 15000)) as (H & _).
    unfold Inner.configure_scheduler in Ksch. rewrite <- Ksch in H.
    cbn [fst optim.sgd_lr] in H. rewrite H, Z2Nat.id by lia.
    assert (Hm : milestones_reached [10000; 13000]%Z 15000 = 2%nat)
      by reflexivity.
    rewrite Hm. cbn. lra.
Qed.
End Stepping.

(** ** The checkpoints of a whole run *)

Lemma elem_of_count_from (k a : Z) (n : nat) :
  (a ≤ k < a + Z.of_nat n)%Z → k ∈ count_from a n.
Proof.
  revert a. induction n as [|n IH]; intros a Hk; [lia|].
  cbn [count_from]. destruct (decide (k = a)) as [->|Hne]; [by left|].
  right. apply IH. lia.
Qed.

Section Sixty.
Context {InnerParams OuterParams InnerBuf OuterBuf : Type}.
Variable ResNet32 : value → InnerParams → Tensor → result Tensor.
Variable MLP : Z → Z → OuterParams → Tensor → result Tensor.
Variable sgd_update :
  optim.SGD → (InnerParams → result Tensor) → InnerParams → InnerBuf →
  InnerParams * InnerBuf.
Variable adam_update :
  optim.Adam → (OuterParams → result Tensor) → OuterParams → OuterBuf →
  OuterParams * OuterBuf.
Variable darts_points :
  (InnerParams → result Tensor) → InnerParams → InnerParams * InnerParams.
Variable step_after_roll_back :
  Problems InnerParams OuterParams InnerBuf OuterBuf →
  result (Problems InnerParams OuterParams InnerBuf OuterBuf).
Variable args : Args.
Variable train_dataloader meta_dataloader : nat → Batch.
Variable test_dataloader : list Batch.

(** X16. In meta-learning mode a run that returns leaves on disk, for each of
    the thirty steps 500, 1000, ..., 15000 after its start, a checkpoint of
    the inner network and a checkpoint of the outer network. *)
Theorem run_leaves_sixty_checkpoints
    (w w' : World InnerParams OuterParams InnerBuf OuterBuf) (k : Z) :
  baseline args || retrain args = false →
  engine_run ResNet32 MLP sgd_update adam_update darts_points step_after_roll_back
    args train_dataloader meta_dataloader test_dataloader w = Ok w' →
  (1 ≤ k ≤ 30)%Z →
  (∃ θ, disk w' !! ReweightingEngine.net_path args (global_step w + 500 * k)
          = Some (inner_state_dict θ)) ∧
  (∃ φ, disk w' !! ReweightingEngine.meta_net_path args (global_step w + 500 * k)
          = Some (outer_state_dict φ)).
Proof.
  intros Hmode Hrun Hk. rewrite engine_run_unfold in Hrun.
  eapply loop_checkpoints; [exact Hmode | exact Hrun |].
  rewrite validated_steps_script.
  apply list_elem_of_In, in_map_iff. exists k. split; [reflexivity|].
  apply list_elem_of_In. unfold range. apply elem_of_count_from.
  change (Z.to_nat (31 - 1)) with 30%nat. lia.
Qed.

(** A validation returns as soon as the loop over the test batches
    returns and has counted a sample. *)
Lemma validation_returns (w : World InnerParams OuterParams InnerBuf OuterBuf)
    (correct total : Z) :
  for_each test_dataloader
    (ReweightingEngine.test_batch
       (Inner.forward ResNet32 args (inner_params (state w)))) (0%Z, 0%Z)
    = Ok (correct, total) →
  total ≠ 0%Z →
  ∃ w' stats,
    ReweightingEngine.validation ResNet32 args test_dataloader (problems args) w
      = Ok (w', stats).
Proof.
  intros Hloop Ht. unfold ReweightingEngine.validation. rewrite attr_inner.
  cbn [getattr mbind result_bind]. rewrite Hloop.
  cbn [mbind result_bind]. unfold truediv.
  rewrite bool_decide_eq_false_2 by assumption. cbn [mbind result_bind].
  destruct (negb (retrain args) && negb (baseline args)) eqn:Hsave.
  - rewrite attr_outer_meta.
    + cbn [getattr mbind result_bind mret result_ret]. by eexists _, _.
    + apply andb_prop in Hsave as [Hr Hb].
      apply negb_true_iff in Hr, Hb. by rewrite Hr, Hb.
  - cbn [mbind result_bind mret result_ret]. by eexists _, _.
Qed.
End Sixty.

(** ** Sample runs for the properties above *)

Lemma sample_plain_step (args : Args) (θ : unit)
    (outer : option (Tensor → result Tensor)) :
  baseline args || retrain args = true →
  Inner.training_step Sample.echo_net args θ outer Sample.batch2
    = Ok Sample.plain_loss2.
Proof.
  intros Hmode. unfold Inner.training_step, Sample.batch2.
  change (Inner.forward Sample.echo_net args θ Sample.two_by_two)
    with (Ok Sample.two_by_two : result Tensor).
  cbn [mbind result_bind]. rewrite Hmode.
  rewrite (cross_entropy_ok _ _ 2) by (first [reflexivity | repeat constructor]).
  reflexivity.
Qed.

Lemma sample_outer_step_any (args : Args) (θ : unit) :
  Outer.training_step (Some (Inner.forward Sample.echo_net args θ))
    Sample.batch2 = Ok Sample.meta_output2.
Proof.
  apply (Outer_training_step_ok _ Sample.two_by_two [0; 1]%nat
           Sample.two_by_two 2);
    [discriminate | reflexivity | reflexivity | repeat constructor].
Qed.

Lemma sample_unit_step :
  Outer.forward Sample.one_net default_args tt
    {| shape := [2; 1]%nat;
       data := imap (λ i y, nll_row (block i 2 (data Sample.two_by_two)) y)
                 [0; 1]%nat;
       requires_grad := false |}
  = Ok {| shape := [2; 1]%nat; data := [1; 1]; requires_grad := true |}.
Proof. reflexivity. Qed.

Lemma sample_half_step :
  Outer.forward Sample.half_net default_args tt
    {| shape := [2; 1]%nat;
       data := imap (λ i y, nll_row (block i 2 (data Sample.two_by_two)) y)
                 [0; 1]%nat;
       requires_grad := false |}
  = Ok {| shape := [2; 1]%nat; data := [1 / 2; 1 / 2]; requires_grad := true |}.
Proof. reflexivity. Qed.

Lemma sample_test_pair (args : Args) (θ : unit) :
  for_each Sample.test_pair
    (ReweightingEngine.test_batch (Inner.forward Sample.echo_net args θ))
    (0%Z, 0%Z) = Ok (3%Z, 3%Z).
Proof. reflexivity. Qed.

Lemma sample_optimizer (b : bool) (meta_rate : R) :
  Inner.configure_optimizer (Sample.with_rates b (1 / 10) meta_rate)
    = Ok Sample.sgd0.
Proof.
  unfold Inner.configure_optimizer, optim.new_SGD.
  cbn [lr momentum dampening weight_decay nesterov Sample.with_rates default_args].
  rewrite !bool_decide_eq_false_2 by lra. reflexivity.
Qed.

Lemma sample_baseline_train_step (w : World unit unit unit unit) :
  ∃ w1,
    Engine.train_step Sample.echo_net Sample.half_net
      (Sample.with_flags true false) Sample.loader Sample.loader
      Sample.sgd_keep Sample.adam_keep Sample.darts_keep Sample.no_roll_back
      outer_config inner_config (engine_config (Sample.with_flags true false))
      (problems (Sample.with_flags true false))
      (dependencies (Sample.with_flags true false)) w = Ok w1.
Proof.
  unfold Engine.train_step. rewrite leaves_inner. cbn [for_each state].
  unfold Engine.step.
  destruct (step_normal_baseline Sample.echo_net Sample.half_net Sample.sgd_keep
              Sample.adam_keep Sample.darts_keep (Sample.with_flags true false) Sample.loader
              Sample.loader (state w) (λ _, inner_params (state w))
              Sample.plain_loss2) as (s' & Hstep & _).
  { reflexivity. }
  { by apply sample_plain_step. }
  unfold engine_step_normal in Hstep. rewrite Hstep.
  cbn [mbind result_bind mret result_ret engine_config betty.roll_back
       rollback Sample.with_flags default_args].
  by eexists.
Qed.

Lemma sample_baseline_iteration (it : Z) (w : World unit unit unit unit) :
  ∃ w1,
    engine_iteration Sample.echo_net Sample.half_net Sample.sgd_keep
      Sample.adam_keep Sample.darts_keep Sample.no_roll_back (Sample.with_flags true false)
      Sample.loader Sample.loader Sample.test_set it w = Ok w1.
Proof.
  unfold engine_iteration, Engine.run_iteration.
  match goal with
  | |- context [Engine.train_step _ _ _ _ _ _ _ _ _ _ _ _ _ _ ?w0] =>
      destruct (sample_baseline_train_step w0) as (w1 & ->)
  end.
  cbn [mbind result_bind engine_config betty.valid_step].
  unfold mod_. rewrite (bool_decide_eq_false_2 (500 = 0)%Z) by lia.
  cbn [mbind result_bind].
  case_bool_decide.
  - match goal with
    | |- context [ReweightingEngine.validation _ _ _ _ ?w2] =>
        destruct (sample_validation_any (Sample.with_flags true false) w2)
          as (w3 & [acc best] & Hval)
    end.
    rewrite Hval. cbn [mbind result_bind mret result_ret]. by eexists.
  - by eexists.
Qed.

Lemma sample_baseline_loop (its : list Z) (w : World unit unit unit unit) :
  ∃ w',
    for_each its
      (engine_iteration Sample.echo_net Sample.half_net Sample.sgd_keep
         Sample.adam_keep Sample.darts_keep Sample.no_roll_back (Sample.with_flags true false)
         Sample.loader Sample.loader Sample.test_set) w = Ok w'.
Proof.
  destruct (for_each_invariant (λ _ : World unit unit unit unit, True) its
              (engine_iteration Sample.echo_net Sample.half_net Sample.sgd_keep
                 Sample.adam_keep Sample.darts_keep Sample.no_roll_back
                 (Sample.with_flags true false)
                 Sample.loader Sample.loader Sample.test_set) w I)
    as (w' & Hw' & _).
  - intros it w0 _. destruct (sample_baseline_iteration it w0) as (w1 & H).
    by exists w1.
  - by exists w'.
Qed.

Lemma sample_loop (its : list Z) (w : World unit unit unit unit) :
  Sample.ready w →
  ∃ w',
    for_each its
      (engine_iteration Sample.echo_net Sample.half_net Sample.sgd_keep
         Sample.adam_keep Sample.darts_keep Sample.no_roll_back default_args
         Sample.loader Sample.loader Sample.test_set) w = Ok w' ∧
    Sample.ready w'.
Proof.
  intros Hw. apply for_each_invariant; [exact Hw|].
  intros it w0 Hw0. by apply sample_iteration.
Qed.

(** ** The properties on the sample run *)

Lemma Inner_training_step_scalar_witness :
  Inner.training_step Sample.echo_net default_args tt
    (Some (Outer.forward Sample.half_net default_args tt)) Sample.batch2
    = Ok Sample.weighted_loss2 ∧
  shape Sample.weighted_loss2 = [] ∧
  length (data Sample.weighted_loss2) = 1%nat.
Proof.
  split; [exact sample_inner_step|].
  exact (Inner_training_step_scalar Sample.echo_net default_args tt
           (Some (Outer.forward Sample.half_net default_args tt))
           Sample.batch2 Sample.weighted_loss2 sample_inner_step).
Defined.

Lemma baseline_loss_is_meta_loss_witness :
  Outer.training_step
    (Some (Inner.forward Sample.echo_net (Sample.with_flags true false) tt))
    Sample.batch2 = Ok Sample.meta_output2 ∧
  Inner.training_step Sample.echo_net (Sample.with_flags true false) tt None
    Sample.batch2 = Ok (Outer.loss Sample.meta_output2).
Proof.
  split; [apply sample_outer_step_any|].
  exact (baseline_loss_is_meta_loss Sample.echo_net
           (Sample.with_flags true false) tt None Sample.batch2
           Sample.meta_output2 eq_refl
           (sample_outer_step_any (Sample.with_flags true false) tt)).
Defined.

Lemma Inner_training_step_bad_batch_witness :
  Inner.training_step Sample.echo_net default_args tt
    (Some (Outer.forward Sample.half_net default_args tt))
    (Sample.two_by_two, [0%nat]) = Raise ValueError ∧
  Inner.training_step Sample.echo_net (Sample.with_flags true false) tt None
    (Sample.two_by_two, [0%nat]) = Raise ValueError.
Proof.
  split.
  - apply (Inner_training_step_bad_batch Sample.echo_net default_args tt
             (Some (Outer.forward Sample.half_net default_args tt))
             Sample.two_by_two [0%nat] Sample.two_by_two 2 2 eq_refl eq_refl).
    discriminate.
  - apply (Inner_training_step_bad_batch Sample.echo_net
             (Sample.with_flags true false) tt None
             Sample.two_by_two [0%nat] Sample.two_by_two 2 2 eq_refl eq_refl).
    discriminate.
Defined.

Lemma Outer_training_step_bounds_witness :
  0 <= Outer.acc Sample.meta_output2 <= 100 ∧
  ∃ v, Outer.loss Sample.meta_output2 = scalar_tensor v false ∧ 0 <= v.
Proof.
  apply (Outer_training_step_bounds
           (Inner.forward Sample.echo_net default_args tt)
           Sample.two_by_two [0; 1]%nat Sample.two_by_two Sample.meta_output2).
  - discriminate.
  - reflexivity.
  - reflexivity.
  - apply sample_outer_step.
Defined.

Lemma reweighted_loss_at_most_plain_loss_witness :
  ∃ v v0,
    Inner.training_step Sample.echo_net default_args tt
      (Some (Outer.forward Sample.half_net default_args tt)) Sample.batch2
      = Ok (scalar_tensor v true) ∧
    cross_entropy Sample.two_by_two [0; 1]%nat reduction_mean
      = Ok (scalar_tensor v0 false) ∧
    0 <= v <= v0.
Proof.
  apply (reweighted_loss_at_most_plain_loss Sample.echo_net Sample.half_net
           default_args tt tt Sample.two_by_two [0; 1]%nat Sample.two_by_two
           {| shape := [2; 1]%nat; data := [1 / 2; 1 / 2];
              requires_grad := true |} 2).
  - reflexivity.
  - reflexivity.
  - discriminate.
  - reflexivity.
  - reflexivity.
  - reflexivity.
  - repeat constructor.
  - exact sample_half_step.
  - reflexivity.
  - reflexivity.
  - repeat constructor; cbn; lra.
Defined.

Lemma unit_weights_give_plain_loss_witness :
  ∃ t t0,
    Inner.training_step Sample.echo_net default_args tt
      (Some (Outer.forward Sample.one_net default_args tt)) Sample.batch2
      = Ok t ∧
    cross_entropy Sample.two_by_two [0; 1]%nat reduction_mean = Ok t0 ∧
    data t = data t0.
Proof.
  apply (unit_weights_give_plain_loss Sample.echo_net Sample.one_net
           default_args tt tt Sample.two_by_two [0; 1]%nat Sample.two_by_two
           {| shape := [2; 1]%nat; data := [1; 1]; requires_grad := true |} 2).
  - reflexivity.
  - reflexivity.
  - discriminate.
  - reflexivity.
  - reflexivity.
  - repeat constructor.
  - exact sample_unit_step.
  - reflexivity.
  - reflexivity.
  - repeat constructor.
Defined.

Lemma validation_without_samples_witness :
  ReweightingEngine.validation Sample.echo_net default_args []
    (problems default_args) Sample.world0 = Raise ZeroDivisionError.
Proof.
  exact (validation_without_samples Sample.echo_net default_args []
           Sample.world0 0%Z eq_refl).
Defined.

Lemma validation_order_independent_witness :
  ∃ r,
    ReweightingEngine.validation Sample.echo_net default_args
      [Sample.batch1; Sample.batch1x2] (problems default_args) Sample.world0
      = Ok r ∧
    ReweightingEngine.validation Sample.echo_net default_args
      [Sample.batch1x2; Sample.batch1] (problems default_args) Sample.world0
      = Ok r.
Proof.
  destruct (validation_returns Sample.echo_net default_args Sample.test_pair
              Sample.world0 3 3 (sample_test_pair default_args tt))
    as (w' & stats & Hval); [lia|].
  exists (w', stats). split; [exact Hval|].
  apply (validation_order_independent Sample.echo_net default_args
           [Sample.batch1; Sample.batch1x2] [Sample.batch1x2; Sample.batch1]
           Sample.world0 (w', stats)); [apply perm_swap | exact Hval].
Defined.

Lemma validation_accuracy_is_percentage_witness :
  ∃ (w' : World unit unit unit unit) (acc best : R),
    ReweightingEngine.validation Sample.echo_net default_args Sample.test_set
      (problems default_args) Sample.world0 = Ok (w', (acc, best)) ∧
    0 <= acc <= 100.
Proof.
  destruct (sample_validation_any default_args Sample.world0)
    as (w' & [acc best] & Hval).
  exists w', acc, best. split; [exact Hval|].
  apply (validation_accuracy_is_percentage Sample.echo_net default_args
           Sample.test_set Sample.world0 w' acc best); [|exact Hval].
  constructor; [|constructor].
  intros out Hout. exists 1%nat.
  change (Ok Sample.one_by_one = Ok out) in Hout. injection Hout as <-.
  split; reflexivity.
Defined.

Lemma validation_idempotent_witness :
  ∃ (w' : World unit unit unit unit) (acc best : R),
    ReweightingEngine.validation Sample.echo_net default_args Sample.test_set
      (problems default_args) Sample.world0 = Ok (w', (acc, best)) ∧
    ReweightingEngine.validation Sample.echo_net default_args Sample.test_set
      (problems default_args) w' = Ok (w', (acc, best)).
Proof.
  destruct (sample_validation_any default_args Sample.world0)
    as (w' & [acc best] & Hval).
  exists w', acc, best. split; [exact Hval|].
  exact (validation_idempotent Sample.echo_net default_args Sample.test_set
           Sample.world0 w' acc best Hval).
Defined.

Lemma main_refuses_negative_hyperparameters_witness :
  main Sample.echo_net Sample.half_net tt tt tt tt Sample.sgd_keep
    Sample.adam_keep Sample.darts_keep Sample.no_roll_back (Sample.with_rates false (-1) (1 / 100000))
    Sample.loader Sample.loader Sample.test_set = Raise ValueError ∧
  main Sample.echo_net Sample.half_net tt tt tt tt Sample.sgd_keep
    Sample.adam_keep Sample.darts_keep Sample.no_roll_back (Sample.with_rates false (1 / 10) (-1))
    Sample.loader Sample.loader Sample.test_set = Raise ValueError.
Proof.
  split.
  - apply (main_refuses_negative_hyperparameters Sample.echo_net Sample.half_net
             tt tt tt tt Sample.sgd_keep Sample.adam_keep Sample.darts_keep Sample.no_roll_back
             (Sample.with_rates false (-1) (1 / 100000))).
    left. cbn [lr Sample.with_rates]. lra.
  - apply (main_refuses_negative_hyperparameters Sample.echo_net Sample.half_net
             tt tt tt tt Sample.sgd_keep Sample.adam_keep Sample.darts_keep Sample.no_roll_back
             (Sample.with_rates false (1 / 10) (-1))).
    right. right. right. split; [reflexivity|].
    left. cbn [meta_lr Sample.with_rates]. lra.
Defined.

Lemma baseline_engine_ignores_meta_hyperparameters_witness :
  ∃ w0 : World unit unit unit unit,
    engine tt tt tt tt (Sample.with_rates true (1 / 10) (-1)) = Ok w0 ∧
    outer_optimizer (state w0) = None ∧
    inner_optimizer (state w0) = (Inner.configure_scheduler Sample.sgd0).1 ∧
    optim.sgd_lr (inner_optimizer (state w0)) = 1 / 10.
Proof.
  exact (baseline_engine_ignores_meta_hyperparameters tt tt tt tt
           (Sample.with_rates true (1 / 10) (-1)) Sample.sgd0 eq_refl
           (sample_optimizer true (-1))).
Defined.

Lemma checkpoints_are_never_overwritten_witness :
  ∃ w1 w2 : World unit unit unit unit,
    for_each [500%Z]
      (engine_iteration Sample.echo_net Sample.half_net Sample.sgd_keep
         Sample.adam_keep Sample.darts_keep Sample.no_roll_back default_args
         Sample.loader Sample.loader Sample.test_set) Sample.world0 = Ok w1 ∧
    for_each [1%Z; 1000%Z]
      (engine_iteration Sample.echo_net Sample.half_net Sample.sgd_keep
         Sample.adam_keep Sample.darts_keep Sample.no_roll_back default_args
         Sample.loader Sample.loader Sample.test_set) w1 = Ok w2 ∧
    disk w2 !! ReweightingEngine.net_path default_args (global_step w1)
      = disk w1 !! ReweightingEngine.net_path default_args (global_step w1) ∧
    disk w2 !! ReweightingEngine.meta_net_path default_args (global_step w1)
      = disk w1 !! ReweightingEngine.meta_net_path default_args (global_step w1).
Proof.
  destruct (sample_loop [500%Z] Sample.world0 eq_refl) as (w1 & H1 & Hready).
  destruct (sample_loop [1%Z; 1000%Z] w1 Hready) as (w2 & H2 & _).
  exists w1, w2. split; [exact H1|]. split; [exact H2|].
  apply (checkpoints_are_never_overwritten Sample.echo_net Sample.half_net
           Sample.sgd_keep Sample.adam_keep Sample.darts_keep Sample.no_roll_back default_args
           Sample.loader Sample.loader Sample.test_set [1%Z; 1000%Z] w1 w2
           (global_step w1) H2).
  apply Z.le_refl.
Defined.

Lemma baseline_run_writes_nothing_witness :
  ∃ w' : World unit unit unit unit,
    for_each [499%Z; 500%Z]
      (engine_iteration Sample.echo_net Sample.half_net Sample.sgd_keep
         Sample.adam_keep Sample.darts_keep Sample.no_roll_back (Sample.with_flags true false)
         Sample.loader Sample.loader Sample.test_set) Sample.baseline_world0
      = Ok w' ∧
    disk w' = disk Sample.baseline_world0.
Proof.
  destruct (sample_baseline_loop [499%Z; 500%Z] Sample.baseline_world0)
    as (w' & Hloop).
  exists w'. split; [exact Hloop|].
  exact (baseline_run_writes_nothing Sample.echo_net Sample.half_net
           Sample.sgd_keep Sample.adam_keep Sample.darts_keep Sample.no_roll_back
           (Sample.with_flags true false) Sample.loader Sample.loader
           Sample.test_set [499%Z; 500%Z] Sample.baseline_world0 w' eq_refl Hloop).
Defined.

Lemma run_leaves_sixty_checkpoints_witness :
  ∃ w' : World unit unit unit unit,
    engine_run Sample.echo_net Sample.half_net Sample.sgd_keep Sample.adam_keep Sample.darts_keep
      Sample.no_roll_back default_args Sample.loader Sample.loader
      Sample.test_set Sample.world0 = Ok w' ∧
    (∃ θ, disk w' !! ReweightingEngine.net_path default_args
                       (global_step Sample.world0 + 500 * 30)
            = Some (inner_state_dict θ)) ∧
    (∃ φ, disk w' !! ReweightingEngine.meta_net_path default_args
                       (global_step Sample.world0 + 500 * 30)
            = Some (outer_state_dict φ)).
Proof.
  destruct sample_run as (w' & Hrun & _).
  exists w'. split; [exact Hrun|].
  apply (run_leaves_sixty_checkpoints Sample.echo_net Sample.half_net
           Sample.sgd_keep Sample.adam_keep Sample.darts_keep Sample.no_roll_back default_args
           Sample.loader Sample.loader Sample.test_set Sample.world0 w' 30
           eq_refl Hrun).
  lia.
Defined.

Lemma baseline_train_step_leaves_outer_alone_witness :
  ∃ (w' : World unit unit unit unit) (loss : Tensor),
    Engine.train_step Sample.echo_net Sample.half_net
      (Sample.with_flags true false) Sample.loader Sample.loader
      Sample.sgd_keep Sample.adam_keep Sample.darts_keep Sample.no_roll_back
      outer_config inner_config (engine_config (Sample.with_flags true false))
      (problems (Sample.with_flags true false))
      (dependencies (Sample.with_flags true false)) Sample.baseline_world0
      = Ok w' ∧
    calls (state w') =
      [inner_training_step tt Sample.batch2 loss] ∧
    outer_count (state w') = 0%Z ∧ inner_count (state w') = 1%Z.
Proof.
  destruct (sample_baseline_train_step Sample.baseline_world0) as (w' & Hstep).
  destruct (baseline_train_step_leaves_outer_alone Sample.echo_net
              Sample.half_net Sample.sgd_keep Sample.adam_keep Sample.darts_keep
              Sample.no_roll_back (Sample.with_flags true false)
              Sample.loader Sample.loader Sample.baseline_world0 w'
              eq_refl eq_refl Hstep)
    as (loss & _ & Hcalls & _ & Hoc & Hic).
  exists w', loss. split; [exact Hstep|].
  split; [exact Hcalls|]. split; [exact Hoc | exact Hic].
Defined.

Lemma run_steps_and_final_learning_rate_witness :
  ∃ w' : World unit unit unit unit,
    engine_run Sample.echo_net Sample.half_net Sample.sgd_keep Sample.adam_keep Sample.darts_keep
      Sample.no_roll_back default_args Sample.loader Sample.loader
      Sample.test_set Sample.world0 = Ok w' ∧
    inner_count (state w') = 15000%Z ∧
    outer_count (state w') = 15000%Z ∧
    length (calls (state w')) = Z.to_nat 60000 ∧
    optim.sgd_lr (inner_optimizer (state w')) = lr default_args * (1 / 10) * (1 / 10).
Proof.
  destruct sample_run as (w' & Hrun & _).
  exists w'. split; [exact Hrun|].
  destruct (run_steps_and_final_learning_rate Sample.echo_net Sample.half_net
              tt tt tt tt Sample.sgd_keep Sample.adam_keep Sample.darts_keep Sample.no_roll_back
              default_args Sample.loader Sample.loader Sample.test_set
              Sample.world0 w' eq_refl sample_engine Hrun)
    as (Hic & Hoc & Hcalls & Hlr).
  split; [exact Hic|]. split; [exact Hoc|]. split; [exact Hcalls | exact Hlr].
Defined.
